(** * IndxNodeLoader: the load workflow and its collaborators

    A shallow embedding of [src/types/indx-search-lib.ts] (type definitions,
    dataset configuration and the API layer with [loadDataset]), of
    [src/utils/auth.ts] ([setBearerToken], [login]) and of [src/index.ts]
    ([main] and the entry point).

    - JavaScript strings are Rocq strings read as sequences of code units
      below 256; [toLowerCase] is exact on those.
    - The remote service is a script: the list of the responses it will give,
      in the order the requests are issued.  A request that finds the script
      empty stays unanswered ([Awaiting]).
    - The body of a response ([response.data]) is the JSON value null or a
      value of the type the call site declares for it
      ([client.get<SystemStatus>], [client.put<FilterProxy>], ...).  The
      declaration is not checked when the program runs: the API functions
      hand [response.data] on as it is, so their results are null when the
      body is, and the callers meet the null.  Bodies that are neither null
      nor of the declared type are outside the model.
    - A request may be answered with any status ([Http]) or rejected
      ([Threw]); the code tests the status itself and catches rejections, so
      both are kept whatever the client's own status validation is.
    - Console output, requests and sleeps are recorded, in order, in a trace.
      Of [console.error(label, error)] the trace keeps the label and
      [error.message]; the stack trace the console adds is not recorded.
    - Rendering details of the console helper (colours, tick marks), wall
      clock readings and float formatting are not computed: they are fields
      of [Runtime]. *)

From Stdlib Require Import QArith.
From Stdlib Require Import ZArith String Ascii List Bool Lia DecimalString.
Import ListNotations.

Set Warnings "-register-all".
#[local] Close Scope Q_scope.
#[local] Open Scope list_scope.
#[local] Open Scope string_scope.

(** ** Enums *)

Module SystemState.
Inductive t := Hibernated | Created | Loading | Loaded | Indexing | Ready | Error.

Definition code (s : t) : Z :=
  match s with
  | Hibernated => -1
  | Created => 0
  | Loading => 1
  | Loaded => 2
  | Indexing => 3
  | Ready => 4
  | Error => 255
  end.

(** [a === b] on enum members compares their numeric codes. *)
Definition eqb (a b : t) : bool := Z.eqb (code a) (code b).
End SystemState.

Module Weight.
Inductive t := High | Med | Low.

Definition code (w : t) : Z :=
  match w with
  | High => 0
  | Med => 1
  | Low => 2
  end.
End Weight.

Module BoostStrength.
Inductive t := Low | Medium | High.

Definition code (b : t) : Z :=
  match b with
  | Low => 1
  | Medium => 2
  | High => 3
  end.
End BoostStrength.

(** ** JavaScript values sent as request bodies *)

Inductive Json :=
| JNull
| JBool (b : bool)
| JNum (q : Q)
| JStr (s : string)
| JArr (items : list Json)
| JObj (props : list (string * Json)).

Definition num (z : Z) : Json := JNum (inject_Z z).

(** The property names of an object literal, in the order written. *)
Definition keys (j : Json) : list string :=
  match j with
  | JObj props => map fst props
  | _ => []
  end.

Definition prop (k : string) (j : Json) : option Json :=
  match j with
  | JObj props =>
      match find (fun kv => String.eqb (fst kv) k) props with
      | Some kv => Some (snd kv)
      | None => None
      end
  | _ => None
  end.

(** ** Core interfaces *)

(** Of [SystemStatus] the loader reads [systemState] only; the fields kept
    here are the ones the service documents next to it. *)
Record SystemStatus := {
  documentCount : Z;
  errorMessage : option string;
  secondsToIndex : Z;
  systemState : SystemState.t
}.

Record SearchRecord := {
  documentKey : Z;
  score : Q
}.

Record Result := {
  records : option (list SearchRecord);
  didTimeOut : bool
}.

Module FilterProxy.
Record t := mk { id : string; fieldName : string }.

Definition json (f : t) : Json :=
  JObj [("id", JStr (id f)); ("fieldName", JStr (fieldName f))].
End FilterProxy.

(** [interface CombinedFilterProxy { filter1; filter2; useAnd }] *)
Module CombinedFilterProxy.
Record t := mk {
  filter1 : FilterProxy.t;
  filter2 : FilterProxy.t;
  useAnd : bool
}.

Definition json (c : t) : Json :=
  JObj [("filter1", FilterProxy.json (filter1 c));
        ("filter2", FilterProxy.json (filter2 c));
        ("useAnd", JBool (useAnd c))].
End CombinedFilterProxy.

Module BoostProxy.
Record t := mk { filterProxy : FilterProxy.t; boostStrength : BoostStrength.t }.

Definition json (b : t) : Json :=
  JObj [("filterProxy", FilterProxy.json (filterProxy b));
        ("boostStrength", num (BoostStrength.code (boostStrength b)))].
End BoostProxy.

Record JWT := { token : string }.

(** ** Dataset configuration *)

Module SearchableField.
Record t := mk { name : string; weight : Z }.
End SearchableField.

Module DatasetConfig.
Record t := mk {
  name : string;
  filePath : string;
  searchableFields : list SearchableField.t;
  wordIndexingFields : list string;
  filterableFields : list string;
  facetableFields : list string;
  sortableFields : list string;
  testQuery : string
}.
End DatasetConfig.

(** [String.prototype.toLowerCase] on code units below 256: the upper case
    letters there are A-Z, U+00C0-U+00D6 and U+00D8-U+00DE, each 32 below its
    lower case letter. *)
Definition lowerChar (c : ascii) : ascii :=
  let n := nat_of_ascii c in
  if (((65 <=? n) && (n <=? 90)) || ((192 <=? n) && (n <=? 214))
      || ((216 <=? n) && (n <=? 222)))%nat
  then ascii_of_nat (n + 32)
  else c.

Fixpoint toLowerCase (s : string) : string :=
  match s with
  | EmptyString => EmptyString
  | String c rest => String (lowerChar c) (toLowerCase rest)
  end.

Definition tmdb : DatasetConfig.t :=
  DatasetConfig.mk "tmdb" "data/tmdb_top10k.json"
    [ SearchableField.mk "title" (Weight.code Weight.High);
      SearchableField.mk "original_title" (Weight.code Weight.Med);
      SearchableField.mk "description" (Weight.code Weight.Med);
      SearchableField.mk "actors" (Weight.code Weight.Low) ]
    ["title"]
    ["release_year"; "vote_average"; "vote_count_tier"; "genres"; "decade"; "actors"; "language"]
    ["release_year"; "vote_average"; "vote_count_tier"; "genres"; "decade"; "actors"; "language"]
    ["popularity"; "vote_average"]
    "titanic".

Definition pokedex : DatasetConfig.t :=
  DatasetConfig.mk "pokedex" "data/pokedex.json"
    [ SearchableField.mk "name" (Weight.code Weight.High);
      SearchableField.mk "type1" (Weight.code Weight.Med);
      SearchableField.mk "type2" (Weight.code Weight.Low) ]
    ["name"; "type1"; "type2"]
    ["speed"; "attack"; "hp"; "type1"; "type2"; "is_legendary"]
    ["speed"; "attack"; "hp"; "type1"; "type2"; "is_legendary"]
    ["name"; "speed"]
    "raic".

Definition getConfig (datasetName : string) : option DatasetConfig.t :=
  let lowerName := toLowerCase datasetName in
  if String.eqb lowerName "tmdb" then Some tmdb
  else if String.eqb lowerName "pokedex" then Some pokedex
  else None.

Definition getAvailableDatasets : list string := ["tmdb"; "pokedex"].

(** ** Requests, responses and the trace *)

Inductive Method := GET | POST | PUT | DELETE.

Inductive Payload :=
| NoBody
| JsonBody (j : Json)
| TextBody (text : string)
| FileStream (fileName : string).

Record Request := {
  method : Method;
  url : string;
  payload : Payload;
  headers : list (string * string)
}.

(** A body that is not null, as each declared response type reads it;
    [theText] is [JSON.stringify] of it. *)
Record Views := {
  theSystemStatus : SystemStatus;
  theStrings : list string;
  theFilterProxy : FilterProxy.t;
  theBoostProxy : BoostProxy.t;
  theResult : Result;
  theNumber : Z;
  theJWT : JWT;
  theText : string
}.

(** [response.data]: the JSON value null, or a value of the declared type. *)
Inductive Body :=
| Null
| Typed (views : Views).

(** [response.data] read at a declared type; [None] is null. *)
Definition read {A} (view : Views -> A) (data : Body) : option A :=
  match data with
  | Null => None
  | Typed views => Some (view views)
  end.

Definition asSystemStatus : Body -> option SystemStatus := read theSystemStatus.
Definition asStrings : Body -> option (list string) := read theStrings.
Definition asFilterProxy : Body -> option FilterProxy.t := read theFilterProxy.
Definition asBoostProxy : Body -> option BoostProxy.t := read theBoostProxy.
Definition asResult : Body -> option Result := read theResult.
Definition asNumber : Body -> option Z := read theNumber.
Definition asJWT : Body -> option JWT := read theJWT.

(** [JSON.stringify(response.data)] *)
Definition stringify (data : Body) : string :=
  match data with
  | Null => "null"
  | Typed views => theText views
  end.

(** [error.response] of a rejected request that the service did answer:
    the status, the body as [console.error] prints it ([None] when the body
    is not truthy) and as [JSON.stringify] gives it. *)
Module ErrorResponse.
Record t := mk {
  status : Z;
  data : option string;
  json : string
}.
End ErrorResponse.

(** The error a request is rejected with: [error.message], [error.cause] as
    a template literal prints it ([None] when it is not truthy), whether
    [axios.isAxiosError] holds of it, and [error.response]. *)
Module Rejection.
Record t := mk {
  message : string;
  cause : option string;
  isAxiosError : bool;
  response : option ErrorResponse.t
}.
End Rejection.

Inductive Response :=
| Threw (e : Rejection.t)
| Http (status : Z) (statusText : string) (data : Body).

Definition is2xx (status : Z) : bool := (200 <=? status)%Z && (status <? 300)%Z.

(** The request was answered, with a status in 200..299. *)
Definition succeeds (r : Response) : bool :=
  match r with
  | Threw _ => false
  | Http status _ _ => is2xx status
  end.

Inductive Kind := header | success | info | warning | error | progress | log | errlog.

Inductive Event :=
| Printed (k : Kind) (message : string)
| Exchange (rq : Request) (rs : Response)
| Sent (rq : Request)
| Sleep (ms : Z)
| Default (key value : string).   (* [client.defaults...  = value] *)

Definition Trace := list Event.

Definition request_of (e : Event) : option Request :=
  match e with
  | Exchange rq _ => Some rq
  | Sent rq => Some rq
  | _ => None
  end.

Fixpoint requests (tr : Trace) : list Request :=
  match tr with
  | [] => []
  | e :: rest =>
      match request_of e with
      | Some rq => rq :: requests rest
      | None => requests rest
      end
  end.

(** ** The monad of the workflow: a script of responses, a trace, and the
    ways a computation stops *)

Record World := mkWorld {
  script : list Response;
  trace : Trace
}.

Inductive Stop :=
| Returned                   (* [return;] out of the enclosing function *)
| Exited (code : Z)          (* [process.exit(code)] *)
| Thrown (message : string) (cause : option string)
                             (* an exception on its way up, with what the
                                handlers read of it *)
| Awaiting.                  (* a request the script has no response for *)

Inductive Res (A : Type) :=
| Ok (a : A) (w : World)
| Halt (s : Stop) (w : World).
Arguments Ok {A} a w.
Arguments Halt {A} s w.

Definition M (A : Type) := World -> Res A.

Definition ret {A} (a : A) : M A := fun w => Ok a w.

Definition bind {A B} (m : M A) (k : A -> M B) : M B :=
  fun w =>
    match m w with
    | Ok a w' => k a w'
    | Halt s w' => Halt s w'
    end.

Definition halt {A} (s : Stop) : M A := fun w => Halt s w.

Declare Scope m_scope.
Delimit Scope m_scope with m.
Notation "x <- c1 ;; c2" := (bind c1 (fun x => c2))
  (at level 61, c1 at next level, right associativity) : m_scope.
Notation "c1 ;; c2" := (bind c1 (fun _ => c2))
  (at level 61, right associativity) : m_scope.
#[local] Open Scope m_scope.

Definition world_of {A} (r : Res A) : World :=
  match r with
  | Ok _ w => w
  | Halt _ w => w
  end.

Definition stop_of {A} (r : Res A) : option Stop :=
  match r with
  | Ok _ _ => None
  | Halt s _ => Some s
  end.

Definition emit (e : Event) : M unit :=
  fun w => Ok tt (mkWorld (script w) (trace w ++ [e])%list).

(** [await client.<method>(url, body)]: the next response of the script. *)
Definition send (rq : Request) : M Response :=
  fun w =>
    match script w with
    | [] => Halt Awaiting (mkWorld [] (trace w ++ [Sent rq])%list)
    | r :: rest => Ok r (mkWorld rest (trace w ++ [Exchange rq r])%list)
    end.

(** [try { body } catch (error) { handler(error.message, error.cause) }] *)
Definition tryCatch {A} (body : M A) (handler : string -> option string -> M A) : M A :=
  fun w =>
    match body w with
    | Halt (Thrown message cause) w' => handler message cause w'
    | r => r
    end.

(** A call of a function whose body may [return;] early. *)
Definition call (body : M unit) : M unit :=
  fun w =>
    match body w with
    | Halt Returned w' => Ok tt w'
    | r => r
    end.

Fixpoint forEach {A} (l : list A) (f : A -> M unit) : M unit :=
  match l with
  | [] => ret tt
  | x :: rest => f x ;; forEach rest f
  end.

Definition when (b : bool) (m : M unit) : M unit := if b then m else ret tt.

Definition process_exit (code : Z) : M unit := halt (Exited code).
Definition throw {A} (message : string) (cause : option string) : M A :=
  halt (Thrown message cause).
Definition return_ {A} : M A := halt Returned.

Definition console_log (message : string) : M unit := emit (Printed log message).
Definition console_error (message : string) : M unit := emit (Printed errlog message).
Definition sleep (ms : Z) : M unit := emit (Sleep ms).

Module ConsoleHelper.
Definition writeHeader (message : string) : M unit := emit (Printed header message).
Definition writeSuccess (message : string) : M unit := emit (Printed success message).
Definition writeInfo (message : string) : M unit := emit (Printed info message).
Definition writeWarning (message : string) : M unit := emit (Printed warning message).
Definition writeError (message : string) : M unit := emit (Printed error message).
Definition writeProgress (message : string) : M unit := emit (Printed progress message).
Definition writeSummary (title : string) (items : list (string * string)) : M unit :=
  writeHeader title ;;
  forEach items (fun kv => console_log ("  " ++ fst kv ++ ": " ++ snd kv)).
End ConsoleHelper.

(** ** What the workflow takes from the Node runtime *)

Inductive Try (A : Type) :=
| Value (a : A)
| Raises (message : string).
Arguments Value {A} a.
Arguments Raises {A} message.

Record Runtime := {
  existsSync : string -> bool;
  statSync : string -> Try Z;             (* the size of the file *)
  readFileSync : string -> Try string;
  resolve : string -> string;             (* [path.resolve] *)
  toFixed : nat -> Q -> string;
  toLocaleString : Z -> string;
  nullRead : string -> string;            (* the message of the TypeError of
                                             reading this property of null *)
  loadingDuration : Q;                    (* seconds, from the wall clock *)
  indexingDuration : Q
}.

(** The double quote, for the texts that print one. *)
Definition quote : string := String (ascii_of_nat 34) EmptyString.

Definition showNat (n : nat) : string := NilZero.string_of_uint (Nat.to_uint n).
Definition showZ (z : Z) : string := NilZero.string_of_int (Z.to_int z).

Fixpoint repeatString (s : string) (n : nat) : string :=
  match n with
  | O => ""
  | S n' => s ++ repeatString s n'
  end.

Fixpoint join (sep : string) (l : list string) : string :=
  match l with
  | [] => ""
  | [x] => x
  | x :: rest => x ++ sep ++ join sep rest
  end.

(** ** The API layer *)

Definition SEARCH_CONTROLLER_ROUTE : string := "api".

Definition client_get (url : string) : M Response :=
  send (Build_Request GET url NoBody []).

Definition client_put (url : string) (data : Payload) (headers : list (string * string))
  : M Response :=
  send (Build_Request PUT url data headers).

Definition client_post (url : string) (data : Payload) (headers : list (string * string))
  : M Response :=
  send (Build_Request POST url data headers).

(** [error.response?.data || error.message], as [console.error] prints it *)
Definition dataOrMessage (e : Rejection.t) : string :=
  match Rejection.response e with
  | Some response =>
      match ErrorResponse.data response with
      | Some data => data
      | None => Rejection.message e
      end
  | None => Rejection.message e
  end.

Definition strings (l : list string) : Payload := JsonBody (JArr (map JStr l)).

Definition analyze (rt : Runtime) (dataSetName fileName : string) : M (option SystemStatus) :=
  match readFileSync rt fileName with
  | Raises message => console_error ("Analyze error: " ++ message) ;; ret None
  | Value fullFile =>
      response <- client_post (SEARCH_CONTROLLER_ROUTE ++ "/AnalyzeString/" ++ dataSetName)
                    (TextBody fullFile) [("Content-Type", "text/plain")] ;;
      match response with
      | Threw e =>
          console_error ("Analyze error: " ++ Rejection.message e) ;; ret None
      | Http status _ data => if is2xx status then ret (asSystemStatus data) else ret None
      end
  end.

Definition combineFilters (dataSetName : string) (combinedFilter : Json)
  : M (option FilterProxy.t) :=
  response <- client_put (SEARCH_CONTROLLER_ROUTE ++ "/CombineFilters/" ++ dataSetName)
                (JsonBody combinedFilter) [] ;;
  match response with
  | Threw _ => ret None
  | Http status _ data => if is2xx status then ret (asFilterProxy data) else ret None
  end.

Definition createBoost (dataSetName : string) (boost : Json) : M (option BoostProxy.t) :=
  response <- client_put (SEARCH_CONTROLLER_ROUTE ++ "/CreateBoost/" ++ dataSetName)
                (JsonBody boost) [] ;;
  match response with
  | Threw _ => ret None
  | Http status _ data => if is2xx status then ret (asBoostProxy data) else ret None
  end.

Definition createOrOpenDataSet (route dataSetName : string) : M bool :=
  response <- client_put (route ++ "/CreateOrOpen/" ++ dataSetName) (TextBody "") [] ;;
  match response with
  | Threw e =>
      console_error ("CreateOrOpenDataSet error: " ++ Rejection.message e) ;; ret false
  | Http status statusText _ =>
      when (negb (is2xx status))
        (console_log ("CreateOrOpenDataSet response error: " ++ statusText)) ;;
      ret (is2xx status)
  end.

Definition createRangeFilter (dataSetName : string) (rangeFilter : Json)
  : M (option FilterProxy.t) :=
  response <- client_put (SEARCH_CONTROLLER_ROUTE ++ "/CreateRangeFilter/" ++ dataSetName)
                (JsonBody rangeFilter) [] ;;
  match response with
  | Threw _ => ret None
  | Http status _ data => if is2xx status then ret (asFilterProxy data) else ret None
  end.

Definition createValueFilter (dataSetName : string) (valueFilter : Json)
  : M (option FilterProxy.t) :=
  response <- client_put (SEARCH_CONTROLLER_ROUTE ++ "/CreateValueFilter/" ++ dataSetName)
                (JsonBody valueFilter) [] ;;
  match response with
  | Threw _ => ret None
  | Http status _ data => if is2xx status then ret (asFilterProxy data) else ret None
  end.

(** The five field getters, [getAllFields] and [getJson] share one shape:
    the body of a 2xx response, as it is; otherwise a line on the console
    and [process.exit(-1)], with [return [];] as the statement after it. *)
Definition stringsOrExit (response : Response) (not2xx thrown : string)
  : M (option (list string)) :=
  match response with
  | Threw _ => console_log thrown ;; process_exit (-1) ;; ret (Some [])
  | Http status _ data =>
      if is2xx status then ret (asStrings data)
      else console_log not2xx ;; process_exit (-1) ;; ret (Some [])
  end.

Definition getAllFields (dataSetName : string) : M (option (list string)) :=
  response <- client_get (SEARCH_CONTROLLER_ROUTE ++ "/GetAllFields/" ++ dataSetName) ;;
  stringsOrExit response "System status request failed, type any char to exit"
    "GetAllFields request failed".

Definition getFacetableFields (dataSetName : string) : M (option (list string)) :=
  response <- client_get (SEARCH_CONTROLLER_ROUTE ++ "/GetFacetableFields/" ++ dataSetName) ;;
  stringsOrExit response "GetFacetableFields failed, type any char to exit"
    "GetFacetableFields request failed".

Definition getFilterableFields (dataSetName : string) : M (option (list string)) :=
  response <- client_get (SEARCH_CONTROLLER_ROUTE ++ "/GetFilterableFields/" ++ dataSetName) ;;
  stringsOrExit response "GetFilterableFields failed, type any char to exit"
    "GetFilterableFields request failed".

Definition getSearchableFields (dataSetName : string) : M (option (list string)) :=
  response <- client_get (SEARCH_CONTROLLER_ROUTE ++ "/GetSearchableFields/" ++ dataSetName) ;;
  stringsOrExit response "System status request failed, type any char to exit"
    "GetSearchableFields request failed".

Definition getJson (dataSetName : string) (keys : list Z) : M (option (list string)) :=
  response <- client_post (SEARCH_CONTROLLER_ROUTE ++ "/GetJson/" ++ dataSetName)
                (JsonBody (JArr (map num keys))) [] ;;
  stringsOrExit response "GetUserDataSets request failed, type any char to exit"
    "GetJson request failed".

Definition getSortableFields (dataSetName : string) : M (option (list string)) :=
  response <- client_get (SEARCH_CONTROLLER_ROUTE ++ "/GetSortableFields/" ++ dataSetName) ;;
  stringsOrExit response "System status request failed, type any char to exit"
    "GetSortableFields request failed".

Definition getWordIndexingFields (dataSetName : string) : M (option (list string)) :=
  response <- client_get (SEARCH_CONTROLLER_ROUTE ++ "/GetWordIndexingFields/" ++ dataSetName) ;;
  stringsOrExit response "GetWordIndexingFields failed, type any char to exit"
    "GetWordIndexingFields request failed".

Definition getNumberOfJsonRecordsInDb (dataSetName : string) : M (option Z) :=
  response <- client_get
                (SEARCH_CONTROLLER_ROUTE ++ "/GetNumberOfJsonRecordsInDb/" ++ dataSetName) ;;
  match response with
  | Threw _ => ret (Some 0%Z)
  | Http status _ data => if is2xx status then ret (asNumber data) else ret (Some 0%Z)
  end.

Definition getStatus_request (dataSetName : string) : Request :=
  Build_Request GET (SEARCH_CONTROLLER_ROUTE ++ "/GetStatus/" ++ dataSetName) NoBody [].

(** What [getStatus] does with the response: lines 620-630.  On a 2xx
    response it returns the body as it is, null when the body is null; the
    last [ret None] is the [return null;] that follows the try statement. *)
Definition getStatus_reply (response : Response) : M (option SystemStatus) :=
  match response with
  | Threw _ => console_log "GetStatus request failed" ;; process_exit (-1) ;; ret None
  | Http status _ data =>
      if is2xx status then ret (asSystemStatus data)
      else console_log "System status request failed, type any char to exit" ;;
           process_exit (-1) ;;
           ret None
  end.

Definition getStatus (dataSetName : string) : M (option SystemStatus) :=
  response <- send (getStatus_request dataSetName) ;;
  getStatus_reply response.

Definition indexDataSet (dataSetName : string) : M bool :=
  response <- client_get (SEARCH_CONTROLLER_ROUTE ++ "/IndexDataSet/" ++ dataSetName) ;;
  ret (succeeds response).

Definition loadStreamAsync (rt : Runtime) (dataSetName fileName : string) : M bool :=
  match statSync rt fileName with
  | Raises message => console_error ("LoadStreamAsync error: " ++ message) ;; ret false
  | Value size =>
      response <- client_put (SEARCH_CONTROLLER_ROUTE ++ "/LoadStream/" ++ dataSetName)
                    (FileStream fileName)
                    [("Content-Type", "text/plain"); ("Content-Length", showZ size)] ;;
      match response with
      | Threw e =>
          console_error ("LoadStreamAsync error: " ++ dataOrMessage e) ;;
          ret false
      | Http status _ _ => ret (is2xx status)
      end
  end.

Definition search (q : Json) (dataSetName : string) : M (option Result) :=
  response <- client_post (SEARCH_CONTROLLER_ROUTE ++ "/Search/" ++ dataSetName)
                (JsonBody q) [] ;;
  match response with
  | Threw e => console_error ("Search error: " ++ Rejection.message e) ;; ret None
  | Http status _ data => if is2xx status then ret (asResult data) else ret None
  end.

Definition setFacetableFields (dataSetName : string) (fields : list string) : M bool :=
  response <- client_put (SEARCH_CONTROLLER_ROUTE ++ "/SetFacetableFields/" ++ dataSetName)
                (strings fields) [] ;;
  ret (succeeds response).

Definition setFilterableFields (dataSetName : string) (fields : list string) : M bool :=
  response <- client_put (SEARCH_CONTROLLER_ROUTE ++ "/SetFilterableFields/" ++ dataSetName)
                (strings fields) [] ;;
  ret (succeeds response).

(** [fields.map(f => ({ Item1: f.name, Item2: f.weight }))] *)
Definition tuples (fields : list SearchableField.t) : Json :=
  JArr (map (fun f => JObj [("Item1", JStr (SearchableField.name f));
                            ("Item2", num (SearchableField.weight f))]) fields).

Definition setSearchableFields (dataSetName : string) (fields : list SearchableField.t)
  : M bool :=
  response <- client_put (SEARCH_CONTROLLER_ROUTE ++ "/SetSearchableFields/" ++ dataSetName)
                (JsonBody (tuples fields)) [] ;;
  match response with
  | Threw e =>
      console_error ("SetSearchableFields error: " ++ dataOrMessage e) ;;
      ret false
  | Http status _ _ => ret (is2xx status)
  end.

Definition setSortableFields (dataSetName : string) (fields : list string) : M bool :=
  response <- client_put (SEARCH_CONTROLLER_ROUTE ++ "/SetSortableFields/" ++ dataSetName)
                (strings fields) [] ;;
  ret (succeeds response).

Definition setWordIndexingFields (dataSetName : string) (fields : list string) : M bool :=
  response <- client_put (SEARCH_CONTROLLER_ROUTE ++ "/SetWordIndexingFields/" ++ dataSetName)
                (strings fields) [] ;;
  ret (succeeds response).

(** ** The load workflow *)

(** The two progress monitors of [loadDataset] (lines 1026-1037 and
    1062-1073) are the same do-while loop, up to the text shown and the test
    on the state: count the turn, show progress, fetch the status, decide
    whether to proceed, sleep 100 ms.  Each turn takes one response, so the
    loop is a recursion on the responses still to come. *)
Fixpoint monitor (label : string) (proceedOn : SystemState.t -> bool) (dataSetName : string)
    (dotCount : nat) (polls : list Response) (tr : Trace) : Res unit :=
  let dotCount := S dotCount in
  let tr :=
    (tr ++ [Printed progress (label ++ repeatString "." (dotCount mod 4) ++ "   ")])%list in
  match polls with
  | [] => Halt Awaiting (mkWorld [] (tr ++ [Sent (getStatus_request dataSetName)])%list)
  | response :: polls' =>
      match getStatus_reply response
              (mkWorld polls' (tr ++ [Exchange (getStatus_request dataSetName) response])%list)
      with
      | Halt s w => Halt s w
      | Ok status w =>
          let proceed :=
            match status with
            | Some status => proceedOn (systemState status)
            | None => false
            end in
          let tr := (trace w ++ [Sleep 100])%list in
          if proceed then monitor label proceedOn dataSetName dotCount polls' tr
          else Ok tt (mkWorld polls' tr)
      end
  end.

(** [proceed = status.systemState === SystemState.Loading] *)
Definition monitorLoading (dataSetName : string) : M unit :=
  fun w =>
    monitor "Loading data" (fun s => SystemState.eqb s SystemState.Loading)
      dataSetName 0 (script w) (trace w).

(** [proceed = status.systemState !== SystemState.Ready] *)
Definition monitorIndexing (dataSetName : string) : M unit :=
  fun w =>
    monitor "Indexing" (fun s => negb (SystemState.eqb s SystemState.Ready))
      dataSetName 0 (script w) (trace w).

Section LoadDataset.
Variable rt : Runtime.
Variable uri : string.

Import DatasetConfig.

(** Step 0, for a configuration that is not null: the data file. *)
Definition step0 (config : DatasetConfig.t) : M unit :=
  (if negb (existsSync rt (filePath config)) then
     ConsoleHelper.writeError ("Data file not found: " ++ filePath config) ;;
     ConsoleHelper.writeInfo "Please ensure the data file exists in the correct location." ;;
     ConsoleHelper.writeInfo ("Expected path: " ++ resolve rt (filePath config)) ;;
     return_
   else ret tt) ;;
  ConsoleHelper.writeHeader ("Loading Dataset: " ++ name config) ;;
  ConsoleHelper.writeInfo ("Data file: " ++ filePath config) ;;
  match statSync rt (filePath config) with
  | Raises message => throw message None
  | Value size =>
      ConsoleHelper.writeInfo
        ("File size: " ++ toFixed rt 2 (inject_Z size / 1024 / 1024)%Q ++ " MB") ;;
      console_log ""
  end.

(** Step 2: create or open the dataset. *)
Definition step2 (config : DatasetConfig.t) : M unit :=
  ConsoleHelper.writeInfo "Creating or opening dataset..." ;;
  tryCatch
    (createSuccess <- createOrOpenDataSet SEARCH_CONTROLLER_ROUTE (name config) ;;
     (if negb createSuccess then
        ConsoleHelper.writeError "Failed to create or open dataset." ;;
        ConsoleHelper.writeInfo "Troubleshooting:" ;;
        ConsoleHelper.writeInfo "  1. Verify API_URI in .env.local is correct" ;;
        ConsoleHelper.writeInfo "  2. Ensure IndxCloudApi is running" ;;
        ConsoleHelper.writeInfo "  3. Check that BEARER_TOKEN is valid (not expired)" ;;
        return_
      else ret tt) ;;
     ConsoleHelper.writeSuccess "Dataset opened successfully")
    (fun message _ =>
       ConsoleHelper.writeError ("Network error: " ++ message) ;;
       ConsoleHelper.writeInfo "Troubleshooting:" ;;
       ConsoleHelper.writeInfo ("  - Cannot connect to: " ++ uri) ;;
       ConsoleHelper.writeInfo "  - Is IndxCloudApi running?" ;;
       ConsoleHelper.writeInfo "  - Check your firewall settings" ;;
       return_).

(** Step 3: analyze the data structure, then the initial status. *)
Definition step3 (config : DatasetConfig.t) : M unit :=
  ConsoleHelper.writeInfo "Analyzing data structure..." ;;
  status0 <- analyze rt (name config) (filePath config) ;;
  match status0 with
  | None => ConsoleHelper.writeError "Failed to analyze data file" ;; return_
  | Some _ => ret tt
  end ;;
  ConsoleHelper.writeSuccess "Data structure analyzed" ;;
  _ <- getStatus (name config) ;;
  ret tt.

(** Step 4: discover and display all fields.  [list.length] on a null
    [list] is a TypeError. *)
Definition step4 (config : DatasetConfig.t) : M unit :=
  ConsoleHelper.writeInfo "Discovering fields in dataset..." ;;
  list <- getAllFields (name config) ;;
  match list with
  | None => throw (nullRead rt "length") None
  | Some list =>
      ConsoleHelper.writeSuccess ("Found " ++ showNat (length list) ++ " fields") ;;
      ConsoleHelper.writeInfo ("Fields: " ++ join ", " list) ;;
      console_log ""
  end.

(** Step 5: searchable fields. *)
Definition step5 (config : DatasetConfig.t) : M unit :=
  ConsoleHelper.writeInfo "Configuring searchable fields..." ;;
  myres <- setSearchableFields (name config) (searchableFields config) ;;
  (if negb myres then
     ConsoleHelper.writeError "Failed to set searchable fields" ;; return_
   else ret tt) ;;
  ConsoleHelper.writeSuccess
    ("Configured " ++ showNat (length (searchableFields config)) ++ " searchable fields") ;;
  forEach (searchableFields config) (fun field =>
    ConsoleHelper.writeInfo
      ("  - " ++ SearchableField.name field
       ++ " (weight: " ++ showZ (SearchableField.weight field) ++ ")")).

(** Step 6: filterable fields. *)
Definition step6 (config : DatasetConfig.t) : M unit :=
  ConsoleHelper.writeInfo "Configuring filterable fields..." ;;
  myres2 <- setFilterableFields (name config) (filterableFields config) ;;
  (if negb myres2 then
     ConsoleHelper.writeError "Failed to set filterable fields" ;; return_
   else ret tt) ;;
  ConsoleHelper.writeSuccess
    ("Configured " ++ showNat (length (filterableFields config)) ++ " filterable fields").

(** Step 7: facetable fields. *)
Definition step7 (config : DatasetConfig.t) : M unit :=
  ConsoleHelper.writeInfo "Configuring facetable fields..." ;;
  facetsResult <- setFacetableFields (name config) (facetableFields config) ;;
  (if negb facetsResult then
     ConsoleHelper.writeError "Failed to set facetable fields" ;; return_
   else ret tt) ;;
  ConsoleHelper.writeSuccess
    ("Configured " ++ showNat (length (facetableFields config)) ++ " facetable fields").

(** Step 8: sortable fields. *)
Definition step8 (config : DatasetConfig.t) : M unit :=
  ConsoleHelper.writeInfo "Configuring sortable fields..." ;;
  sortres <- setSortableFields (name config) (sortableFields config) ;;
  (if negb sortres then
     ConsoleHelper.writeError "Failed to set sortable fields" ;; return_
   else ret tt) ;;
  ConsoleHelper.writeSuccess
    ("Configured " ++ showNat (length (sortableFields config)) ++ " sortable fields").

(** Step 9: word indexing fields. *)
Definition step9 (config : DatasetConfig.t) : M unit :=
  ConsoleHelper.writeInfo "Configuring word indexing fields..." ;;
  wordIndexRes <- setWordIndexingFields (name config) (wordIndexingFields config) ;;
  (if negb wordIndexRes then
     ConsoleHelper.writeError "Failed to set word indexing fields" ;; return_
   else ret tt) ;;
  ConsoleHelper.writeSuccess
    ("Configured " ++ showNat (length (wordIndexingFields config))
     ++ " word indexing fields") ;;
  forEach (wordIndexingFields config) (fun field =>
    ConsoleHelper.writeInfo ("  - " ++ field)) ;;
  console_log "".

(** Step 10: verify the field configuration. *)
Definition step10 (config : DatasetConfig.t) : M unit :=
  ConsoleHelper.writeInfo "Verifying field configuration..." ;;
  _ <- getSearchableFields (name config) ;;
  _ <- getSortableFields (name config) ;;
  _ <- getFacetableFields (name config) ;;
  _ <- getFilterableFields (name config) ;;
  _ <- getWordIndexingFields (name config) ;;
  ConsoleHelper.writeSuccess "Field configuration verified" ;;
  console_log "".

(** Create filters (lines 970-1004). *)
Definition createFilters (config : DatasetConfig.t) : M unit :=
  when (String.eqb (name config) "pokedex")
    (let filter :=
       JObj [("fieldName", JStr "speed");
             ("lowerLimit", JNum (21 # 2));
             ("upperLimit", num 50)] in
     filt1 <- createRangeFilter (name config) filter ;;
     let vf := JObj [("fieldName", JStr "speed"); ("value", num 50)] in
     filt2 <- createValueFilter (name config) vf ;;
     match filt1, filt2 with
     | Some filt1, Some filt2 =>
         let cf :=
           JObj [("a", FilterProxy.json filt1);
                 ("b", FilterProxy.json filt2);
                 ("useAndOperation", JBool true)] in
         combFilt <- combineFilters (name config) cf ;;
         match combFilt with
         | Some combFilt =>
             let bp := BoostProxy.json (BoostProxy.mk combFilt BoostStrength.High) in
             _ <- createBoost (name config) bp ;;
             ret tt
         | None => ret tt
         end
     | _, _ => ret tt
     end).

(** Step 11: load the data, monitor the loading, count the records.
    [numberOfRecords.toLocaleString()] on a null count is a TypeError. *)
Definition step11 (config : DatasetConfig.t) : M Z :=
  ConsoleHelper.writeHeader "Loading Data" ;;
  ConsoleHelper.writeInfo ("Streaming data from " ++ filePath config ++ "...") ;;
  result2 <- loadStreamAsync rt (name config) (filePath config) ;;
  (if negb result2 then
     ConsoleHelper.writeError "Failed to load data" ;; return_
   else ret tt) ;;
  _ <- getStatus (name config) ;;
  monitorLoading (name config) ;;
  console_log "" ;;
  ConsoleHelper.writeSuccess
    ("Data loaded in " ++ toFixed rt 1 (loadingDuration rt) ++ " seconds") ;;
  numberOfRecords <- getNumberOfJsonRecordsInDb (name config) ;;
  match numberOfRecords with
  | None => throw (nullRead rt "toLocaleString") None
  | Some numberOfRecords =>
      ConsoleHelper.writeInfo ("Total records: " ++ toLocaleString rt numberOfRecords) ;;
      console_log "" ;;
      ret numberOfRecords
  end.

(** Step 12: build the search index, monitor the indexing. *)
Definition step12 (config : DatasetConfig.t) : M unit :=
  ConsoleHelper.writeHeader "Building Search Index" ;;
  ConsoleHelper.writeInfo "Indexing dataset (this may take a moment)..." ;;
  success <- indexDataSet (name config) ;;
  (if negb success then
     ConsoleHelper.writeError "Failed to start indexing" ;; return_
   else ret tt) ;;
  monitorIndexing (name config) ;;
  console_log "" ;;
  ConsoleHelper.writeSuccess
    ("Index built in " ++ toFixed rt 1 (indexingDuration rt) ++ " seconds") ;;
  console_log "".

(** The loop over the records found (lines 1103-1112).  [rec[0]] on a null
    [rec] is a TypeError, raised after the three lines before it. *)
Fixpoint displayResults (config : DatasetConfig.t) (resultNum : nat)
    (records : list SearchRecord) : M unit :=
  match records with
  | [] => ret tt
  | item :: rest =>
      rec <- getJson (name config) [documentKey item] ;;
      console_log ("Result " ++ showNat resultNum ++ ":") ;;
      ConsoleHelper.writeInfo ("  Score: " ++ toFixed rt 2 (score item)) ;;
      ConsoleHelper.writeInfo ("  Document Key: " ++ showZ (documentKey item)) ;;
      match rec with
      | None => throw (nullRead rt "0") None
      | Some rec =>
          ConsoleHelper.writeInfo ("  Data: " ++ nth 0 rec "undefined") ;;
          console_log "" ;;
          displayResults config (S resultNum) rest
      end
  end.

(** Step 13: run the test search; the number of results. *)
Definition step13 (config : DatasetConfig.t) : M nat :=
  ConsoleHelper.writeHeader "Running Test Search" ;;
  ConsoleHelper.writeInfo ("Search query: " ++ quote ++ testQuery config ++ quote) ;;
  let query :=
    JObj [("text", JStr (testQuery config));
          ("maxNumberOfRecordsToReturn", num 5);
          ("sortBy", JStr (hd "" (sortableFields config)));
          ("enableFacets", JBool false);
          ("enableBoost", JBool false)] in
  res <- search query (name config) ;;
  match res with
  | Some {| records := Some (item :: rest) |} =>
      let records := item :: rest in
      let resultsCount := length records in
      ConsoleHelper.writeSuccess ("Found " ++ showNat resultsCount ++ " results") ;;
      console_log "" ;;
      displayResults config 1 records ;;
      ret resultsCount
  | _ => ConsoleHelper.writeError "Search returned no results" ;; return_
  end.

Definition loadDataset (datasetName : string) (config : option DatasetConfig.t) : M unit :=
  match config with
  | None =>
      ConsoleHelper.writeError ("Unknown dataset: " ++ datasetName) ;;
      ConsoleHelper.writeInfo ("Available datasets: " ++ join ", " ["tmdb"; "pokedex"]) ;;
      return_
  | Some config =>
      step0 config ;;
      step2 config ;;
      step3 config ;;
      step4 config ;;
      step5 config ;;
      step6 config ;;
      step7 config ;;
      step8 config ;;
      step9 config ;;
      step10 config ;;
      createFilters config ;;
      numberOfRecords <- step11 config ;;
      step12 config ;;
      resultsCount <- step13 config ;;
      ConsoleHelper.writeSummary "Dataset Load Complete"
        [("Dataset", name config);
         ("Total Records", toLocaleString rt numberOfRecords);
         ("Searchable Fields", showNat (length (searchableFields config)));
         ("Word Indexing Fields", showNat (length (wordIndexingFields config)));
         ("Filterable Fields", showNat (length (filterableFields config)));
         ("Facetable Fields", showNat (length (facetableFields config)));
         ("Sortable Fields", showNat (length (sortableFields config)));
         ("Loading Time", toFixed rt 1 (loadingDuration rt) ++ "s");
         ("Indexing Time", toFixed rt 1 (indexingDuration rt) ++ "s");
         ("Test Query Results", showNat resultsCount)] ;;
      ConsoleHelper.writeSuccess "Dataset is ready for use!" ;;
      console_log ""
  end.
End LoadDataset.

(** ** Authentication and the entry point *)

Definition setBearerToken (bearerToken uri : string) : M unit :=
  emit (Default "baseURL" uri) ;;
  emit (Default "Content-Type" "application/json") ;;
  emit (Default "Accept" "application/json") ;;
  emit (Default "Authorization" ("Bearer " ++ bearerToken)).

(** [`${error.response?.status}`] *)
Definition showStatus (response : option ErrorResponse.t) : string :=
  match response with
  | Some response => showZ (ErrorResponse.status response)
  | None => "undefined"
  end.

(** [`${JSON.stringify(error.response?.data)}`] *)
Definition showData (response : option ErrorResponse.t) : string :=
  match response with
  | Some response => ErrorResponse.json response
  | None => "undefined"
  end.

(** [login]: the error of the non-2xx branch is thrown inside the try
    statement and is not an Axios error, so the handler throws it on as it
    is; so it does with a rejection that is not an Axios error. *)
Definition login (userEmail userPassword uri : string) : M (option string) :=
  emit (Default "baseURL" uri) ;;
  emit (Default "Content-Type" "application/json") ;;
  emit (Default "Accept" "application/json") ;;
  let loginInfo := JObj [("UserEmail", JStr userEmail); ("UserPassWord", JStr userPassword)] in
  response <- client_post "api/login" (JsonBody loginInfo) [] ;;
  match response with
  | Threw e =>
      if Rejection.isAxiosError e then
        console_log ("Error: " ++ showStatus (Rejection.response e)) ;;
        console_log ("Response: " ++ showData (Rejection.response e)) ;;
        throw ("Login failed: " ++ Rejection.message e) None
      else throw (Rejection.message e) (Rejection.cause e)
  | Http status _ data =>
      if is2xx status then
        match asJWT data with
        | Some jwt =>
            if negb (String.eqb (token jwt) "") then
              emit (Default "Authorization" ("Bearer " ++ token jwt)) ;;
              ret (Some (token jwt))
            else ret None
        | None => ret None
        end
      else
        console_log ("Error: " ++ showZ status) ;;
        console_log ("Response: " ++ stringify data) ;;
        throw ("Login failed: " ++ stringify data) None
  end.

(** The command line and the environment of one run.  [menuAnswer] is what
    the interactive pick-list resolves to ([None]: the Exit entry). *)
Record Process := {
  optionDataset : option string;
  menuAnswer : option string;
  API_URI : option string;
  BEARER_TOKEN : option string;
  USER_EMAIL : option string;
  USER_PASSWORD : option string
}.

(** [process.env.X || fallback] *)
Definition orElse (v : option string) (fallback : string) : string :=
  match v with
  | Some s => if String.eqb s "" then fallback else s
  | None => fallback
  end.

Definition showInteractiveMenu (p : Process) : M (option string) :=
  ConsoleHelper.writeHeader "Dataset Selection" ;;
  console_log "" ;;
  ret (menuAnswer p).

(** Determine the dataset (lines 70-80 of [main]). *)
Definition selectDataset (p : Process) : M string :=
  if String.eqb (orElse (optionDataset p) "") "" then
    dataset <- showInteractiveMenu p ;;
    match dataset with
    | None => ConsoleHelper.writeWarning "No dataset selected. Exiting." ;; return_
    | Some dataset => ret dataset
    end
  else ret (orElse (optionDataset p) "").

(** The function [main] from its try statement on (lines 69-130), for the
    options that commander has returned; what comes before it in the
    function, the parsing of the command line, is in [entryPoint] below.
    The handler prints [error.cause] when there is one. *)
Definition main (rt : Runtime) (p : Process) : M unit :=
  let uri := orElse (API_URI p) "https://localhost:5001/" in
  let bearerToken := orElse (BEARER_TOKEN p) "" in
  let userEmail := orElse (USER_EMAIL p) "" in
  let userPassword := orElse (USER_PASSWORD p) "" in
  tryCatch
    (call
       (dataset <- selectDataset p ;;
        let config := getConfig dataset in
        match config with
        | None =>
            ConsoleHelper.writeError ("Unknown dataset: " ++ dataset) ;;
            ConsoleHelper.writeInfo
              ("Available datasets: " ++ join ", " getAvailableDatasets) ;;
            return_
        | Some _ => ret tt
        end ;;
        (if negb (String.eqb bearerToken "") then setBearerToken bearerToken uri
         else if negb (String.eqb userEmail "") && negb (String.eqb userPassword "") then
           ConsoleHelper.writeInfo "Authenticating with email and password..." ;;
           token <- login userEmail userPassword uri ;;
           match token with
           | None => ConsoleHelper.writeError "Login failed" ;; return_
           | Some _ => ConsoleHelper.writeSuccess "Authentication successful"
           end
         else
           ConsoleHelper.writeError "No authentication credentials provided" ;;
           ConsoleHelper.writeInfo
             "Please set BEARER_TOKEN or USER_EMAIL and USER_PASSWORD in .env.local" ;;
           return_) ;;
        call (loadDataset rt uri dataset config)))
    (fun message cause =>
       ConsoleHelper.writeError ("Fatal error: " ++ message) ;;
       match cause with
       | Some cause => ConsoleHelper.writeError ("  Inner exception: " ++ cause)
       | None => ret tt
       end ;;
       process_exit (-1)).

(** What [program.parse(process.argv)] (line 65) makes of the command
    line.  It returns, and [program.opts()] holds the options, which are
    those of the [Process]; or commander ends the process itself: without
    [exitOverride] it does so with the exit code 0 after it has shown the
    help or the version, and with the exit code 1 after a usage error (an
    unknown option, a missing argument).  What commander writes before that
    is not console output of the program and is not recorded. *)
Inductive CommandLine :=
| Parsed
| Help
| Version
| UsageError.

Definition parse (commandLine : CommandLine) : M unit :=
  match commandLine with
  | Parsed => ret tt
  | Help | Version => process_exit 0
  | UsageError => process_exit 1
  end.

(** The program: the whole of the function [main] (lines 52-131) as the
    last statement of the file runs it (lines 134-137).  The command line is
    parsed before the try statement, and what the function throws is handled
    by the entry point. *)
Definition entryPoint (rt : Runtime) (commandLine : CommandLine) (p : Process) : M unit :=
  tryCatch (parse commandLine ;; main rt p)
    (fun message _ =>
       ConsoleHelper.writeError ("Unhandled error: " ++ message) ;;
       process_exit (-1)).

(** ** Sample responses and a sample runtime, for running the model *)

Definition sampleStatus (s : SystemState.t) : SystemStatus :=
  Build_SystemStatus 0 None 0 s.

Definition sampleViews : Views :=
  {| theSystemStatus := sampleStatus SystemState.Created;
     theStrings := [];
     theFilterProxy := FilterProxy.mk "f" "speed";
     theBoostProxy := BoostProxy.mk (FilterProxy.mk "f" "speed") BoostStrength.High;
     theResult := Build_Result None false;
     theNumber := 0;
     theJWT := Build_JWT "";
     theText := "{}" |}.

Definition sampleBody : Body := Typed sampleViews.

Definition ok : Response := Http 200 "OK" sampleBody.

(** A 2xx answer whose body is the JSON value null. *)
Definition okNull : Response := Http 200 "OK" Null.

Definition okStatus (s : SystemState.t) : Response :=
  Http 200 "OK"
    (Typed
       {| theSystemStatus := sampleStatus s;
          theStrings := theStrings sampleViews;
          theFilterProxy := theFilterProxy sampleViews;
          theBoostProxy := theBoostProxy sampleViews;
          theResult := theResult sampleViews;
          theNumber := theNumber sampleViews;
          theJWT := theJWT sampleViews;
          theText := theText sampleViews |}).

Definition okFilter (f : FilterProxy.t) : Response :=
  Http 200 "OK"
    (Typed
       {| theSystemStatus := theSystemStatus sampleViews;
          theStrings := theStrings sampleViews;
          theFilterProxy := f;
          theBoostProxy := theBoostProxy sampleViews;
          theResult := theResult sampleViews;
          theNumber := theNumber sampleViews;
          theJWT := theJWT sampleViews;
          theText := theText sampleViews |}).

Definition okResult (records : list SearchRecord) : Response :=
  Http 200 "OK"
    (Typed
       {| theSystemStatus := theSystemStatus sampleViews;
          theStrings := theStrings sampleViews;
          theFilterProxy := theFilterProxy sampleViews;
          theBoostProxy := theBoostProxy sampleViews;
          theResult := Build_Result (Some records) false;
          theNumber := theNumber sampleViews;
          theJWT := theJWT sampleViews;
          theText := theText sampleViews |}).

Definition serverError : Response := Http 500 "Internal Server Error" Null.

Definition refused : Response :=
  Threw (Rejection.mk "connect ECONNREFUSED" None true None).

(** A runtime in which every file exists, is one byte long and reads as [x]. *)
Definition sampleRuntime : Runtime :=
  {| existsSync := fun _ => true;
     statSync := fun _ => Value 1%Z;
     readFileSync := fun _ => Value "x";
     resolve := fun p => "/work/" ++ p;
     toFixed := fun _ _ => "0";
     toLocaleString := showZ;
     nullRead := fun property =>
       "Cannot read properties of null (reading '" ++ property ++ "')";
     loadingDuration := 0;
     indexingDuration := 0 |}.

(** The same, with no file at all. *)
Definition emptyRuntime : Runtime :=
  {| existsSync := fun _ => false;
     statSync := fun _ => Raises "ENOENT";
     readFileSync := fun _ => Raises "ENOENT";
     resolve := fun p => "/work/" ++ p;
     toFixed := fun _ _ => "0";
     toLocaleString := showZ;
     nullRead := fun property =>
       "Cannot read properties of null (reading '" ++ property ++ "')";
     loadingDuration := 0;
     indexingDuration := 0 |}.

(** A run with the option [--dataset <name>] and a bearer token. *)
Definition sampleProcess (dataset : string) : Process :=
  {| optionDataset := Some dataset;
     menuAnswer := None;
     API_URI := None;
     BEARER_TOKEN := Some "t";
     USER_EMAIL := None;
     USER_PASSWORD := None |}.

(** The script of a run in which everything succeeds up to the first
    re-read, which the service refuses. *)
Definition rereadRefused : list Response :=
  [ok; ok; ok; ok; ok; ok; ok; ok; ok; serverError; ok; ok].

Definition start (script : list Response) : World := mkWorld script [].

Definition urls (tr : Trace) : list string := map url (requests tr).

(** ** Vocabulary of the properties *)

(** The state a status fetch shows; [None]: the fetch failed, or it was
    answered with a null body, which shows no state. *)
Definition observed (r : Response) : option SystemState.t :=
  match r with
  | Threw _ => None
  | Http status _ data =>
      if is2xx status then
        match asSystemStatus data with
        | Some status => Some (systemState status)
        | None => None
        end
      else None
  end.

(** The request was answered with a 2xx status and the body null. *)
Definition nullBody (r : Response) : bool :=
  match r with
  | Http status _ Null => is2xx status
  | _ => false
  end.

(** What a call that hands [response.data] on returns: the body read at the
    declared type when the status is 2xx, null otherwise. *)
Definition answer {A} (view : Body -> option A) (r : Response) : option A :=
  match r with
  | Threw _ => None
  | Http status _ data => if is2xx status then view data else None
  end.

(** A poll after which a monitor with test [proceedOn] goes round again. *)
Definition keeps (proceedOn : SystemState.t -> bool) (r : Response) : bool :=
  match observed r with
  | Some s => proceedOn s
  | None => false
  end.

(** The tests of the two monitors. *)
Definition isLoading (s : SystemState.t) : bool := SystemState.eqb s SystemState.Loading.
Definition notReady (s : SystemState.t) : bool := negb (SystemState.eqb s SystemState.Ready).

Definition isPrinted (e : Event) : bool :=
  match e with
  | Printed _ _ => true
  | _ => false
  end.

Definition isQuiet (e : Event) : bool :=
  match request_of e with
  | Some _ => false
  | None => true
  end.

Fixpoint startsWith (prefix s : string) : bool :=
  match prefix with
  | EmptyString => true
  | String a prefix' =>
      match s with
      | EmptyString => false
      | String b s' => Ascii.eqb a b && startsWith prefix' s'
      end
  end.

(** The phases of the workflow whose order the service depends on, each with
    the calls whose 2xx answers are its success signal. *)
Inductive Phase :=
| OpenPhase
| AnalyzePhase
| ConfigurePhase
| LoadPhase
| IndexPhase
| SearchPhase.

Definition signals (p : Phase) : list string :=
  match p with
  | OpenPhase => ["api/CreateOrOpen/"]
  | AnalyzePhase => ["api/AnalyzeString/"]
  | ConfigurePhase =>
      ["api/SetSearchableFields/"; "api/SetFilterableFields/"; "api/SetFacetableFields/";
       "api/SetSortableFields/"; "api/SetWordIndexingFields/"]
  | LoadPhase => ["api/LoadStream/"]
  | IndexPhase => ["api/IndexDataSet/"]
  | SearchPhase => ["api/Search/"]
  end.

Definition phases : list Phase :=
  [OpenPhase; AnalyzePhase; ConfigurePhase; LoadPhase; IndexPhase; SearchPhase].

Definition inPhase (rq : Request) (p : Phase) : bool :=
  existsb (fun u => startsWith u (url rq)) (signals p).

Definition phaseOf (rq : Request) : option Phase := find (inPhase rq) phases.

Definition previous (p : Phase) : option Phase :=
  match p with
  | OpenPhase => None
  | AnalyzePhase => Some OpenPhase
  | ConfigurePhase => Some AnalyzePhase
  | LoadPhase => Some ConfigurePhase
  | IndexPhase => Some LoadPhase
  | SearchPhase => Some IndexPhase
  end.

(** The call with URL prefix [u] was answered with a 2xx status in [tr]. *)
Definition answered (u : string) (tr : Trace) : Prop :=
  exists rq rs, In (Exchange rq rs) tr /\ startsWith u (url rq) = true /\ succeeds rs = true.

(** Phase [p] has returned its success signal in [tr]. *)
Definition completed (p : Phase) (tr : Trace) : Prop :=
  Forall (fun u => answered u tr) (signals p).

(** The verification re-reads of step 10. *)
Definition rereads : list string :=
  ["api/GetSearchableFields/"; "api/GetSortableFields/"; "api/GetFacetableFields/";
   "api/GetFilterableFields/"; "api/GetWordIndexingFields/"].

Definition isReread (rq : Request) : bool :=
  existsb (fun u => startsWith u (url rq)) rereads.

(** Shapes of a serialized searchable field. *)
Definition isPair (j : Json) : bool :=
  match j with
  | JArr [JStr _; JNum _] => true
  | _ => false
  end.

Definition isObject (j : Json) : bool :=
  match j with
  | JObj _ => true
  | _ => false
  end.

Definition items (p : Payload) : list Json :=
  match p with
  | JsonBody (JArr l) => l
  | _ => []
  end.

Definition printed (tr : Trace) : Trace := filter isPrinted tr.

(** A request to a URL that starts with [u] is among the events. *)
Definition sentTo (u : string) (evs : Trace) : bool :=
  existsb (fun rq => startsWith u (url rq)) (requests evs).

(** What was sent to the URLs that start with [u]. *)
Definition bodiesTo (u : string) (evs : Trace) : list Payload :=
  map payload (filter (fun rq => startsWith u (url rq)) (requests evs)).

(** The [i]-th response of the script is there and is a success. *)
Definition nthSucceeds (s : list Response) (i : nat) : bool :=
  match nth_error s i with
  | Some r => succeeds r
  | None => false
  end.

(** A call that hands [response.data] on returns a value that is not null. *)
Definition returned {A} (view : Body -> option A) (r : Response) : bool :=
  match answer view r with
  | Some _ => true
  | None => false
  end.

(** The [i]-th response of the script is there, and the call that takes it
    returns a value that is not null. *)
Definition nthReturns {A} (view : Body -> option A) (s : list Response) (i : nat) : bool :=
  match nth_error s i with
  | Some r => returned view r
  | None => false
  end.

(** The dataset name [main] goes on with: the option, or the menu's answer. *)
Definition selected (p : Process) : option string :=
  if String.eqb (orElse (optionDataset p) "") "" then menuAnswer p
  else Some (orElse (optionDataset p) "").

(** ** Behaviour of the API functions *)

(** [m] sends the request [rq] and nothing else; [result r] is what it
    returns on the response [r], [None] when it exits with code -1. *)
Definition sends {A} (m : M A) (rq : Request) (result : Response -> option A) : Prop :=
  forall s tr,
    match s with
    | [] => m (mkWorld [] tr) = Halt Awaiting (mkWorld [] (tr ++ [Sent rq])%list)
    | r :: rest =>
        exists logs, forallb isPrinted logs = true /\
          m (mkWorld (r :: rest) tr) =
            match result r with
            | Some a => Ok a (mkWorld rest (tr ++ Exchange rq r :: logs)%list)
            | None => Halt (Exited (-1)) (mkWorld rest (tr ++ Exchange rq r :: logs)%list)
            end
    end.

Definition put (u : string) (data : Payload) : Request := Build_Request PUT u data [].
Definition get (u : string) : Request := Build_Request GET u NoBody [].
Definition post (u : string) (data : Payload) : Request := Build_Request POST u data [].

(** The result of a getter that exits on failure. *)
Definition orExit {A} (view : Body -> A) (r : Response) : option A :=
  match r with
  | Threw _ => None
  | Http status _ data => if is2xx status then Some (view data) else None
  end.

(** The result of a call that returns null on failure. *)
Definition orNull {A} (view : Body -> option A) (r : Response) : option (option A) :=
  Some (answer view r).

(** The result of [getNumberOfJsonRecordsInDb]. *)
Definition orZero (r : Response) : option (option Z) :=
  match r with
  | Threw _ => Some (Some 0%Z)
  | Http status _ data => if is2xx status then Some (asNumber data) else Some (Some 0%Z)
  end.

(** ** Trace automata

    A property of the order of events is a partial transition function on
    events: [None] is a violation.  [tri k m Q]: started in state [k], the
    events [m] adds are accepted; when [m] returns [a] the state reached
    satisfies [Q a], and when it halts the state reached and the way it
    halted satisfy [E]. *)
Section Automaton.
Variable St : Type.
Variable step : St -> Event -> option St.
Variable E : St -> Stop -> Prop.

Fixpoint run (k : St) (evs : list Event) : option St :=
  match evs with
  | [] => Some k
  | e :: evs' =>
      match step k e with
      | Some k' => run k' evs'
      | None => None
      end
  end.

Definition tri {A} (k : St) (m : M A) (Q : A -> St -> Prop) : Prop :=
  forall w, exists evs k',
    trace (world_of (m w)) = (trace w ++ evs)%list /\
    run k evs = Some k' /\
    match m w with
    | Ok a _ => Q a k'
    | Halt s _ => E k' s
    end.
End Automaton.

(** The automaton of the phase order: the state is the list of the signal
    calls answered with a 2xx status so far; a request of a phase is allowed
    when every signal of the phase before it is in the list. *)
Definition knows (known : list string) (u : string) : bool :=
  existsb (String.eqb u) known.

Definition allowed (known : list string) (rq : Request) : bool :=
  match phaseOf rq with
  | Some p =>
      match previous p with
      | Some q => forallb (knows known) (signals q)
      | None => true
      end
  | None => true
  end.

Definition allSignals : list string := flat_map signals phases.

Definition gain (rq : Request) (rs : Response) : list string :=
  if succeeds rs then filter (fun u => startsWith u (url rq)) allSignals else [].

Definition phaseStep (known : list string) (e : Event) : option (list string) :=
  match e with
  | Exchange rq rs => if allowed known rq then Some (gain rq rs ++ known)%list else None
  | Sent rq => if allowed known rq then Some known else None
  | _ => Some known
  end.

Definition anyHalt (known : list string) (s : Stop) : Prop := True.

(** The signal calls answered when the five set calls have succeeded. *)
Definition configured : list string :=
  ["api/SetWordIndexingFields/"; "api/SetSortableFields/"; "api/SetFacetableFields/";
   "api/SetFilterableFields/"; "api/SetSearchableFields/"; "api/AnalyzeString/";
   "api/CreateOrOpen/"].

(** The automata of the fatal requests: [watch] tells the requests whose
    failure must end the run, the state tells whether one of them has failed;
    after that, any further request is a violation, and the run must halt in
    the way [stop]. *)
Definition watchStep (watch : Request -> bool) (failed : bool) (e : Event) : option bool :=
  match e with
  | Exchange rq rs => if failed then None else Some (watch rq && negb (succeeds rs))
  | Sent _ => if failed then None else Some false
  | _ => Some failed
  end.

Definition watchHalt (stop : Stop) (failed : bool) (s : Stop) : Prop :=
  failed = true -> s = stop.

Definition isOpen (rq : Request) : bool := inPhase rq OpenPhase.

(** ** The rest of the API layer *)

Definition client_delete (url : string) : M Response :=
  send (Build_Request DELETE url NoBody []).

Definition analyzeStreamAsync (dataSetName fileName : string) : M (option SystemStatus) :=
  response <- client_post (SEARCH_CONTROLLER_ROUTE ++ "/AnalyzeStreamAsync/" ++ dataSetName)
                (FileStream fileName) [("Content-Type", "text/plain")] ;;
  match response with
  | Threw e =>
      console_error ("AnalyzeStreamAsync error: " ++ Rejection.message e) ;; ret None
  | Http status _ data => if is2xx status then ret (asSystemStatus data) else ret None
  end.

Definition clearFields (dataSetName : string) (fields : list string) : M bool :=
  response <- client_put (SEARCH_CONTROLLER_ROUTE ++ "/ClearFieldSettings/" ++ dataSetName)
                (strings fields) [] ;;
  ret (succeeds response).

Definition deleteDataSet (route dataSetName : string) : M bool :=
  response <- client_delete (route ++ "/DeleteDataSet/" ++ dataSetName) ;;
  ret (succeeds response).

(** [documentKey] is an integer key of a size that a template literal
    prints in plain decimal (below 1e21). *)
Definition deleteDocument (dataSetName : string) (documentKey : Z) : M bool :=
  response <- client_delete
                (SEARCH_CONTROLLER_ROUTE ++ "/" ++ dataSetName ++ "/" ++ showZ documentKey) ;;
  ret (succeeds response).

Definition getUserDataSets : M (option (list string)) :=
  response <- client_get (SEARCH_CONTROLLER_ROUTE ++ "/GetUserDataSets") ;;
  stringsOrExit response "GetUserDataSets request failed, type any char to exit"
    "GetUserDataSets request failed".

Definition loadFromDatabaseAsync (dataSetName : string) : M bool :=
  response <- client_get (SEARCH_CONTROLLER_ROUTE ++ "/LoadFromDatabase/" ++ dataSetName) ;;
  ret (succeeds response).

Definition loadString (rt : Runtime) (dataSetName fileNameAndPath : string) : M bool :=
  match readFileSync rt fileNameAndPath with
  | Raises _ => ret false
  | Value fc =>
      response <- client_put (SEARCH_CONTROLLER_ROUTE ++ "/LoadString/" ++ dataSetName)
                    (TextBody fc) [("Content-Type", "text/plain")] ;;
      ret (succeeds response)
  end.

(** ** More trace automata *)

(** What the failure of a request must lead to. *)
Inductive Fate := Fine | MustReturn | MustExit.

(** The getters that end the process on a failure. *)
Definition exiting : list string :=
  ["api/GetStatus/"; "api/GetAllFields/"; "api/GetJson/"; "api/GetSearchableFields/";
   "api/GetSortableFields/"; "api/GetFacetableFields/"; "api/GetFilterableFields/";
   "api/GetWordIndexingFields/"].

Definition isExiting (rq : Request) : bool :=
  existsb (fun u => startsWith u (url rq)) exiting.

(** The calls of the six phases make [loadDataset] return when they fail,
    the getters end the process; the other calls (the filters, the record
    count) decide nothing. *)
Definition fate (rq : Request) : Fate :=
  match phaseOf rq with
  | Some _ => MustReturn
  | None => if isExiting rq then MustExit else Fine
  end.

(** The automaton of the failures: after a failure that decides the fate of
    the run, any further request is a violation. *)
Definition fateStep (st : Fate) (e : Event) : option Fate :=
  match e with
  | Exchange rq rs =>
      match st with
      | Fine => Some (if succeeds rs then Fine else fate rq)
      | _ => None
      end
  | Sent _ =>
      match st with
      | Fine => Some Fine
      | _ => None
      end
  | _ => Some st
  end.

Definition fateHalt (st : Fate) (s : Stop) : Prop :=
  match st with
  | Fine => True
  | MustReturn => s = Returned
  | MustExit => s = Exited (-1)
  end.

(** The calls that [loadDataset] makes once at most, in the order of the
    source. *)
Definition callOrder : list string :=
  ["api/CreateOrOpen/"; "api/AnalyzeString/"; "api/GetAllFields/";
   "api/SetSearchableFields/"; "api/SetFilterableFields/"; "api/SetFacetableFields/";
   "api/SetSortableFields/"; "api/SetWordIndexingFields/";
   "api/GetSearchableFields/"; "api/GetSortableFields/"; "api/GetFacetableFields/";
   "api/GetFilterableFields/"; "api/GetWordIndexingFields/";
   "api/CreateRangeFilter/"; "api/CreateValueFilter/"; "api/CombineFilters/";
   "api/CreateBoost/"; "api/LoadStream/"; "api/GetNumberOfJsonRecordsInDb/";
   "api/IndexDataSet/"; "api/Search/"].

Fixpoint position (u : string) (l : list string) (i : nat) : option nat :=
  match l with
  | [] => None
  | v :: rest => if startsWith v u then Some i else position u rest (S i)
  end.

(** The place of a request in [callOrder], from 1; [None] for the status
    polls and the document fetches, which are repeated. *)
Definition rank (rq : Request) : option nat := position (url rq) callOrder 1.

(** The automaton of the call order: the state is the rank of the last
    ranked request; a ranked request must have a greater rank. *)
Definition rankStep (k : nat) (e : Event) : option nat :=
  match request_of e with
  | Some rq =>
      match rank rq with
      | Some r => if (k <? r)%nat then Some r else None
      | None => Some k
      end
  | None => Some k
  end.

Definition anyStop (k : nat) (s : Stop) : Prop := True.

Definition Method_eqb (a b : Method) : bool :=
  match a, b with
  | GET, GET | POST, POST | PUT, PUT | DELETE, DELETE => true
  | _, _ => false
  end.

(** The calls of [loadDataset]: method and URL up to the dataset name. *)
Definition surface : list (Method * string) :=
  [(PUT, "api/CreateOrOpen/"); (POST, "api/AnalyzeString/"); (GET, "api/GetStatus/");
   (GET, "api/GetAllFields/"); (PUT, "api/SetSearchableFields/");
   (PUT, "api/SetFilterableFields/"); (PUT, "api/SetFacetableFields/");
   (PUT, "api/SetSortableFields/"); (PUT, "api/SetWordIndexingFields/");
   (GET, "api/GetSearchableFields/"); (GET, "api/GetSortableFields/");
   (GET, "api/GetFacetableFields/"); (GET, "api/GetFilterableFields/");
   (GET, "api/GetWordIndexingFields/"); (PUT, "api/CreateRangeFilter/");
   (PUT, "api/CreateValueFilter/"); (PUT, "api/CombineFilters/"); (PUT, "api/CreateBoost/");
   (PUT, "api/LoadStream/"); (GET, "api/GetNumberOfJsonRecordsInDb/");
   (GET, "api/IndexDataSet/"); (POST, "api/Search/"); (POST, "api/GetJson/")].

Definition onSurface (dataSetName : string) (rq : Request) : bool :=
  existsb (fun me => Method_eqb (method rq) (fst me)
                     && String.eqb (url rq) (snd me ++ dataSetName))
    surface.

(** The automaton of the surface: a request off the surface is a violation. *)
Definition surfaceStep (dataSetName : string) (k : unit) (e : Event) : option unit :=
  match request_of e with
  | Some rq => if onSurface dataSetName rq then Some tt else None
  | None => Some tt
  end.

(** The properties [loadDataset] reads of a value that is null when the
    body of the response was: [list.length] of the field list (line 898),
    [numberOfRecords.toLocaleString] (line 1045) and [rec[0]] (line 1109). *)
Definition nullReads : list string := ["length"; "toLocaleString"; "0"].

(** The ways [loadDataset] halts: by returning, by ending the process with
    code -1, waiting for a response, or with an exception, which is the one
    of [statSync] or the TypeError of one of the [nullReads]. *)
Definition loaderHalt (rt : Runtime) (config : option DatasetConfig.t) (k : unit) (s : Stop)
  : Prop :=
  s = Returned \/ s = Exited (-1) \/ s = Awaiting \/
  exists cfg message,
    config = Some cfg /\ s = Thrown message None /\
    (statSync rt (DatasetConfig.filePath cfg) = Raises message \/
     exists property, In property nullReads /\ message = nullRead rt property).

Definition isSearch (rq : Request) : bool := startsWith "api/Search/" (url rq).
Definition isGetStatus (rq : Request) : bool := startsWith "api/GetStatus/" (url rq).

(** An answer to a status poll that ends the wait for the index: a success
    that shows Ready, or a success with a null body. *)
Definition endsWait (rs : Response) : bool :=
  match observed rs with
  | Some s => SystemState.eqb s SystemState.Ready
  | None => nullBody rs
  end.

(** The automaton of readiness: the state tells whether the last request was
    a status poll whose answer ends the wait; the search request is a
    violation in any other state. *)
Definition readyStep (ready : bool) (e : Event) : option bool :=
  match e with
  | Exchange rq rs =>
      if isSearch rq then (if ready then Some false else None)
      else Some (isGetStatus rq && endsWait rs)
  | Sent rq =>
      if isSearch rq then (if ready then Some false else None) else Some false
  | _ => Some ready
  end.

Definition anyEnd (ready : bool) (s : Stop) : Prop := True.

(** The script of a run in which everything succeeds, for the descriptor
    [pokedex]: the status shows Ready at the first poll of the indexing, and
    the test search finds one record. *)
Definition allFine : list Response :=
  repeat ok 23 ++
  [okStatus SystemState.Ready; okResult [Build_SearchRecord 7 (Qmake 1 2)]; ok].

(** The same script with the poll of the indexing answered 200 with the
    body null. *)
Definition nullPoll : list Response :=
  repeat ok 23 ++ [okNull; okResult [Build_SearchRecord 7 (Qmake 1 2)]; ok].

(** The ways a computation may halt: [stops m P] when every halt of [m] is
    one that [P] allows. *)
Definition stops {A} (m : M A) (P : Stop -> Prop) : Prop :=
  forall w s, stop_of (m w) = Some s -> P s.

(** How [main] may leave its [try] block, and how it may end. *)
Definition leaves (s : Stop) : Prop :=
  match s with
  | Exited code => code = (-1)%Z
  | _ => True
  end.

Definition ends (s : Stop) : Prop := s = Exited (-1) \/ s = Awaiting.

(** The lines of the handler of [main]. *)
Definition fatal (message : string) (cause : option string) : Trace :=
  Printed error ("Fatal error: " ++ message) ::
  match cause with
  | Some cause => [Printed error ("  Inner exception: " ++ cause)]
  | None => []
  end.

(** What [main] makes of the run of its [try] block: an early return ends
    it normally, an exception ends the process with the exit code -1 after
    the lines of the handler. *)
Definition outcome (r : Res unit) : Res unit :=
  match r with
  | Halt Returned w => Ok tt w
  | Halt (Thrown message cause) w =>
      Halt (Exited (-1)) (mkWorld (script w) (trace w ++ fatal message cause)%list)
  | r => r
  end.

(** The token a response to the login request grants, if any. *)
Definition granted (r : Response) : option string :=
  match r with
  | Threw _ => None
  | Http status _ data =>
      if is2xx status then
        match asJWT data with
        | Some jwt => if String.eqb (token jwt) "" then None else Some (token jwt)
        | None => None
        end
      else None
  end.

(** The login request. *)
Definition credentials (userEmail userPassword : string) : Request :=
  post "api/login"
    (JsonBody (JObj [("UserEmail", JStr userEmail); ("UserPassWord", JStr userPassword)])).

(** A run with the option [--dataset <name>], an email and a password. *)
Definition loginProcess (dataset : string) : Process :=
  {| optionDataset := Some dataset;
     menuAnswer := None;
     API_URI := None;
     BEARER_TOKEN := None;
     USER_EMAIL := Some "me@example.org";
     USER_PASSWORD := Some "secret" |}.

Definition okToken (t : string) : Response :=
  Http 200 "OK"
    (Typed
       {| theSystemStatus := theSystemStatus sampleViews;
          theStrings := theStrings sampleViews;
          theFilterProxy := theFilterProxy sampleViews;
          theBoostProxy := theBoostProxy sampleViews;
          theResult := theResult sampleViews;
          theNumber := theNumber sampleViews;
          theJWT := Build_JWT t;
          theText := theText sampleViews |}).

(** What a run prints after the answer [r] to the login when it grants no
    token.  After a 2xx answer, the line of [main].  After any other answer,
    the two lines [login] writes and the lines of the handler of [main] for
    the error [login] throws; a rejection that is not an Axios error is
    thrown on as it is, and [login] writes nothing. *)
Definition loginLines (r : Response) : Trace :=
  match r with
  | Threw e =>
      if Rejection.isAxiosError e then
        [Printed log ("Error: " ++ showStatus (Rejection.response e));
         Printed log ("Response: " ++ showData (Rejection.response e))] ++
        fatal ("Login failed: " ++ Rejection.message e) None
      else fatal (Rejection.message e) (Rejection.cause e)
  | Http status _ data =>
      if is2xx status then [Printed error "Login failed"]
      else
        [Printed log ("Error: " ++ showZ status);
         Printed log ("Response: " ++ stringify data)] ++
        fatal ("Login failed: " ++ stringify data) None
  end%list.

(** A rejection that is not an Axios error and has a cause. *)
Definition brokenPipe : Response :=
  Threw (Rejection.mk "write EPIPE" (Some "Error: socket closed") false None).

(** ** The contract of the API layer on a failure *)

(** [m] takes one response and returns whether its status is a success. *)
Definition reportsStatus (m : M bool) : Prop :=
  forall r rest tr, exists rq logs,
    forallb isPrinted logs = true /\
    m (mkWorld (r :: rest) tr) =
      Ok (succeeds r) (mkWorld rest (tr ++ Exchange rq r :: logs)%list).

(** [m] takes one response and returns [answer view] of it: the body of a
    2xx response as it is, null when the body is null, and null after a
    failure. *)
Definition returnsBody {A} (view : Body -> option A) (m : M (option A)) : Prop :=
  forall r rest tr, exists rq logs,
    forallb isPrinted logs = true /\
    m (mkWorld (r :: rest) tr) =
      Ok (answer view r) (mkWorld rest (tr ++ Exchange rq r :: logs)%list).

(** [m] takes one response; on a 2xx status it returns the body as it is,
    read at the declared type, and on a failure it ends the process with the
    exit code -1. *)
Definition exitsOnFailure {A} (view : Body -> A) (m : M A) : Prop :=
  forall r rest tr, exists rq logs,
    forallb isPrinted logs = true /\
    m (mkWorld (r :: rest) tr) =
      match r with
      | Http status _ data =>
          if is2xx status then
            Ok (view data) (mkWorld rest (tr ++ Exchange rq r :: logs)%list)
          else Halt (Exited (-1)) (mkWorld rest (tr ++ Exchange rq r :: logs)%list)
      | Threw _ => Halt (Exited (-1)) (mkWorld rest (tr ++ Exchange rq r :: logs)%list)
      end.

(** The calls that return a boolean and read no file. *)
Definition booleanCalls (route dataSetName : string) (fields : list string)
    (searchable : list SearchableField.t) (documentKey : Z) : list (M bool) :=
  [createOrOpenDataSet route dataSetName; clearFields dataSetName fields;
   deleteDataSet route dataSetName; deleteDocument dataSetName documentKey;
   indexDataSet dataSetName; loadFromDatabaseAsync dataSetName;
   setSearchableFields dataSetName searchable; setFilterableFields dataSetName fields;
   setFacetableFields dataSetName fields; setSortableFields dataSetName fields;
   setWordIndexingFields dataSetName fields].

(** The getters of lists of strings. *)
Definition listGetters (dataSetName : string) (keys : list Z)
  : list (M (option (list string))) :=
  [getAllFields dataSetName; getSearchableFields dataSetName; getSortableFields dataSetName;
   getFacetableFields dataSetName; getFilterableFields dataSetName;
   getWordIndexingFields dataSetName; getJson dataSetName keys; getUserDataSets].

(** ** What the calls carry *)

(** The body and the headers of the calls whose content the descriptor
    fixes, by the route of the call: the text of the data file for the
    analysis, the field lists for the five set calls, the data file as a
    stream with its size for the load, and the test query for the search. *)
Definition configuredBody (rt : Runtime) (config : DatasetConfig.t) (u : string)
  : option (Payload * list (string * string)) :=
  if startsWith "api/AnalyzeString/" u then
    match readFileSync rt (DatasetConfig.filePath config) with
    | Value content => Some (TextBody content, [("Content-Type", "text/plain")])
    | Raises _ => None
    end
  else if startsWith "api/SetSearchableFields/" u then
    Some (JsonBody (tuples (DatasetConfig.searchableFields config)), [])
  else if startsWith "api/SetFilterableFields/" u then
    Some (strings (DatasetConfig.filterableFields config), [])
  else if startsWith "api/SetFacetableFields/" u then
    Some (strings (DatasetConfig.facetableFields config), [])
  else if startsWith "api/SetSortableFields/" u then
    Some (strings (DatasetConfig.sortableFields config), [])
  else if startsWith "api/SetWordIndexingFields/" u then
    Some (strings (DatasetConfig.wordIndexingFields config), [])
  else if startsWith "api/LoadStream/" u then
    match statSync rt (DatasetConfig.filePath config) with
    | Value size =>
        Some (FileStream (DatasetConfig.filePath config),
              [("Content-Type", "text/plain"); ("Content-Length", showZ size)])
    | Raises _ => None
    end
  else if startsWith "api/Search/" u then
    Some (JsonBody
            (JObj [("text", JStr (DatasetConfig.testQuery config));
                   ("maxNumberOfRecordsToReturn", num 5);
                   ("sortBy", JStr (hd "" (DatasetConfig.sortableFields config)));
                   ("enableFacets", JBool false);
                   ("enableBoost", JBool false)]), [])
  else None.

Definition isFilterCall (rq : Request) : bool :=
  existsb (fun u => startsWith u (url rq))
    ["api/CreateRangeFilter/"; "api/CreateValueFilter/"; "api/CombineFilters/";
     "api/CreateBoost/"].

(** A request is proper for a descriptor when it carries what the descriptor
    fixes for its route, and is a filter or boost call only for pokedex. *)
Definition proper (rt : Runtime) (config : DatasetConfig.t) (rq : Request) : Prop :=
  (forall b, configuredBody rt config (url rq) = Some b -> (payload rq, headers rq) = b) /\
  (isFilterCall rq = true -> DatasetConfig.name config = "pokedex").

(** The automaton of the proper requests: its state is the proposition that
    the requests so far are proper. *)
Definition properStep (rt : Runtime) (config : DatasetConfig.t) (k : Prop) (e : Event)
  : option Prop :=
  match request_of e with
  | Some rq => Some (k /\ proper rt config rq)
  | None => Some k
  end.

Definition holds (k : Prop) (s : Stop) : Prop := k.

(** ** The cadence of the monitors *)

(** The events of a trace other than console output. *)
Definition silent (tr : Trace) : Trace := filter (fun e => negb (isPrinted e)) tr.

(** What a monitor does for the polls that were answered with a success:
    the poll, then a sleep of 100 ms. *)
Definition turns (dataSetName : string) (polls : list Response) : Trace :=
  flat_map (fun r => [Exchange (getStatus_request dataSetName) r; Sleep 100]) polls.

(** ** The monad: basic facts *)

#[local] Open Scope list_scope.

Lemma app_cons_assoc {A} (l : list A) (x : A) (l' : list A) :
  ((l ++ [x]) ++ l' = l ++ x :: l')%list.
Proof. now rewrite <- app_assoc. Qed.

Ltac flat := repeat rewrite app_cons_assoc; repeat rewrite <- app_assoc; cbn [app].

Ltac sends_tac :=
  intros s tr; destruct s as [|r rest]; [reflexivity|];
  destruct r as [e|status statusText data];
  [|destruct (is2xx status) eqn:E2xx];
  eexists;
  (split;
   [|cbn; repeat match goal with H : is2xx _ = _ |- _ => rewrite H end; cbn; flat;
     reflexivity]);
  reflexivity.

Lemma createOrOpenDataSet_sends route n :
  sends (createOrOpenDataSet route n) (put (route ++ "/CreateOrOpen/" ++ n) (TextBody ""))
    (fun r => Some (succeeds r)).
Proof. sends_tac. Qed.

Lemma combineFilters_sends n j :
  sends (combineFilters n j) (put ("api/CombineFilters/" ++ n) (JsonBody j))
    (orNull asFilterProxy).
Proof. sends_tac. Qed.

Lemma createBoost_sends n j :
  sends (createBoost n j) (put ("api/CreateBoost/" ++ n) (JsonBody j)) (orNull asBoostProxy).
Proof. sends_tac. Qed.

Lemma createRangeFilter_sends n j :
  sends (createRangeFilter n j) (put ("api/CreateRangeFilter/" ++ n) (JsonBody j))
    (orNull asFilterProxy).
Proof. sends_tac. Qed.

Lemma createValueFilter_sends n j :
  sends (createValueFilter n j) (put ("api/CreateValueFilter/" ++ n) (JsonBody j))
    (orNull asFilterProxy).
Proof. sends_tac. Qed.

Lemma getAllFields_sends n :
  sends (getAllFields n) (get ("api/GetAllFields/" ++ n)) (orExit asStrings).
Proof. sends_tac. Qed.

Lemma getFacetableFields_sends n :
  sends (getFacetableFields n) (get ("api/GetFacetableFields/" ++ n)) (orExit asStrings).
Proof. sends_tac. Qed.

Lemma getFilterableFields_sends n :
  sends (getFilterableFields n) (get ("api/GetFilterableFields/" ++ n)) (orExit asStrings).
Proof. sends_tac. Qed.

Lemma getSearchableFields_sends n :
  sends (getSearchableFields n) (get ("api/GetSearchableFields/" ++ n)) (orExit asStrings).
Proof. sends_tac. Qed.

Lemma getJson_sends n ks :
  sends (getJson n ks) (post ("api/GetJson/" ++ n) (JsonBody (JArr (map num ks))))
    (orExit asStrings).
Proof. sends_tac. Qed.

Lemma getSortableFields_sends n :
  sends (getSortableFields n) (get ("api/GetSortableFields/" ++ n)) (orExit asStrings).
Proof. sends_tac. Qed.

Lemma getWordIndexingFields_sends n :
  sends (getWordIndexingFields n) (get ("api/GetWordIndexingFields/" ++ n)) (orExit asStrings).
Proof. sends_tac. Qed.

Lemma getNumberOfJsonRecordsInDb_sends n :
  sends (getNumberOfJsonRecordsInDb n) (get ("api/GetNumberOfJsonRecordsInDb/" ++ n)) orZero.
Proof. sends_tac. Qed.

Lemma getStatus_sends n :
  sends (getStatus n) (getStatus_request n) (orExit asSystemStatus).
Proof. sends_tac. Qed.

Lemma indexDataSet_sends n :
  sends (indexDataSet n) (get ("api/IndexDataSet/" ++ n)) (fun r => Some (succeeds r)).
Proof. sends_tac. Qed.

Lemma search_sends q n :
  sends (search q n) (post ("api/Search/" ++ n) (JsonBody q)) (orNull asResult).
Proof. sends_tac. Qed.

Lemma setFacetableFields_sends n l :
  sends (setFacetableFields n l) (put ("api/SetFacetableFields/" ++ n) (strings l))
    (fun r => Some (succeeds r)).
Proof. sends_tac. Qed.

Lemma setFilterableFields_sends n l :
  sends (setFilterableFields n l) (put ("api/SetFilterableFields/" ++ n) (strings l))
    (fun r => Some (succeeds r)).
Proof. sends_tac. Qed.

Lemma setSearchableFields_sends n l :
  sends (setSearchableFields n l)
    (put ("api/SetSearchableFields/" ++ n) (JsonBody (tuples l)))
    (fun r => Some (succeeds r)).
Proof. sends_tac. Qed.

Lemma setSortableFields_sends n l :
  sends (setSortableFields n l) (put ("api/SetSortableFields/" ++ n) (strings l))
    (fun r => Some (succeeds r)).
Proof. sends_tac. Qed.

Lemma setWordIndexingFields_sends n l :
  sends (setWordIndexingFields n l) (put ("api/SetWordIndexingFields/" ++ n) (strings l))
    (fun r => Some (succeeds r)).
Proof. sends_tac. Qed.

(** ** Trace automata: the rules *)

Section AutomatonRules.
Variable St : Type.
Variable step : St -> Event -> option St.
Variable E : St -> Stop -> Prop.
Hypothesis quiet_step : forall k e, isQuiet e = true -> step k e = Some k.

Lemma run_app k a b :
  run St step k (a ++ b) =
    match run St step k a with
    | Some k' => run St step k' b
    | None => None
    end.
Proof.
  revert k; induction a as [|e a IH]; intros k; cbn; [reflexivity|].
  destruct (step k e); [apply IH | reflexivity].
Qed.

Lemma run_printed k logs :
  forallb isPrinted logs = true -> run St step k logs = Some k.
Proof.
  induction logs as [|e logs IH]; cbn; [reflexivity|].
  intros H; apply andb_prop in H as [He Hl].
  rewrite quiet_step; [auto | now destruct e].
Qed.

Lemma tri_ret {A} k (a : A) (Q : A -> St -> Prop) :
  Q a k -> tri St step E k (ret a) Q.
Proof.
  intros H w; exists [], k; cbn; rewrite app_nil_r; auto.
Qed.

Lemma tri_halt {A} k s (Q : A -> St -> Prop) :
  E k s -> tri St step E k (halt s) Q.
Proof.
  intros H w; exists [], k; cbn; rewrite app_nil_r; auto.
Qed.

Lemma tri_emit k e (Q : unit -> St -> Prop) :
  isQuiet e = true -> Q tt k -> tri St step E k (emit e) Q.
Proof.
  intros He H w; exists [e], k; cbn; rewrite quiet_step by exact He; auto.
Qed.

Lemma tri_bind {A B} k (m : M A) (g : A -> M B) Q R :
  tri St step E k m Q ->
  (forall a k', Q a k' -> tri St step E k' (g a) R) ->
  tri St step E k (bind m g) R.
Proof.
  intros Hm Hg w; unfold bind.
  destruct (Hm w) as (evs & k1 & Htr & Hrun & Hres).
  destruct (m w) as [a w1|s w1]; cbn in Htr.
  - destruct (Hg a k1 Hres w1) as (evs2 & k2 & Htr2 & Hrun2 & Hres2).
    exists (evs ++ evs2)%list, k2; repeat split.
    + now rewrite Htr2, Htr, app_assoc.
    + now rewrite run_app, Hrun.
    + exact Hres2.
  - exists evs, k1; auto.
Qed.

Lemma tri_post {A} k (m : M A) (Q Q' : A -> St -> Prop) :
  tri St step E k m Q -> (forall a k', Q a k' -> Q' a k') -> tri St step E k m Q'.
Proof.
  intros Hm HQ w; destruct (Hm w) as (evs & k1 & Htr & Hrun & Hres).
  exists evs, k1; repeat split; auto.
  destruct (m w); auto.
Qed.

Lemma tri_tryCatch {A} k (body : M A) handler Q :
  tri St step E k body Q ->
  (forall message cause k',
     E k' (Thrown message cause) -> tri St step E k' (handler message cause) Q) ->
  tri St step E k (tryCatch body handler) Q.
Proof.
  intros Hb Hh w; unfold tryCatch.
  destruct (Hb w) as (evs & k1 & Htr & Hrun & Hres).
  destruct (body w) as [a w1|s w1]; [exists evs, k1; auto|].
  destruct s; try (exists evs, k1; now auto).
  cbn in Htr.
  destruct (Hh message cause k1 Hres w1) as (evs2 & k2 & Htr2 & Hrun2 & Hres2).
  exists (evs ++ evs2)%list, k2; repeat split.
  - now rewrite Htr2, Htr, app_assoc.
  - now rewrite run_app, Hrun.
  - exact Hres2.
Qed.

(** A computation that sends one request. *)
Lemma tri_sends {A} k (m : M A) rq result (Q : A -> St -> Prop) :
  sends m rq result ->
  (exists k0, step k (Sent rq) = Some k0 /\ E k0 Awaiting) ->
  (forall r, exists k1, step k (Exchange rq r) = Some k1 /\
     match result r with
     | Some a => Q a k1
     | None => E k1 (Exited (-1))
     end) ->
  tri St step E k m Q.
Proof.
  intros Hs (k0 & Hk0 & HE0) Hr [s tr]; specialize (Hs s tr).
  destruct s as [|r rest].
  - rewrite Hs; exists [Sent rq], k0; cbn; rewrite Hk0; auto.
  - destruct Hs as (logs & Hlogs & Hs); rewrite Hs.
    destruct (Hr r) as (k1 & Hk1 & Hres).
    exists (Exchange rq r :: logs), k1; cbn [run]; rewrite Hk1, run_printed by exact Hlogs.
    destruct (result r); cbn; auto.
Qed.

Lemma tri_forEach {A} k (l : list A) (f : A -> M unit) :
  (forall x, tri St step E k (f x) (fun _ k' => k' = k)) ->
  tri St step E k (forEach l f) (fun _ k' => k' = k).
Proof.
  intros Hf; induction l as [|x l IH]; cbn [forEach].
  - now apply tri_ret.
  - eapply tri_bind; [apply Hf|]; intros _ k' ->; exact IH.
Qed.

Ltac accept :=
  repeat (cbn [run];
          first [ rewrite quiet_step by reflexivity
                | match goal with H : forall r, _ = Some _ |- _ => rewrite H end
                | match goal with H : step _ (Sent _) = Some _ |- _ => rewrite H end ]);
  auto.

(** The monitors: every turn sends the status request. *)
Lemma monitor_accepted k label proceedOn n :
  (forall r, step k (Exchange (getStatus_request n) r) = Some k) ->
  step k (Sent (getStatus_request n)) = Some k ->
  E k Awaiting -> E k (Exited (-1)) ->
  forall polls dotCount tr, exists evs,
    trace (world_of (monitor label proceedOn n dotCount polls tr)) = (tr ++ evs)%list /\
    run St step k evs = Some k /\
    match monitor label proceedOn n dotCount polls tr with
    | Ok _ _ => True
    | Halt s _ => E k s
    end.
Proof.
  intros Hx Hs HA HX; induction polls as [|r polls IH]; intros dotCount tr.
  - eexists; cbn; flat; split; [reflexivity|]. accept.
  - cbn [monitor].
    destruct r as [e|status statusText data];
      [|destruct (is2xx status) eqn:E2xx]; cbn; rewrite ?E2xx; cbn.
    + eexists; flat; split; [reflexivity|]. accept.
    + match goal with
      | |- context [if ?c then _ else _] => destruct c
      end.
      * match goal with
        | |- context [monitor _ _ _ ?d _ ?t] => destruct (IH d t) as (evs & Htr & Hrun & Hres)
        end.
        rewrite Htr.
        eexists; split; [flat; reflexivity|]. accept.
      * eexists; flat; split; [reflexivity|]. accept.
    + eexists; flat; split; [reflexivity|]. accept.
Qed.

Lemma tri_monitorLoading k n :
  (forall r, step k (Exchange (getStatus_request n) r) = Some k) ->
  step k (Sent (getStatus_request n)) = Some k ->
  E k Awaiting -> E k (Exited (-1)) ->
  tri St step E k (monitorLoading n) (fun _ k' => k' = k).
Proof.
  intros Hx Hs HA HX w; unfold monitorLoading.
  destruct (monitor_accepted k "Loading data"
              (fun s => SystemState.eqb s SystemState.Loading) n Hx Hs HA HX
              (script w) 0 (trace w)) as (evs & Htr & Hrun & Hres).
  exists evs, k; repeat split; auto.
  destruct (monitor _ _ _ _ _ _); auto.
Qed.

Lemma tri_monitorIndexing k n :
  (forall r, step k (Exchange (getStatus_request n) r) = Some k) ->
  step k (Sent (getStatus_request n)) = Some k ->
  E k Awaiting -> E k (Exited (-1)) ->
  tri St step E k (monitorIndexing n) (fun _ k' => k' = k).
Proof.
  intros Hx Hs HA HX w; unfold monitorIndexing.
  destruct (monitor_accepted k "Indexing"
              (fun s => negb (SystemState.eqb s SystemState.Ready)) n Hx Hs HA HX
              (script w) 0 (trace w)) as (evs & Htr & Hrun & Hres).
  exists evs, k; repeat split; auto.
  destruct (monitor _ _ _ _ _ _); auto.
Qed.
End AutomatonRules.

Section DerivedRules.
Variable St : Type.
Variable step : St -> Event -> option St.
Variable E : St -> Stop -> Prop.
Hypothesis quiet_step : forall k e, isQuiet e = true -> step k e = Some k.

Lemma tri_assoc {A B C} k (m : M A) (g : A -> M B) (h : B -> M C) R :
  tri St step E k (bind m (fun a => bind (g a) h)) R ->
  tri St step E k (bind (bind m g) h) R.
Proof.
  intros H w; specialize (H w); unfold bind in *.
  destruct (m w); exact H.
Qed.

Lemma tri_ret_bind {A B} k (a : A) (g : A -> M B) R :
  tri St step E k (g a) R -> tri St step E k (bind (ret a) g) R.
Proof. intros H w; exact (H w). Qed.

Lemma tri_emit_bind {B} k e (g : unit -> M B) R :
  isQuiet e = true ->
  tri St step E k (g tt) R ->
  tri St step E k (bind (emit e) g) R.
Proof.
  intros He Hg; eapply tri_bind.
  - apply (tri_emit St step E quiet_step k e (fun _ k' => k' = k) He eq_refl).
  - intros [] k' ->; exact Hg.
Qed.

Lemma tri_halt_bind {A B} k s (g : A -> M B) R :
  E k s -> tri St step E k (bind (halt s) g) R.
Proof.
  intros H w; exists [], k; cbn; rewrite app_nil_r; auto.
Qed.

Lemma tri_sends_bind {A B} k (m : M A) rq result (g : A -> M B) R :
  sends m rq result ->
  (exists k0, step k (Sent rq) = Some k0 /\ E k0 Awaiting) ->
  (forall r, exists k1, step k (Exchange rq r) = Some k1 /\
     match result r with
     | Some a => tri St step E k1 (g a) R
     | None => E k1 (Exited (-1))
     end) ->
  tri St step E k (bind m g) R.
Proof.
  intros Hs H0 Hr; eapply tri_bind.
  - apply (tri_sends St step E quiet_step k m rq result
             (fun a k1 => tri St step E k1 (g a) R) Hs H0 Hr).
  - intros a k' H; exact H.
Qed.

Lemma tri_quiet_bind {A B} k (m : M A) (g : A -> M B) R :
  tri St step E k m (fun _ k' => k' = k) ->
  (forall a, tri St step E k (g a) R) ->
  tri St step E k (bind m g) R.
Proof.
  intros Hm Hg; eapply tri_bind; [exact Hm|]; intros a k' ->; apply Hg.
Qed.
End DerivedRules.

Lemma send_sends rq : sends (send rq) rq (fun r => Some r).
Proof.
  intros s tr; destruct s as [|r rest]; [reflexivity|].
  exists []; split; reflexivity.
Qed.

Lemma analyze_sends rt n f content :
  readFileSync rt f = Value content ->
  sends (analyze rt n f)
    (Build_Request POST ("api/AnalyzeString/" ++ n) (TextBody content)
       [("Content-Type", "text/plain")])
    (orNull asSystemStatus).
Proof. intros H; unfold analyze; rewrite H; sends_tac. Qed.

Lemma loadStreamAsync_sends rt n f size :
  statSync rt f = Value size ->
  sends (loadStreamAsync rt n f)
    (Build_Request PUT ("api/LoadStream/" ++ n) (FileStream f)
       [("Content-Type", "text/plain"); ("Content-Length", showZ size)])
    (fun r => Some (succeeds r)).
Proof. intros H; unfold loadStreamAsync; rewrite H; sends_tac. Qed.

(** ** The phase order of [loadDataset] *)

Lemma phaseStep_quiet k e : isQuiet e = true -> phaseStep k e = Some k.
Proof. now destruct e. Qed.

Abbreviation ptri := (tri (list string) phaseStep anyHalt).

Ltac unfold_console :=
  unfold ConsoleHelper.writeSummary, ConsoleHelper.writeHeader, ConsoleHelper.writeSuccess,
    ConsoleHelper.writeInfo, ConsoleHelper.writeWarning, ConsoleHelper.writeError,
    ConsoleHelper.writeProgress, console_log, console_error, sleep, return_, throw,
    process_exit, when.

Ltac sends_lemma :=
  first
    [ apply createOrOpenDataSet_sends | apply combineFilters_sends | apply createBoost_sends
    | apply createRangeFilter_sends | apply createValueFilter_sends | apply getAllFields_sends
    | apply getFacetableFields_sends | apply getFilterableFields_sends
    | apply getSearchableFields_sends | apply getJson_sends | apply getSortableFields_sends
    | apply getWordIndexingFields_sends | apply getNumberOfJsonRecordsInDb_sends
    | apply getStatus_sends | apply indexDataSet_sends | apply search_sends
    | apply setFacetableFields_sends | apply setFilterableFields_sends
    | apply setSearchableFields_sends | apply setSortableFields_sends
    | apply setWordIndexingFields_sends
    | (eapply analyze_sends; eassumption) | (eapply loadStreamAsync_sends; eassumption) ].

Ltac split_response r :=
  let st := fresh "status" in
  destruct r as [?e|st ?statusText ?data];
  [|let E := fresh "E2xx" in destruct (is2xx st) eqn:E].

(** One step of a walk through a computation.  [Hq] is the automaton's
    lemma on quiet events, [halts] proves what the automaton asks of a halt,
    [steps] reduces one transition on a request. *)
Ltac tstep Hq halts steps :=
  lazymatch goal with
  | |- tri _ _ _ _ (bind (bind _ _) _) _ => apply tri_assoc
  | |- tri _ _ _ _ (bind (ret _) _) _ => apply tri_ret_bind
  | |- tri _ _ _ _ (bind (emit _) _) _ =>
      apply (tri_emit_bind _ _ _ Hq); [reflexivity|]
  | |- tri _ _ _ _ (bind (halt _) _) _ => apply tri_halt_bind; halts
  | |- tri _ _ _ _ (halt _) _ => apply tri_halt; halts
  | |- tri _ _ _ _ (emit _) _ =>
      apply (tri_emit _ _ _ Hq); [reflexivity|]
  | |- tri _ _ _ _ (ret _) _ => apply tri_ret
  | |- tri _ _ _ _ (bind (forEach _ _) _) _ =>
      apply (tri_quiet_bind _ _ _);
      [ apply (tri_forEach _ _ _); intros ?;
        apply (tri_emit _ _ _ Hq); reflexivity
      | intros _ ]
  | |- tri _ _ _ _ (bind (monitorLoading _) _) _ =>
      apply (tri_quiet_bind _ _ _);
      [ apply (tri_monitorLoading _ _ _ Hq);
        [ let r := fresh "r" in
          intros r; split_response r; steps;
          repeat match goal with H : is2xx _ = _ |- _ => rewrite H end;
          cbn; reflexivity
        | reflexivity | halts | halts ]
      | intros _ ]
  | |- tri _ _ _ _ (bind (monitorIndexing _) _) _ =>
      apply (tri_quiet_bind _ _ _);
      [ apply (tri_monitorIndexing _ _ _ Hq);
        [ let r := fresh "r" in
          intros r; split_response r; steps;
          repeat match goal with H : is2xx _ = _ |- _ => rewrite H end;
          cbn; reflexivity
        | reflexivity | halts | halts ]
      | intros _ ]
  | |- tri _ _ _ _ (bind (if ?c then _ else _) _) _ =>
      let H := fresh "Hc" in destruct c eqn:H; try (cbn in H; discriminate H)
  | |- tri _ _ _ _ (bind (match ?c with _ => _ end) _) _ =>
      let H := fresh "Hc" in destruct c eqn:H; try (cbn in H; discriminate H)
  | |- tri _ _ _ _ (if ?c then _ else _) _ =>
      let H := fresh "Hc" in destruct c eqn:H; try (cbn in H; discriminate H)
  | |- tri _ _ _ _ (match ?c with _ => _ end) _ =>
      let H := fresh "Hc" in destruct c eqn:H; try (cbn in H; discriminate H)
  | |- tri _ _ _ _ (bind _ _) _ =>
      eapply (tri_sends_bind _ _ _ Hq);
      [ sends_lemma
      | eexists; split; [reflexivity | halts]
      | let r := fresh "r" in
        intros r; split_response r; eexists;
        (split;
         [ steps;
           repeat match goal with H : is2xx _ = _ |- _ => rewrite H end;
           cbn; reflexivity
         | cbn -[Nat.modulo displayResults];
           repeat match goal with H : is2xx _ = _ |- _ => rewrite H end;
           cbn -[Nat.modulo displayResults]; try halts ]) ]
  end.

Ltac pstep :=
  tstep phaseStep_quiet ltac:(exact I) ltac:(unfold phaseStep, gain, succeeds).

Lemma step0_phase rt cfg k :
  ptri k (step0 rt cfg) (fun _ k' => k' = k).
Proof.
  unfold step0; unfold_console; repeat pstep; reflexivity.
Qed.

Lemma step2_phase uri cfg :
  ptri [] (step2 uri cfg) (fun _ k' => k' = ["api/CreateOrOpen/"]).
Proof.
  unfold step2; unfold_console.
  pstep. apply (tri_tryCatch _ _ _).
  - repeat pstep. reflexivity.
  - intros message cause k' _; repeat pstep.
Qed.

Lemma step3_phase rt cfg :
  ptri ["api/CreateOrOpen/"] (step3 rt cfg)
    (fun _ k' => k' = ["api/AnalyzeString/"; "api/CreateOrOpen/"]).
Proof.
  unfold step3; unfold_console.
  destruct (readFileSync rt (DatasetConfig.filePath cfg)) as [content|message] eqn:Hread.
  - repeat pstep; reflexivity.
  - unfold analyze; rewrite Hread; unfold_console; repeat pstep.
Qed.

Lemma step4_phase rt cfg k :
  ptri k (step4 rt cfg) (fun _ k' => k' = k).
Proof.
  unfold step4; unfold_console; repeat pstep; reflexivity.
Qed.

Lemma step5_phase cfg :
  ptri ["api/AnalyzeString/"; "api/CreateOrOpen/"] (step5 cfg)
    (fun _ k' => k' = ["api/SetSearchableFields/"; "api/AnalyzeString/"; "api/CreateOrOpen/"]).
Proof.
  unfold step5; unfold_console; repeat pstep.
  eapply tri_post.
  - apply (tri_forEach _ _ _); intros; apply (tri_emit _ _ _ phaseStep_quiet); reflexivity.
  - auto.
Qed.

Lemma step6_phase cfg :
  ptri ["api/SetSearchableFields/"; "api/AnalyzeString/"; "api/CreateOrOpen/"] (step6 cfg)
    (fun _ k' =>
       k' = ["api/SetFilterableFields/"; "api/SetSearchableFields/"; "api/AnalyzeString/";
             "api/CreateOrOpen/"]).
Proof.
  unfold step6; unfold_console; repeat pstep; reflexivity.
Qed.

Lemma step7_phase cfg :
  ptri ["api/SetFilterableFields/"; "api/SetSearchableFields/"; "api/AnalyzeString/";
        "api/CreateOrOpen/"] (step7 cfg)
    (fun _ k' =>
       k' = ["api/SetFacetableFields/"; "api/SetFilterableFields/";
             "api/SetSearchableFields/"; "api/AnalyzeString/"; "api/CreateOrOpen/"]).
Proof.
  unfold step7; unfold_console; repeat pstep; reflexivity.
Qed.

Lemma step8_phase cfg :
  ptri ["api/SetFacetableFields/"; "api/SetFilterableFields/"; "api/SetSearchableFields/";
        "api/AnalyzeString/"; "api/CreateOrOpen/"] (step8 cfg)
    (fun _ k' =>
       k' = ["api/SetSortableFields/"; "api/SetFacetableFields/"; "api/SetFilterableFields/";
             "api/SetSearchableFields/"; "api/AnalyzeString/"; "api/CreateOrOpen/"]).
Proof.
  unfold step8; unfold_console; repeat pstep; reflexivity.
Qed.

Lemma step9_phase cfg :
  ptri ["api/SetSortableFields/"; "api/SetFacetableFields/"; "api/SetFilterableFields/";
        "api/SetSearchableFields/"; "api/AnalyzeString/"; "api/CreateOrOpen/"] (step9 cfg)
    (fun _ k' => k' = configured).
Proof.
  unfold step9; unfold_console; repeat pstep; reflexivity.
Qed.

Lemma step10_phase cfg k :
  ptri k (step10 cfg) (fun _ k' => k' = k).
Proof.
  unfold step10; unfold_console; repeat pstep; reflexivity.
Qed.

Lemma createFilters_phase cfg k :
  ptri k (createFilters cfg) (fun _ k' => k' = k).
Proof.
  unfold createFilters; unfold_console; repeat pstep; reflexivity.
Qed.

Lemma step11_phase rt cfg :
  ptri configured (step11 rt cfg) (fun _ k' => k' = "api/LoadStream/" :: configured).
Proof.
  unfold step11; unfold_console.
  destruct (statSync rt (DatasetConfig.filePath cfg)) as [size|message] eqn:Hstat.
  - repeat pstep; reflexivity.
  - unfold loadStreamAsync; rewrite Hstat; unfold_console; repeat pstep.
Qed.

Lemma step12_phase rt cfg :
  ptri ("api/LoadStream/" :: configured) (step12 rt cfg)
    (fun _ k' => k' = "api/IndexDataSet/" :: "api/LoadStream/" :: configured).
Proof.
  unfold step12; unfold_console; repeat pstep; reflexivity.
Qed.

Lemma displayResults_phase rt cfg k records :
  forall resultNum, ptri k (displayResults rt cfg resultNum records) (fun _ k' => k' = k).
Proof.
  induction records as [|item rest IH]; intros resultNum; cbn [displayResults].
  - now apply tri_ret.
  - unfold_console; repeat pstep; apply IH.
Qed.

Lemma step13_phase rt cfg :
  ptri ("api/IndexDataSet/" :: "api/LoadStream/" :: configured) (step13 rt cfg)
    (fun _ _ => True).
Proof.
  unfold step13; unfold_console; repeat pstep.
  apply (tri_quiet_bind _ _ _); [apply displayResults_phase|].
  intros _; repeat pstep; exact I.
Qed.

Lemma loadDataset_phase rt uri n config :
  ptri [] (loadDataset rt uri n config) (fun _ _ => True).
Proof.
  destruct config as [cfg|]; cbn [loadDataset].
  - eapply tri_bind; [apply step0_phase|]; intros _ ? ->.
    eapply tri_bind; [apply step2_phase|]; intros _ ? ->.
    eapply tri_bind; [apply step3_phase|]; intros _ ? ->.
    eapply tri_bind; [apply step4_phase|]; intros _ ? ->.
    eapply tri_bind; [apply step5_phase|]; intros _ ? ->.
    eapply tri_bind; [apply step6_phase|]; intros _ ? ->.
    eapply tri_bind; [apply step7_phase|]; intros _ ? ->.
    eapply tri_bind; [apply step8_phase|]; intros _ ? ->.
    eapply tri_bind; [apply step9_phase|]; intros _ ? ->.
    eapply tri_bind; [apply step10_phase|]; intros _ ? ->.
    eapply tri_bind; [apply createFilters_phase|]; intros _ ? ->.
    eapply tri_bind; [apply step11_phase|]; intros numberOfRecords ? ->.
    eapply tri_bind; [apply step12_phase|]; intros _ ? ->.
    eapply tri_bind; [apply step13_phase|]; intros resultsCount ? _.
    unfold_console; cbn [forEach]; repeat pstep; exact I.
  - unfold_console; repeat pstep.
Qed.

(** ** The fatal requests of [loadDataset] *)

Lemma watchStep_quiet watch k e : isQuiet e = true -> watchStep watch k e = Some k.
Proof. now destruct e. Qed.

Ltac whalts :=
  first [ exact I | (intros Hfailed; first [discriminate Hfailed | reflexivity]) ].

(** The verification re-reads: a failure ends the process with code -1. *)

Abbreviation rtri := (tri bool (watchStep isReread) (watchHalt (Exited (-1)))).

Ltac rstep :=
  tstep (watchStep_quiet isReread) ltac:(whalts)
    ltac:(unfold watchStep, isReread, succeeds; cbn).

Lemma displayResults_reread rt cfg records :
  forall resultNum,
    rtri false (displayResults rt cfg resultNum records) (fun _ k' => k' = false).
Proof.
  induction records as [|item rest IH]; intros resultNum; cbn [displayResults].
  - now apply tri_ret.
  - unfold_console; repeat rstep; apply IH.
Qed.

Ltac rwalk := unfold_console; cbn [forEach]; repeat rstep; try reflexivity.

Lemma step0_reread rt cfg : rtri false (step0 rt cfg) (fun _ k' => k' = false).
Proof. unfold step0; rwalk. Qed.

Lemma step2_reread uri cfg : rtri false (step2 uri cfg) (fun _ k' => k' = false).
Proof.
  unfold step2; unfold_console.
  rstep. apply (tri_tryCatch _ _ _).
  - rwalk.
  - intros message cause [|] Hk; [now specialize (Hk eq_refl)|]; rwalk.
Qed.

Lemma step3_reread rt cfg : rtri false (step3 rt cfg) (fun _ k' => k' = false).
Proof.
  unfold step3; unfold_console.
  destruct (readFileSync rt (DatasetConfig.filePath cfg)) as [content|message] eqn:Hread.
  - rwalk.
  - unfold analyze; rewrite Hread; rwalk.
Qed.

Lemma step4_reread rt cfg : rtri false (step4 rt cfg) (fun _ k' => k' = false).
Proof. unfold step4; rwalk. Qed.

Lemma step5_reread cfg : rtri false (step5 cfg) (fun _ k' => k' = false).
Proof.
  unfold step5; unfold_console; repeat rstep.
  apply (tri_forEach _ _ _); intros; apply (tri_emit _ _ _ (watchStep_quiet isReread)); reflexivity.
Qed.

Lemma step6_reread cfg : rtri false (step6 cfg) (fun _ k' => k' = false).
Proof. unfold step6; rwalk. Qed.

Lemma step7_reread cfg : rtri false (step7 cfg) (fun _ k' => k' = false).
Proof. unfold step7; rwalk. Qed.

Lemma step8_reread cfg : rtri false (step8 cfg) (fun _ k' => k' = false).
Proof. unfold step8; rwalk. Qed.

Lemma step9_reread cfg : rtri false (step9 cfg) (fun _ k' => k' = false).
Proof. unfold step9; rwalk. Qed.

Lemma step10_reread cfg : rtri false (step10 cfg) (fun _ k' => k' = false).
Proof. unfold step10; rwalk. Qed.

Lemma createFilters_reread cfg : rtri false (createFilters cfg) (fun _ k' => k' = false).
Proof. unfold createFilters; rwalk. Qed.

Lemma step11_reread rt cfg : rtri false (step11 rt cfg) (fun _ k' => k' = false).
Proof.
  unfold step11; unfold_console.
  destruct (statSync rt (DatasetConfig.filePath cfg)) as [size|message] eqn:Hstat.
  - rwalk.
  - unfold loadStreamAsync; rewrite Hstat; rwalk.
Qed.

Lemma step12_reread rt cfg : rtri false (step12 rt cfg) (fun _ k' => k' = false).
Proof. unfold step12; rwalk. Qed.

Lemma step13_reread rt cfg : rtri false (step13 rt cfg) (fun _ k' => k' = false).
Proof.
  unfold step13; unfold_console; repeat rstep.
  apply (tri_quiet_bind _ _ _); [apply displayResults_reread|].
  intros _; rwalk.
Qed.

Lemma loadDataset_reread rt uri n config :
  rtri false (loadDataset rt uri n config) (fun _ k' => k' = false).
Proof.
  destruct config as [cfg|]; cbn [loadDataset].
  - eapply tri_bind; [apply step0_reread|]; intros _ ? ->.
    eapply tri_bind; [apply step2_reread|]; intros _ ? ->.
    eapply tri_bind; [apply step3_reread|]; intros _ ? ->.
    eapply tri_bind; [apply step4_reread|]; intros _ ? ->.
    eapply tri_bind; [apply step5_reread|]; intros _ ? ->.
    eapply tri_bind; [apply step6_reread|]; intros _ ? ->.
    eapply tri_bind; [apply step7_reread|]; intros _ ? ->.
    eapply tri_bind; [apply step8_reread|]; intros _ ? ->.
    eapply tri_bind; [apply step9_reread|]; intros _ ? ->.
    eapply tri_bind; [apply step10_reread|]; intros _ ? ->.
    eapply tri_bind; [apply createFilters_reread|]; intros _ ? ->.
    eapply tri_bind; [apply step11_reread|]; intros numberOfRecords ? ->.
    eapply tri_bind; [apply step12_reread|]; intros _ ? ->.
    eapply tri_bind; [apply step13_reread|]; intros resultsCount ? ->.
    rwalk.
  - rwalk.
Qed.

(** The Open request: a failure makes [loadDataset] return. *)

Abbreviation otri := (tri bool (watchStep isOpen) (watchHalt Returned)).

Ltac ostep :=
  tstep (watchStep_quiet isOpen) ltac:(whalts)
    ltac:(unfold watchStep, isOpen, inPhase, succeeds; cbn).

Lemma displayResults_open rt cfg records :
  forall resultNum,
    otri false (displayResults rt cfg resultNum records) (fun _ k' => k' = false).
Proof.
  induction records as [|item rest IH]; intros resultNum; cbn [displayResults].
  - now apply tri_ret.
  - unfold_console; repeat ostep; apply IH.
Qed.

Ltac owalk := unfold_console; cbn [forEach]; repeat ostep; try reflexivity.

Lemma step0_open rt cfg : otri false (step0 rt cfg) (fun _ k' => k' = false).
Proof. unfold step0; owalk. Qed.

Lemma step2_open uri cfg : otri false (step2 uri cfg) (fun _ k' => k' = false).
Proof.
  unfold step2; unfold_console.
  ostep. apply (tri_tryCatch _ _ _).
  - owalk.
  - intros message cause [|] Hk; [now specialize (Hk eq_refl)|]; owalk.
Qed.

Lemma step3_open rt cfg : otri false (step3 rt cfg) (fun _ k' => k' = false).
Proof.
  unfold step3; unfold_console.
  destruct (readFileSync rt (DatasetConfig.filePath cfg)) as [content|message] eqn:Hread.
  - owalk.
  - unfold analyze; rewrite Hread; owalk.
Qed.

Lemma step4_open rt cfg : otri false (step4 rt cfg) (fun _ k' => k' = false).
Proof. unfold step4; owalk. Qed.

Lemma step5_open cfg : otri false (step5 cfg) (fun _ k' => k' = false).
Proof.
  unfold step5; unfold_console; repeat ostep.
  apply (tri_forEach _ _ _); intros; apply (tri_emit _ _ _ (watchStep_quiet isOpen)); reflexivity.
Qed.

Lemma step6_open cfg : otri false (step6 cfg) (fun _ k' => k' = false).
Proof. unfold step6; owalk. Qed.

Lemma step7_open cfg : otri false (step7 cfg) (fun _ k' => k' = false).
Proof. unfold step7; owalk. Qed.

Lemma step8_open cfg : otri false (step8 cfg) (fun _ k' => k' = false).
Proof. unfold step8; owalk. Qed.

Lemma step9_open cfg : otri false (step9 cfg) (fun _ k' => k' = false).
Proof. unfold step9; owalk. Qed.

Lemma step10_open cfg : otri false (step10 cfg) (fun _ k' => k' = false).
Proof. unfold step10; owalk. Qed.

Lemma createFilters_open cfg : otri false (createFilters cfg) (fun _ k' => k' = false).
Proof. unfold createFilters; owalk. Qed.

Lemma step11_open rt cfg : otri false (step11 rt cfg) (fun _ k' => k' = false).
Proof.
  unfold step11; unfold_console.
  destruct (statSync rt (DatasetConfig.filePath cfg)) as [size|message] eqn:Hstat.
  - owalk.
  - unfold loadStreamAsync; rewrite Hstat; owalk.
Qed.

Lemma step12_open rt cfg : otri false (step12 rt cfg) (fun _ k' => k' = false).
Proof. unfold step12; owalk. Qed.

Lemma step13_open rt cfg : otri false (step13 rt cfg) (fun _ k' => k' = false).
Proof.
  unfold step13; unfold_console; repeat ostep.
  apply (tri_quiet_bind _ _ _); [apply displayResults_open|].
  intros _; owalk.
Qed.

Lemma loadDataset_open rt uri n config :
  otri false (loadDataset rt uri n config) (fun _ k' => k' = false).
Proof.
  destruct config as [cfg|]; cbn [loadDataset].
  - eapply tri_bind; [apply step0_open|]; intros _ ? ->.
    eapply tri_bind; [apply step2_open|]; intros _ ? ->.
    eapply tri_bind; [apply step3_open|]; intros _ ? ->.
    eapply tri_bind; [apply step4_open|]; intros _ ? ->.
    eapply tri_bind; [apply step5_open|]; intros _ ? ->.
    eapply tri_bind; [apply step6_open|]; intros _ ? ->.
    eapply tri_bind; [apply step7_open|]; intros _ ? ->.
    eapply tri_bind; [apply step8_open|]; intros _ ? ->.
    eapply tri_bind; [apply step9_open|]; intros _ ? ->.
    eapply tri_bind; [apply step10_open|]; intros _ ? ->.
    eapply tri_bind; [apply createFilters_open|]; intros _ ? ->.
    eapply tri_bind; [apply step11_open|]; intros numberOfRecords ? ->.
    eapply tri_bind; [apply step12_open|]; intros _ ? ->.
    eapply tri_bind; [apply step13_open|]; intros resultsCount ? ->.
    owalk.
  - owalk.
Qed.

(** ** What the automata mean *)

Lemma answered_app_l u tr evs : answered u tr -> answered u (tr ++ evs).
Proof.
  intros (rq & rs & Hin & Hu & Hs); exists rq, rs; repeat split; auto.
  apply in_or_app; now left.
Qed.

Lemma knows_In known u : knows known u = true -> In u known.
Proof.
  unfold knows; rewrite existsb_exists; intros (v & Hv & Heq).
  apply String.eqb_eq in Heq; now subst.
Qed.

Lemma gain_answered rq rs u tr :
  In u (gain rq rs) -> answered u (tr ++ [Exchange rq rs]).
Proof.
  unfold gain; destruct (succeeds rs) eqn:Hs; [|intros []].
  rewrite filter_In; intros [_ Hu].
  exists rq, rs; repeat split; auto.
  apply in_or_app; right; now left.
Qed.

(** A trace the phase automaton accepts is in phase order. *)
Lemma phaseStep_sound evs :
  forall known seen k',
    (forall u, In u known -> answered u seen) ->
    run (list string) phaseStep known evs = Some k' ->
    forall pre ev post rq p q,
      evs = (pre ++ ev :: post)%list ->
      request_of ev = Some rq -> phaseOf rq = Some p -> previous p = Some q ->
      completed q (seen ++ pre).
Proof.
  induction evs as [|e evs IH]; intros known seen k' Hknown Hrun pre ev post rq p q Hsplit Hrq Hp Hq.
  - now destruct pre.
  - cbn [run] in Hrun.
    destruct (phaseStep known e) as [k1|] eqn:Hstep; [|discriminate].
    destruct pre as [|e' pre]; cbn in Hsplit; injection Hsplit as He ->; subst e.
    + rewrite app_nil_r.
      assert (Hallowed : allowed known rq = true).
      { destruct ev; cbn in Hrq; try discriminate; injection Hrq as ->;
          cbn in Hstep; now destruct (allowed known rq). }
      unfold allowed in Hallowed; rewrite Hp, Hq in Hallowed.
      apply Forall_forall; intros u Hu.
      rewrite forallb_forall in Hallowed.
      apply Hknown, knows_In, Hallowed, Hu.
    + replace (seen ++ e' :: pre)%list with ((seen ++ [e']) ++ pre)%list
        by now rewrite <- app_assoc.
      eapply (IH k1 (seen ++ [e'])%list k'); eauto.
      intros u Hu.
      destruct e'; cbn in Hstep.
      * injection Hstep as <-; now apply answered_app_l, Hknown.
      * destruct (allowed known rq0); [|discriminate]; injection Hstep as <-.
        apply in_app_or in Hu as [Hu|Hu];
          [now apply gain_answered | now apply answered_app_l, Hknown].
      * destruct (allowed known rq0); [|discriminate]; injection Hstep as <-.
        now apply answered_app_l, Hknown.
      * injection Hstep as <-; now apply answered_app_l, Hknown.
      * injection Hstep as <-; now apply answered_app_l, Hknown.
Qed.

Lemma requests_app a b : requests (a ++ b) = (requests a ++ requests b)%list.
Proof.
  induction a as [|e a IH]; cbn; [reflexivity|].
  destruct (request_of e); cbn; now rewrite IH.
Qed.

Lemma requests_printed logs : forallb isPrinted logs = true -> requests logs = [].
Proof.
  induction logs as [|e logs IH]; cbn; [reflexivity|].
  intros H; apply andb_prop in H as [He Hl].
  destruct e; try discriminate; cbn; auto.
Qed.

(** What a computation that sends one request adds to the requests. *)
Lemma sends_requests {A} (m : M A) rq result w :
  sends m rq result ->
  requests (trace (world_of (m w))) = requests (trace w) ++ [rq].
Proof.
  intros H; destruct w as [s tr]; specialize (H s tr); destruct s as [|r rest].
  - rewrite H; cbn; rewrite requests_app; reflexivity.
  - destruct H as (logs & Hlogs & ->).
    destruct (result r); cbn; rewrite requests_app; cbn;
      now rewrite (requests_printed logs Hlogs).
Qed.

(** After a failure that is fatal a watch automaton accepts quiet events
    only, and ends in the failed state. *)
Lemma watchStep_failed watch post :
  forall k', run bool (watchStep watch) true post = Some k' -> requests post = [] /\ k' = true.
Proof.
  induction post as [|e post IH]; intros k' Hrun; cbn in Hrun.
  - injection Hrun as <-; auto.
  - destruct e; cbn in Hrun; try discriminate; cbn; auto.
Qed.

Lemma watchStep_sound watch pre :
  forall k rq rs post k',
    run bool (watchStep watch) k (pre ++ Exchange rq rs :: post) = Some k' ->
    watch rq = true -> succeeds rs = false ->
    requests post = [] /\ k' = true.
Proof.
  induction pre as [|e pre IH]; intros k rq rs post k' Hrun Hrq Hrs;
    cbn [run app watchStep] in Hrun.
  - destruct k; [discriminate|].
    rewrite Hrq, Hrs in Hrun; cbn [negb andb] in Hrun.
    now apply watchStep_failed in Hrun.
  - destruct (watchStep watch k e) as [k1|] eqn:Hstep; [|discriminate].
    eapply IH; eauto.
Qed.

Lemma bind_halt {A B} (m : M A) (g : A -> M B) w s w' :
  m w = Halt s w' -> bind m g w = Halt s w'.
Proof. unfold bind; now intros ->. Qed.

Lemma bind_ok {A B} (m : M A) (g : A -> M B) w a w' :
  m w = Ok a w' -> bind m g w = g a w'.
Proof. unfold bind; now intros ->. Qed.

(** ** The order of the phases *)

(** C4. In every run of [loadDataset], a request of a phase (Analyze,
    Configure, Load, Index, Search) is sent only after the phase before it
    has returned its success signal: every call of that phase answered with a
    2xx status earlier in the trace.  And when the Open request is answered
    with a failure, [loadDataset] returns and no request follows. *)
Theorem phase_order (rt : Runtime) (uri n : string) (config : option DatasetConfig.t)
    (responses : list Response) :
  let res := loadDataset rt uri n config (start responses) in
  (forall pre ev post rq p q,
      trace (world_of res) = pre ++ ev :: post ->
      request_of ev = Some rq -> phaseOf rq = Some p -> previous p = Some q ->
      completed q pre)
  /\
  (forall pre rq rs post,
      trace (world_of res) = pre ++ Exchange rq rs :: post ->
      phaseOf rq = Some OpenPhase -> succeeds rs = false ->
      stop_of res = Some Returned /\ requests post = []).
Proof.
  cbv zeta; split.
  - intros pre ev post rq p q Hsplit Hrq Hp Hq.
    destruct (loadDataset_phase rt uri n config (start responses))
      as (evs & k' & Htr & Hrun & _).
    cbn in Htr; rewrite Htr in Hsplit.
    apply (phaseStep_sound evs [] [] k' (fun u H => match H with end) Hrun
             pre ev post rq p q Hsplit Hrq Hp Hq).
  - intros pre rq rs post Hsplit Hrq Hrs.
    assert (Hopen : isOpen rq = true).
    { unfold phaseOf, phases in Hrq; cbn [find] in Hrq; unfold isOpen.
      destruct (inPhase rq OpenPhase); [reflexivity|].
      repeat match type of Hrq with
             | (if ?c then _ else _) = _ => destruct c; [discriminate|]
             end.
      discriminate. }
    destruct (loadDataset_open rt uri n config (start responses))
      as (evs & k' & Htr & Hrun & Hres).
    cbn in Htr; rewrite Htr in Hsplit; subst evs.
    destruct (watchStep_sound isOpen pre false rq rs post k' Hrun Hopen Hrs) as [Hpost ->].
    split; [|exact Hpost].
    destruct (loadDataset rt uri n config (start responses)) as [a w|s w]; cbn.
    + discriminate Hres.
    + now rewrite (Hres eq_refl).
Qed.

(** The run in which Open succeeds and Analyze is refused, and the run in
    which Open is refused. *)
Lemma phase_order_witness :
  completed OpenPhase
    (firstn 8 (trace (world_of
       (loadDataset sampleRuntime "u" "tmdb" (Some tmdb) (start [ok; serverError])))))
  /\
  (stop_of (loadDataset sampleRuntime "u" "tmdb" (Some tmdb) (start [serverError; ok]))
     = Some Returned
   /\ requests
        (skipn 6 (trace (world_of
           (loadDataset sampleRuntime "u" "tmdb" (Some tmdb) (start [serverError; ok])))))
      = []).
Proof.
  split.
  - apply (proj1 (phase_order sampleRuntime "u" "tmdb" (Some tmdb) [ok; serverError])
             _
             (Exchange
                (Build_Request POST "api/AnalyzeString/tmdb" (TextBody "x")
                   [("Content-Type", "text/plain")])
                serverError)
             [Printed error "Failed to analyze data file"]
             (Build_Request POST "api/AnalyzeString/tmdb" (TextBody "x")
                [("Content-Type", "text/plain")])
             AnalyzePhase OpenPhase);
      reflexivity.
  - apply (proj2 (phase_order sampleRuntime "u" "tmdb" (Some tmdb) [serverError; ok])
             (firstn 5 (trace (world_of
                (loadDataset sampleRuntime "u" "tmdb" (Some tmdb)
                   (start [serverError; ok])))))
             (put "api/CreateOrOpen/tmdb" (TextBody "")) serverError);
      reflexivity.
Defined.

(** ** The verification re-reads *)

(** C3, as the code has it. In every run of [loadDataset], when one of the
    five verification re-reads (searchable, sortable, facetable, filterable,
    word-indexing) is answered with a failure, the process exits with code
    -1 and no request follows the failed one. *)
Theorem reread_failure_exits (rt : Runtime) (uri n : string)
    (config : option DatasetConfig.t) (script : list Response)
    (pre : Trace) (rq : Request) (rs : Response) (post : Trace) :
  trace (world_of (loadDataset rt uri n config (start script)))
    = pre ++ Exchange rq rs :: post ->
  isReread rq = true ->
  succeeds rs = false ->
  stop_of (loadDataset rt uri n config (start script)) = Some (Exited (-1))
  /\ requests post = [].
Proof.
  intros Hsplit Hrq Hrs.
  destruct (loadDataset_reread rt uri n config (start script))
    as (evs & k' & Htr & Hrun & Hres).
  cbn in Htr; rewrite Htr in Hsplit; subst evs.
  destruct (watchStep_sound isReread pre false rq rs post k' Hrun Hrq Hrs) as [Hpost ->].
  split; [|exact Hpost].
  destruct (loadDataset rt uri n config (start script)) as [a w|s w]; cbn.
  - discriminate Hres.
  - now rewrite (Hres eq_refl).
Qed.

Lemma reread_failure_exits_witness :
  stop_of (loadDataset sampleRuntime "u" "tmdb" (Some tmdb) (start rereadRefused))
    = Some (Exited (-1))
  /\ requests [Printed log "System status request failed, type any char to exit"] = [].
Proof.
  apply (reread_failure_exits sampleRuntime "u" "tmdb" (Some tmdb) rereadRefused
           (firstn 38 (trace (world_of
              (loadDataset sampleRuntime "u" "tmdb" (Some tmdb) (start rereadRefused)))))
           (get "api/GetSearchableFields/tmdb") serverError
           [Printed log "System status request failed, type any char to exit"]);
    reflexivity.
Defined.

(** C3, as the claim states it, fails: in this run the five set calls
    succeed, the first re-read is refused, and the run is over with exit code
    -1 before any data is loaded; twelve responses were on offer, two are
    left. *)
Lemma reread_failure_aborts :
  let res := loadDataset sampleRuntime "u" "tmdb" (Some tmdb) (start rereadRefused) in
  stop_of res = Some (Exited (-1))
  /\ urls (trace (world_of res)) =
       ["api/CreateOrOpen/tmdb"; "api/AnalyzeString/tmdb"; "api/GetStatus/tmdb";
        "api/GetAllFields/tmdb"; "api/SetSearchableFields/tmdb";
        "api/SetFilterableFields/tmdb"; "api/SetFacetableFields/tmdb";
        "api/SetSortableFields/tmdb"; "api/SetWordIndexingFields/tmdb";
        "api/GetSearchableFields/tmdb"]
  /\ script (world_of res) = [ok; ok].
Proof. repeat split. Qed.

(** ** The progress monitors *)

Lemma SystemState_eqb_eq a b : SystemState.eqb a b = true <-> a = b.
Proof. split; [now destruct a, b | intros ->; now destruct b]. Qed.

Lemma keeps_inv p r :
  keeps p r = true ->
  exists status statusText views,
    r = Http status statusText (Typed views) /\ is2xx status = true /\
    p (systemState (theSystemStatus views)) = true.
Proof.
  unfold keeps, observed; destruct r as [|status statusText data]; [discriminate|].
  destruct (is2xx status) eqn:E; [|discriminate].
  destruct data as [|views]; [discriminate|].
  intros H; now exists status, statusText, views.
Qed.

(** A poll shows a state, or was answered with a null body, or failed. *)
Lemma observed_cases r :
  match observed r with
  | Some _ => succeeds r = true /\ nullBody r = false
  | None => nullBody r = succeeds r
  end.
Proof.
  unfold observed, succeeds, nullBody; destruct r as [e|status statusText data]; [reflexivity|].
  destruct (is2xx status); [|now destruct data].
  destruct data; cbn; auto.
Qed.

(** One turn of a monitor is the body of the source's loop, with [getStatus]
    as the source calls it. *)
Lemma monitor_body label p n d polls tr :
  monitor label p n d polls tr =
    (ConsoleHelper.writeProgress (label ++ repeatString "." (S d mod 4) ++ "   ") ;;
     status <- getStatus n ;;
     sleep 100 ;;
     if match status with
        | Some status => p (systemState status)
        | None => false
        end
     then (fun w => monitor label p n (S d) (script w) (trace w))
     else ret tt)%m (mkWorld polls tr).
Proof.
  destruct polls as [|r polls]; [reflexivity|].
  destruct r as [e|status statusText data]; [reflexivity|].
  cbn -[Nat.modulo]; unfold getStatus_reply, getStatus, bind, send; cbn -[Nat.modulo].
  destruct (is2xx status); [|reflexivity].
  destruct data as [|views]; cbn -[Nat.modulo]; [reflexivity|].
  destruct (p (systemState (theSystemStatus views))); reflexivity.
Qed.

(** Polls that show a state to proceed on are taken one by one. *)
Lemma monitor_turns label p n pre :
  forall d tr rest,
    forallb (keeps p) pre = true ->
    exists d' tr',
      monitor label p n d (pre ++ rest) tr = monitor label p n d' rest tr'.
Proof.
  induction pre as [|r pre IH]; intros d tr rest Hpre; [now exists d, tr|].
  cbn in Hpre; apply andb_prop in Hpre as [Hr Hpre].
  destruct (keeps_inv p r Hr) as (status & statusText & views & -> & E & Hp).
  cbn [app monitor getStatus_reply]; rewrite E; cbn; rewrite Hp.
  apply IH, Hpre.
Qed.

(** The first poll that does not: the loop is over there. *)
Lemma monitor_stops label p n r rest d tr :
  keeps p r = false ->
  script (world_of (monitor label p n d (r :: rest) tr)) = rest /\
  stop_of (monitor label p n d (r :: rest) tr) =
    if succeeds r then None else Some (Exited (-1)).
Proof.
  unfold keeps, observed, succeeds; destruct r as [e|status statusText data].
  - intros _; now cbn.
  - cbn [monitor getStatus_reply]; destruct (is2xx status); cbn.
    + destruct data as [|views]; cbn; [now intros _|].
      intros ->; now cbn.
    + now intros _.
Qed.

Lemma monitor_empty label p n d tr :
  stop_of (monitor label p n d [] tr) = Some Awaiting.
Proof. reflexivity. Qed.

Lemma split_polls (f : Response -> bool) polls :
  forallb f polls = true \/
  exists pre r rest, polls = pre ++ r :: rest /\ forallb f pre = true /\ f r = false.
Proof.
  induction polls as [|r polls IH]; [now left|].
  destruct (f r) eqn:Hr.
  - destruct IH as [IH|(pre & r' & rest & -> & Hpre & Hr')].
    + left; cbn; now rewrite Hr.
    + right; exists (r :: pre), r', rest; cbn; now rewrite Hr.
  - right; exists [], r, polls; auto.
Qed.

Lemma monitor_all label p n polls d tr :
  forallb (keeps p) polls = true ->
  stop_of (monitor label p n d polls tr) = Some Awaiting.
Proof.
  intros H.
  destruct (monitor_turns label p n polls d tr [] H) as (d' & tr' & Heq).
  rewrite app_nil_r in Heq; rewrite Heq; apply monitor_empty.
Qed.

Lemma monitor_first label p n pre r rest d tr :
  forallb (keeps p) pre = true -> keeps p r = false ->
  script (world_of (monitor label p n d (pre ++ r :: rest) tr)) = rest /\
  stop_of (monitor label p n d (pre ++ r :: rest) tr) =
    if succeeds r then None else Some (Exited (-1)).
Proof.
  intros Hpre Hr.
  destruct (monitor_turns label p n pre d tr (r :: rest) Hpre) as (d' & tr' & ->).
  now apply monitor_stops.
Qed.

(** A monitor returns only after a poll that was answered with a 2xx
    status and does not make it go round again. *)
Lemma monitor_returns label p n polls :
  forall d tr,
    match monitor label p n d polls tr with
    | Ok _ w' =>
        exists pre r,
          polls = pre ++ r :: script w' /\ succeeds r = true /\ keeps p r = false
    | Halt s _ => s = Awaiting \/ s = Exited (-1)
    end.
Proof.
  induction polls as [|r polls IH]; intros d tr; [now left|].
  cbn [monitor]; unfold getStatus_reply.
  destruct r as [e|status statusText data]; [now right|].
  destruct (is2xx status) eqn:E; [|now right].
  destruct data as [|views]; cbn.
  - exists [], (Http status statusText Null); unfold keeps; cbn; rewrite E; auto.
  - destruct (p (systemState (theSystemStatus views))) eqn:Hp.
    + match goal with |- context [monitor _ _ _ ?d' _ ?tr'] => specialize (IH d' tr') end.
      destruct (monitor _ _ _ _ _ _) as [a w'|s w']; [|exact IH].
      destruct IH as (pre & r & -> & Hr & Hs).
      now exists (Http status statusText (Typed views) :: pre), r.
    + exists [], (Http status statusText (Typed views)); unfold keeps; cbn; rewrite E; auto.
Qed.

Lemma keeps_isLoading r :
  keeps isLoading r = true <-> observed r = Some SystemState.Loading.
Proof.
  unfold keeps, isLoading; destruct (observed r) as [s|]; [|now split].
  split; intros H.
  - apply SystemState_eqb_eq in H; now subst.
  - injection H as ->; reflexivity.
Qed.

Lemma keeps_notReady r :
  keeps notReady r = true <->
  exists s, observed r = Some s /\ s <> SystemState.Ready.
Proof.
  unfold keeps, notReady; destruct (observed r) as [s|].
  - rewrite negb_true_iff; split.
    + intros H; exists s; split; [reflexivity|].
      intros ->; discriminate.
    + intros (s' & Heq & Hs); injection Heq as <-.
      destruct (SystemState.eqb s SystemState.Ready) eqn:E; [|reflexivity].
      now apply SystemState_eqb_eq in E.
  - split; [discriminate | now intros (s & H & _)].
Qed.

Lemma forallb_Forall {A} (f : A -> bool) (P : A -> Prop) l :
  (forall x, f x = true <-> P x) -> forallb f l = true <-> Forall P l.
Proof.
  intros H; rewrite forallb_forall, Forall_forall.
  split; intros Hl x Hx; apply H, Hl, Hx.
Qed.

(** What ends the wait for the index: a poll that shows Ready, one answered
    with a null body, or one that failed. *)
Lemma endsIndexing r :
  keeps notReady r = false <->
  observed r = Some SystemState.Ready \/ nullBody r = true \/ succeeds r = false.
Proof.
  pose proof (observed_cases r) as Hc.
  unfold keeps, notReady; destruct (observed r) as [s|].
  - destruct Hc as [Hs Hn]; rewrite negb_false_iff, SystemState_eqb_eq; split.
    + intros ->; now left.
    + intros [H|[H|H]]; [now injection H | congruence | congruence].
  - split; [intros _|reflexivity].
    right; rewrite Hc; destruct (succeeds r); auto.
Qed.

(** C5. The wait-for-load loop, on any list of polls: while every poll shows
    Loading it does not exit (it is waiting for the next poll); it exits at
    the first poll that does not show Loading, having taken exactly the polls
    up to that one: by returning when that poll was answered with a 2xx
    status (it shows another state such as Loaded, Ready or Error, or its
    body is null and shows none), and by ending the process with code -1 when
    the fetch failed; and it exits in no other way. *)
Theorem monitorLoading_exit (dataSetName : string) (tr : Trace) (polls : list Response) :
  let res := monitorLoading dataSetName (mkWorld polls tr) in
  (Forall (fun r => observed r = Some SystemState.Loading) polls ->
   stop_of res = Some Awaiting)
  /\
  (forall pre r rest,
      polls = pre ++ r :: rest ->
      Forall (fun r => observed r = Some SystemState.Loading) pre ->
      observed r <> Some SystemState.Loading ->
      script (world_of res) = rest /\
      stop_of res = if succeeds r then None else Some (Exited (-1)))
  /\
  (stop_of res <> Some Awaiting ->
   exists pre r rest,
     polls = pre ++ r :: rest /\
     Forall (fun r => observed r = Some SystemState.Loading) pre /\
     observed r <> Some SystemState.Loading)
  /\
  (forall r,
      observed r <> Some SystemState.Loading <->
      (exists s, observed r = Some s /\ s <> SystemState.Loading) \/
      nullBody r = true \/ succeeds r = false).
Proof.
  cbv zeta; unfold monitorLoading; cbn [script trace].
  change (fun s => SystemState.eqb s SystemState.Loading) with isLoading.
  split; [|split; [|split]].
  - intros H; apply monitor_all.
    now apply (forallb_Forall _ _ _ keeps_isLoading).
  - intros pre r rest -> Hpre Hr; apply monitor_first.
    + now apply (forallb_Forall _ _ _ keeps_isLoading).
    + destruct (keeps isLoading r) eqn:E; [|reflexivity].
      now apply keeps_isLoading in E.
  - intros Hstop.
    destruct (split_polls (keeps isLoading) polls) as [Hall|(pre & r & rest & -> & Hpre & Hr)].
    + now rewrite monitor_all in Hstop.
    + exists pre, r, rest; repeat split.
      * now apply (forallb_Forall _ _ _ keeps_isLoading).
      * intros Hobs; apply keeps_isLoading in Hobs; congruence.
  - intros r; pose proof (observed_cases r) as Hc.
    destruct (observed r) as [s|].
    + destruct Hc as [Hs Hn]; split.
      * intros H; left; exists s; split; [reflexivity | congruence].
      * intros [(s' & Heq & Hs')|[H|H]]; congruence.
    + split; [intros _|discriminate].
      right; rewrite Hc; destruct (succeeds r); auto.
Qed.

Lemma monitorLoading_exit_witness :
  stop_of (monitorLoading "tmdb"
             (start [okStatus SystemState.Loading; okStatus SystemState.Loading]))
    = Some Awaiting
  /\
  (script (world_of (monitorLoading "tmdb"
             (start [okStatus SystemState.Loading; okNull; ok]))) = [ok]
   /\ stop_of (monitorLoading "tmdb"
             (start [okStatus SystemState.Loading; okNull; ok])) = None)
  /\
  (exists pre r rest,
     [okStatus SystemState.Loading; refused; ok] = pre ++ r :: rest /\
     Forall (fun r => observed r = Some SystemState.Loading) pre /\
     observed r <> Some SystemState.Loading)
  /\
  ((exists s, observed (okStatus SystemState.Error) = Some s /\ s <> SystemState.Loading) \/
   nullBody (okStatus SystemState.Error) = true \/
   succeeds (okStatus SystemState.Error) = false).
Proof.
  split; [|split; [|split]].
  - apply (proj1 (monitorLoading_exit "tmdb" []
                    [okStatus SystemState.Loading; okStatus SystemState.Loading])).
    repeat constructor.
  - apply (proj1 (proj2 (monitorLoading_exit "tmdb" []
                    [okStatus SystemState.Loading; okNull; ok]))
             [okStatus SystemState.Loading] okNull [ok]).
    + reflexivity.
    + repeat constructor.
    + discriminate.
  - apply (proj1 (proj2 (proj2 (monitorLoading_exit "tmdb" []
                    [okStatus SystemState.Loading; refused; ok])))).
    discriminate.
  - apply (proj1 (proj2 (proj2 (proj2 (monitorLoading_exit "tmdb" []
                    [okStatus SystemState.Loading; refused; ok])))
             (okStatus SystemState.Error))).
    discriminate.
Defined.

(** C1, as the code has it. The wait-for-index loop, on any list of polls:
    while every poll shows a state other than Ready (Error is one) it does
    not exit; it exits at the first poll that shows Ready, or is answered
    with a 2xx status and a null body, or fails, having taken exactly the
    polls up to that one: by returning in the first two cases, and by ending
    the process with code -1 in the third; and it exits in no other way. *)
Theorem monitorIndexing_exit (dataSetName : string) (tr : Trace) (polls : list Response) :
  let res := monitorIndexing dataSetName (mkWorld polls tr) in
  let waiting r := exists s, observed r = Some s /\ s <> SystemState.Ready in
  let ending r :=
    observed r = Some SystemState.Ready \/ nullBody r = true \/ succeeds r = false in
  (Forall waiting polls -> stop_of res = Some Awaiting)
  /\
  (forall pre r rest,
      polls = pre ++ r :: rest ->
      Forall waiting pre ->
      ending r ->
      script (world_of res) = rest /\
      stop_of res = if succeeds r then None else Some (Exited (-1)))
  /\
  (stop_of res <> Some Awaiting ->
   exists pre r rest, polls = pre ++ r :: rest /\ Forall waiting pre /\ ending r)
  /\
  (forall r, observed r = Some SystemState.Error -> waiting r)
  /\
  (forall r, waiting r -> ~ ending r).
Proof.
  cbv zeta; unfold monitorIndexing; cbn [script trace].
  change (fun s => negb (SystemState.eqb s SystemState.Ready)) with notReady.
  split; [|split; [|split; [|split]]].
  - intros H; apply monitor_all.
    now apply (forallb_Forall _ _ _ keeps_notReady).
  - intros pre r rest -> Hpre Hr; apply monitor_first; [|now apply endsIndexing].
    now apply (forallb_Forall _ _ _ keeps_notReady).
  - intros Hhalt.
    destruct (split_polls (keeps notReady) polls) as [Hall|(pre & r & rest & -> & Hpre & Hr)].
    + now rewrite monitor_all in Hhalt.
    + exists pre, r, rest; repeat split.
      * now apply (forallb_Forall _ _ _ keeps_notReady).
      * now apply endsIndexing.
  - intros r H; exists SystemState.Error; split; [exact H | discriminate].
  - intros r Hw He; apply keeps_notReady in Hw; apply endsIndexing in He; congruence.
Qed.

Lemma monitorIndexing_exit_witness :
  stop_of (monitorIndexing "tmdb"
             (start [okStatus SystemState.Indexing; okStatus SystemState.Error]))
    = Some Awaiting
  /\
  (script (world_of (monitorIndexing "tmdb"
             (start [okStatus SystemState.Error; okNull; ok]))) = [ok]
   /\ stop_of (monitorIndexing "tmdb"
             (start [okStatus SystemState.Error; okNull; ok])) = None)
  /\
  (exists pre r rest,
     [okStatus SystemState.Indexing; refused; ok] = pre ++ r :: rest /\
     Forall (fun r => exists s, observed r = Some s /\ s <> SystemState.Ready) pre /\
     (observed r = Some SystemState.Ready \/ nullBody r = true \/ succeeds r = false))
  /\
  (exists s, observed (okStatus SystemState.Error) = Some s /\ s <> SystemState.Ready)
  /\
  ((observed (okStatus SystemState.Error) = Some SystemState.Ready \/
    nullBody (okStatus SystemState.Error) = true \/
    succeeds (okStatus SystemState.Error) = false) -> False).
Proof.
  split; [|split; [|split; [|split]]].
  - apply (proj1 (monitorIndexing_exit "tmdb" []
                    [okStatus SystemState.Indexing; okStatus SystemState.Error])).
    repeat constructor.
    + exists SystemState.Indexing; split; [reflexivity | discriminate].
    + exists SystemState.Error; split; [reflexivity | discriminate].
  - apply (proj1 (proj2 (monitorIndexing_exit "tmdb" []
                    [okStatus SystemState.Error; okNull; ok]))
             [okStatus SystemState.Error] okNull [ok]).
    + reflexivity.
    + repeat constructor.
      exists SystemState.Error; split; [reflexivity | discriminate].
    + right; now left.
  - apply (proj1 (proj2 (proj2 (monitorIndexing_exit "tmdb" []
                    [okStatus SystemState.Indexing; refused; ok])))).
    discriminate.
  - apply (proj1 (proj2 (proj2 (proj2 (monitorIndexing_exit "tmdb" []
                    [okStatus SystemState.Indexing; refused; ok]))))
             (okStatus SystemState.Error)).
    reflexivity.
  - apply (proj2 (proj2 (proj2 (proj2 (monitorIndexing_exit "tmdb" []
                    [okStatus SystemState.Indexing; refused; ok]))))
             (okStatus SystemState.Error)).
    exists SystemState.Error; split; [reflexivity | discriminate].
Defined.

(** C1, as the claim states it, fails: a poll that shows Error does not end
    the wait-for-index loop.  After the one poll the loop is waiting for the
    next; with a second poll that shows Ready it returns after the two. *)
Lemma monitorIndexing_Error_goes_on :
  stop_of (monitorIndexing "tmdb" (start [okStatus SystemState.Error])) = Some Awaiting
  /\ urls (trace (world_of (monitorIndexing "tmdb" (start [okStatus SystemState.Error]))))
     = ["api/GetStatus/tmdb"; "api/GetStatus/tmdb"]
  /\ monitorIndexing "tmdb" (start [okStatus SystemState.Error; okStatus SystemState.Ready; ok])
     = Ok tt
         (mkWorld [ok]
            [Printed progress "Indexing.   ";
             Exchange (getStatus_request "tmdb") (okStatus SystemState.Error);
             Sleep 100;
             Printed progress "Indexing..   ";
             Exchange (getStatus_request "tmdb") (okStatus SystemState.Ready);
             Sleep 100]).
Proof. repeat split. Qed.

(** C10, as the code has it. [getStatus] returns what the service sent: on
    a 2xx response the body as it is, which is null exactly when the body is
    null; on any other response or a rejected request the process exits with
    code -1 and nothing is returned.  So does the handling of the response
    inside the monitors, and a monitor that returns has just had a poll
    answered with a 2xx status: one that shows a state that ends the wait,
    or one with a null body, for which the null branch of the loop is
    taken.  On a first poll of that kind both monitors return at once,
    having taken that poll alone. *)
Theorem getStatus_null (dataSetName : string) (w : World) (r : Response)
    (polls : list Response) :
  match getStatus dataSetName w with
  | Ok status _ =>
      exists r rest,
        script w = r :: rest /\ succeeds r = true /\
        status = answer asSystemStatus r /\ (status = None <-> nullBody r = true)
  | Halt s _ =>
      (s = Awaiting /\ script w = []) \/
      (s = Exited (-1) /\ exists r rest, script w = r :: rest /\ succeeds r = false)
  end
  /\
  match getStatus_reply r w with
  | Ok status _ =>
      succeeds r = true /\
      status = answer asSystemStatus r /\ (status = None <-> nullBody r = true)
  | Halt s _ => s = Exited (-1) /\ succeeds r = false
  end
  /\
  match monitorLoading dataSetName (mkWorld polls (trace w)) with
  | Ok _ w' =>
      exists pre r,
        polls = pre ++ r :: script w' /\ succeeds r = true /\
        ((exists s, observed r = Some s /\ s <> SystemState.Loading) \/ nullBody r = true)
  | Halt s _ => s = Awaiting \/ s = Exited (-1)
  end
  /\
  match monitorIndexing dataSetName (mkWorld polls (trace w)) with
  | Ok _ w' =>
      exists pre r,
        polls = pre ++ r :: script w' /\ succeeds r = true /\
        (observed r = Some SystemState.Ready \/ nullBody r = true)
  | Halt s _ => s = Awaiting \/ s = Exited (-1)
  end
  /\
  (nullBody r = true ->
   stop_of (monitorLoading dataSetName (mkWorld (r :: polls) (trace w))) = None /\
   script (world_of (monitorLoading dataSetName (mkWorld (r :: polls) (trace w)))) = polls /\
   stop_of (monitorIndexing dataSetName (mkWorld (r :: polls) (trace w))) = None /\
   script (world_of (monitorIndexing dataSetName (mkWorld (r :: polls) (trace w)))) = polls).
Proof.
  assert (Hreply : forall r w,
            match getStatus_reply r w with
            | Ok status _ =>
                succeeds r = true /\
                status = answer asSystemStatus r /\ (status = None <-> nullBody r = true)
            | Halt s _ => s = Exited (-1) /\ succeeds r = false
            end).
  { intros r0 w0; destruct r0 as [e|status statusText data]; cbn; [now split|].
    destruct (is2xx status) eqn:E2xx; cbn; [|now split].
    repeat split; destruct data; cbn; congruence. }
  split; [|split; [exact (Hreply r w)|split; [|split]]].
  - destruct w as [[|r' rest] tr]; [left; now split|].
    unfold getStatus, bind, send; cbn [script trace].
    specialize (Hreply r' (mkWorld rest (tr ++ [Exchange (getStatus_request dataSetName) r']))).
    destruct (getStatus_reply r' _) as [status w'|s w'].
    + exists r', rest; tauto.
    + right; split; [tauto|]; exists r', rest; tauto.
  - unfold monitorLoading; cbn [script trace].
    pose proof (monitor_returns "Loading data" isLoading dataSetName polls 0 (trace w)) as H.
    change (fun s => SystemState.eqb s SystemState.Loading) with isLoading.
    destruct (monitor _ _ _ _ _ _) as [a w'|s w']; [|exact H].
    destruct H as (pre & r' & Hp & Hr & Hs); exists pre, r'; repeat split; auto.
    pose proof (observed_cases r') as Hc; unfold keeps in Hs.
    destruct (observed r') as [s|]; [left|right; congruence].
    exists s; split; [reflexivity|]; intros ->; discriminate.
  - unfold monitorIndexing; cbn [script trace].
    pose proof (monitor_returns "Indexing" notReady dataSetName polls 0 (trace w)) as H.
    change (fun s => negb (SystemState.eqb s SystemState.Ready)) with notReady.
    destruct (monitor _ _ _ _ _ _) as [a w'|s w']; [|exact H].
    destruct H as (pre & r' & Hp & Hr & Hs); exists pre, r'; repeat split; auto.
    apply endsIndexing in Hs as [Hs|[Hs|Hs]]; [now left | now right | congruence].
  - intros Hnull; pose proof (observed_cases r) as Hc.
    assert (Hobs : observed r = None).
    { destruct (observed r); [destruct Hc; congruence | reflexivity]. }
    rewrite Hobs in Hc.
    assert (Hk : forall p, keeps p r = false) by (intros p; unfold keeps; now rewrite Hobs).
    unfold monitorLoading, monitorIndexing; cbn [script trace].
    destruct (monitor_stops "Loading data" (fun s => SystemState.eqb s SystemState.Loading)
                dataSetName r polls 0 (trace w) (Hk _)) as [H1 H2].
    destruct (monitor_stops "Indexing" (fun s => negb (SystemState.eqb s SystemState.Ready))
                dataSetName r polls 0 (trace w) (Hk _)) as [H3 H4].
    rewrite <- Hc, Hnull in H2, H4; auto.
Qed.

(** C10, as the claim states it, fails: a status fetch answered 200 with
    the body null makes [getStatus] return null; the wait-for-index loop
    takes its null branch on such a poll, returns, and the run goes on with
    the responses that follow. *)
Lemma getStatus_returns_null :
  getStatus "tmdb" (start [okNull; ok])
    = Ok None (mkWorld [ok] [Exchange (getStatus_request "tmdb") okNull])
  /\ monitorIndexing "tmdb" (start [okNull; ok])
     = Ok tt
         (mkWorld [ok]
            [Printed progress "Indexing.   ";
             Exchange (getStatus_request "tmdb") okNull;
             Sleep 100])
  /\ monitorLoading "tmdb" (start [okNull; ok])
     = Ok tt
         (mkWorld [ok]
            [Printed progress "Loading data.   ";
             Exchange (getStatus_request "tmdb") okNull;
             Sleep 100]).
Proof. repeat split. Qed.

(** ** The searchable fields on the wire *)

Lemma tuples_nth fields i f :
  nth_error fields i = Some f ->
  nth_error (items (JsonBody (tuples fields))) i =
    Some (JObj [("Item1", JStr (SearchableField.name f));
                ("Item2", num (SearchableField.weight f))]).
Proof.
  intros H; cbn; now rewrite nth_error_map, H.
Qed.

(** C2, as the code has it. For every dataset name and list of searchable
    fields, [setSearchableFields] sends one PUT whose body is an array with
    one element per field, in order; the element for a field is an object
    with exactly the two properties Item1, the field name, and Item2, the
    weight, in this order: an object with named properties, not a
    two-element array.  For the descriptors of [getConfig] every weight is 0,
    1 or 2. *)
Theorem setSearchableFields_body (dataSetName : string) (fields : list SearchableField.t)
    (w : World) :
  let sent := requests (trace (world_of (setSearchableFields dataSetName fields w))) in
  (exists body,
      sent = requests (trace w)
               ++ [put ("api/SetSearchableFields/" ++ dataSetName) body] /\
      length (items body) = length fields /\
      forall i f,
        nth_error fields i = Some f ->
        exists item,
          nth_error (items body) i = Some item /\
          keys item = ["Item1"; "Item2"] /\
          prop "Item1" item = Some (JStr (SearchableField.name f)) /\
          prop "Item2" item = Some (num (SearchableField.weight f)) /\
          isObject item = true /\ isPair item = false)
  /\
  (forall d cfg f,
      getConfig d = Some cfg ->
      In f (DatasetConfig.searchableFields cfg) ->
      In (SearchableField.weight f) [0; 1; 2]%Z).
Proof.
  cbv zeta; split.
  - exists (JsonBody (tuples fields)); split; [|split].
    + apply (sends_requests _ _ _ w (setSearchableFields_sends dataSetName fields)).
    + cbn; now rewrite length_map.
    + intros i f Hf; eexists; split; [exact (tuples_nth _ _ _ Hf)|].
      repeat split.
  - intros d cfg f Hcfg Hf; unfold getConfig in Hcfg.
    destruct (String.eqb (toLowerCase d) "tmdb");
      [|destruct (String.eqb (toLowerCase d) "pokedex"); [|discriminate]];
      injection Hcfg as <-; cbn in Hf;
      repeat (destruct Hf as [<-|Hf]; [cbn; tauto|]); destruct Hf.
Qed.

Lemma setSearchableFields_body_witness :
  (exists item,
      nth_error (items (JsonBody (tuples (DatasetConfig.searchableFields tmdb)))) 3
        = Some item /\
      keys item = ["Item1"; "Item2"] /\
      prop "Item1" item = Some (JStr "actors") /\
      prop "Item2" item = Some (num 2) /\
      isObject item = true /\ isPair item = false)
  /\ In 1%Z [0; 1; 2]%Z.
Proof.
  split.
  - destruct (proj1 (setSearchableFields_body "tmdb" (DatasetConfig.searchableFields tmdb)
                       (start [ok])))
      as (body & Hsent & _ & Hitems).
    injection Hsent as <-.
    apply (Hitems 3%nat (SearchableField.mk "actors" 2)); reflexivity.
  - apply (proj2 (setSearchableFields_body "tmdb" [] (start []))
             "TMDB" tmdb (SearchableField.mk "description" 1)).
    + reflexivity.
    + cbn; tauto.
Defined.

(** C2, as the claim states it, fails: what [setSearchableFields] sends for
    the field title of tmdb is the object with the properties Item1 and
    Item2, which is not a two-element array. *)
Lemma searchable_field_is_object :
  map payload (requests (trace (world_of
     (setSearchableFields "tmdb" (DatasetConfig.searchableFields tmdb) (start [ok])))))
  = [JsonBody
       (JArr [JObj [("Item1", JStr "title"); ("Item2", num 0)];
              JObj [("Item1", JStr "original_title"); ("Item2", num 1)];
              JObj [("Item1", JStr "description"); ("Item2", num 1)];
              JObj [("Item1", JStr "actors"); ("Item2", num 2)]])]
  /\ isPair (JObj [("Item1", JStr "title"); ("Item2", num 0)]) = false
  /\ isObject (JObj [("Item1", JStr "title"); ("Item2", num 0)]) = true.
Proof. repeat split. Qed.

(** ** The checks before any network call *)

Lemma loadDataset_missing_file rt uri n cfg w :
  existsSync rt (DatasetConfig.filePath cfg) = false ->
  loadDataset rt uri n (Some cfg) w =
    Halt Returned
      (mkWorld (script w)
         (trace w ++
          [Printed error ("Data file not found: " ++ DatasetConfig.filePath cfg);
           Printed info "Please ensure the data file exists in the correct location.";
           Printed info ("Expected path: " ++ resolve rt (DatasetConfig.filePath cfg))])).
Proof.
  intros H; cbn [loadDataset].
  apply bind_halt; unfold step0; apply bind_halt.
  rewrite H; cbn; flat; reflexivity.
Qed.

Lemma selection_selected p d w :
  selected p = Some d ->
  exists logs,
    forallb isPrinted logs = true /\
    selectDataset p w = Ok d (mkWorld (script w) (trace w ++ logs)).
Proof.
  unfold selected, selectDataset, showInteractiveMenu.
  destruct (String.eqb (orElse (optionDataset p) "") "").
  - intros ->; eexists; split; [|cbn; flat; reflexivity]; reflexivity.
  - intros [= <-]; exists []; split; [reflexivity|].
    cbn; now rewrite app_nil_r; destruct w.
Qed.

(** C9. When the configuration is there and its data file does not exist,
    [loadDataset] returns at once: it has sent no request and taken no
    response, and what it has printed is an error line with the configured
    path and two information lines, the second with the resolved absolute
    path of the file.  So does a run of [main] with a bearer token: no
    request is sent in the whole run. *)
Theorem missing_file_aborts (rt : Runtime) (uri n : string) (cfg : DatasetConfig.t)
    (responses : list Response) :
  existsSync rt (DatasetConfig.filePath cfg) = false ->
  loadDataset rt uri n (Some cfg) (start responses) =
    Halt Returned
      (mkWorld responses
         [Printed error ("Data file not found: " ++ DatasetConfig.filePath cfg);
          Printed info "Please ensure the data file exists in the correct location.";
          Printed info ("Expected path: " ++ resolve rt (DatasetConfig.filePath cfg))])
  /\
  forall p d token,
    selected p = Some d -> getConfig d = Some cfg ->
    BEARER_TOKEN p = Some token -> token <> ""%string ->
    let res := main rt p (start responses) in
    stop_of res = None /\
    requests (trace (world_of res)) = [] /\
    script (world_of res) = responses /\
    In (Printed info ("Expected path: " ++ resolve rt (DatasetConfig.filePath cfg)))
       (trace (world_of res)).
Proof.
  intros Hfile; split; [now apply loadDataset_missing_file|].
  intros p d tk Hsel Hcfg Htoken Hne; cbv zeta.
  unfold main.
  destruct (selection_selected p d (start responses) Hsel) as (logs & Hlogs & Hselect).
  assert (Hbearer : String.eqb (orElse (BEARER_TOKEN p) "") "" = false).
  { rewrite Htoken; cbn.
    destruct (String.eqb tk "") eqn:E; [apply String.eqb_eq in E; contradiction|exact E]. }
  unfold tryCatch, call.
  rewrite (bind_ok _ _ _ _ _ Hselect), Hcfg, Hbearer.
  cbn [negb]; unfold_console; unfold setBearerToken.
  cbn -[loadDataset]; rewrite loadDataset_missing_file by exact Hfile.
  cbn; repeat split.
  - rewrite !requests_app, (requests_printed logs Hlogs); reflexivity.
  - apply in_or_app; right; cbn; tauto.
Qed.

Lemma missing_file_aborts_witness :
  loadDataset emptyRuntime "u" "tmdb" (Some tmdb) (start [ok]) =
    Halt Returned
      (mkWorld [ok]
         [Printed error "Data file not found: data/tmdb_top10k.json";
          Printed info "Please ensure the data file exists in the correct location.";
          Printed info "Expected path: /work/data/tmdb_top10k.json"])
  /\
  (stop_of (main emptyRuntime (sampleProcess "tmdb") (start [ok])) = None /\
   requests (trace (world_of (main emptyRuntime (sampleProcess "tmdb") (start [ok])))) = [] /\
   script (world_of (main emptyRuntime (sampleProcess "tmdb") (start [ok]))) = [ok] /\
   In (Printed info "Expected path: /work/data/tmdb_top10k.json")
      (trace (world_of (main emptyRuntime (sampleProcess "tmdb") (start [ok]))))).
Proof.
  split.
  - apply (proj1 (missing_file_aborts emptyRuntime "u" "tmdb" tmdb [ok] eq_refl)).
  - apply (proj2 (missing_file_aborts emptyRuntime "u" "tmdb" tmdb [ok] eq_refl)
             (sampleProcess "tmdb") "tmdb" "t");
      [reflexivity | reflexivity | reflexivity | discriminate].
Defined.

(** ** The descriptor registry *)

(** C6. The lookup of a descriptor depends on the lower-cased name only: it
    returns the descriptor of that name when the lower-cased name is one of
    the valid names tmdb and pokedex, and null otherwise; and when the name
    [main] goes on with is unknown, the run prints the error and the valid
    names and ends without a request. *)
Theorem getConfig_lookup (datasetName : string) :
  (In (toLowerCase datasetName) getAvailableDatasets ->
   exists cfg,
     getConfig datasetName = Some cfg /\
     DatasetConfig.name cfg = toLowerCase datasetName /\ In cfg [tmdb; pokedex])
  /\
  (~ In (toLowerCase datasetName) getAvailableDatasets -> getConfig datasetName = None)
  /\
  (forall other,
      toLowerCase other = toLowerCase datasetName -> getConfig other = getConfig datasetName)
  /\
  (getConfig datasetName = None ->
   forall rt p responses,
     selected p = Some datasetName ->
     let res := main rt p (start responses) in
     stop_of res = None /\
     requests (trace (world_of res)) = [] /\
     script (world_of res) = responses /\
     In (Printed error ("Unknown dataset: " ++ datasetName)) (trace (world_of res)) /\
     In (Printed info "Available datasets: tmdb, pokedex") (trace (world_of res))).
Proof.
  split; [|split; [|split]].
  - unfold getConfig; cbn; intros [H|[H|[]]]; rewrite <- H; cbn.
    + exists tmdb; cbn; tauto.
    + exists pokedex; cbn; tauto.
  - unfold getConfig; cbn; intros H.
    destruct (String.eqb_spec (toLowerCase datasetName) "tmdb") as [E|_];
      [exfalso; apply H; now left|].
    destruct (String.eqb_spec (toLowerCase datasetName) "pokedex") as [E|_];
      [exfalso; apply H; right; now left|].
    reflexivity.
  - intros other H; unfold getConfig; now rewrite H.
  - intros Hcfg rt p responses Hsel; cbv zeta.
    unfold main.
    destruct (selection_selected p datasetName (start responses) Hsel)
      as (logs & Hlogs & Hselect).
    unfold tryCatch, call.
    rewrite (bind_ok _ _ _ _ _ Hselect), Hcfg; cbn.
    split; [reflexivity|]; split; [|split; [reflexivity|]].
    + rewrite !requests_app, (requests_printed logs Hlogs); reflexivity.
    + flat; split; apply in_or_app; right; cbn;
        first [left; reflexivity | right; left; reflexivity].
Qed.

Lemma getConfig_lookup_witness :
  (exists cfg,
      getConfig "TMDB" = Some cfg /\
      DatasetConfig.name cfg = toLowerCase "TMDB" /\ In cfg [tmdb; pokedex])
  /\ getConfig "IMDB" = None
  /\ getConfig "PokeDex" = getConfig "pokedex"
  /\ requests (trace (world_of (main sampleRuntime (sampleProcess "IMDB") (start [ok])))) = [].
Proof.
  split; [|split; [|split]].
  - apply (proj1 (getConfig_lookup "TMDB")); cbn; tauto.
  - apply (proj1 (proj2 (getConfig_lookup "IMDB"))).
    cbn; intros [H|[H|[]]]; discriminate H.
  - apply (proj1 (proj2 (proj2 (getConfig_lookup "pokedex")))); reflexivity.
  - apply (proj2 (proj2 (proj2 (getConfig_lookup "IMDB"))) eq_refl
             sampleRuntime (sampleProcess "IMDB") [ok] eq_refl).
Defined.

(** ** The optional filters *)

Ltac crack s :=
  let r := fresh "r" in
  destruct s as [|r s];
  [|split_response r;
    [| match goal with data : Body |- _ => destruct data as [|?views] end |]].

Ltac settle :=
  eexists;
  (split;
   [ cbn; repeat (match goal with H : is2xx _ = _ |- _ => rewrite H end; cbn); flat;
     reflexivity
   | cbn; unfold nthSucceeds, nthReturns, returned, succeeds; cbn;
     repeat (match goal with H : is2xx _ = _ |- _ => rewrite H end; cbn);
     repeat split; auto; try (intros; discriminate);
     repeat constructor; eauto ]).

(** C7. The optional filters step, for every configuration and script.  It
    prints nothing and never ends the run: it returns, or stays waiting for
    a response the script does not have.  For pokedex, the combine request
    is sent only if the range filter and the value filter both came back
    with a 2xx status, and it is sent when both came back with a filter; its
    AND flag is true.  The boost request is sent only if the combine request
    was sent and came back with a 2xx status, and it is sent when the combine
    request came back with a filter; its strength is High (3).  For any
    other dataset the step does nothing. *)
Theorem createFilters_best_effort (cfg : DatasetConfig.t) (w : World) :
  let res := createFilters cfg w in
  exists added,
    trace (world_of res) = trace w ++ added /\
    printed added = [] /\
    (stop_of res = None \/ (stop_of res = Some Awaiting /\ script (world_of res) = [])) /\
    if String.eqb (DatasetConfig.name cfg) "pokedex" then
      (sentTo "api/CombineFilters/" added = true ->
       nthSucceeds (script w) 0 = true /\ nthSucceeds (script w) 1 = true)
      /\ (nthReturns asFilterProxy (script w) 0 = true ->
          nthReturns asFilterProxy (script w) 1 = true ->
          sentTo "api/CombineFilters/" added = true)
      /\ (sentTo "api/CreateBoost/" added = true ->
          sentTo "api/CombineFilters/" added = true /\ nthSucceeds (script w) 2 = true)
      /\ (sentTo "api/CombineFilters/" added = true ->
          nthReturns asFilterProxy (script w) 2 = true ->
          sentTo "api/CreateBoost/" added = true)
      /\ Forall (fun body => exists j,
                   body = JsonBody j /\ prop "useAndOperation" j = Some (JBool true))
           (bodiesTo "api/CombineFilters/" added)
      /\ Forall (fun body => exists j,
                   body = JsonBody j /\
                   prop "boostStrength" j = Some (num (BoostStrength.code BoostStrength.High)))
           (bodiesTo "api/CreateBoost/" added)
    else added = [].
Proof.
  cbv zeta; destruct w as [s tr]; unfold createFilters; unfold_console.
  destruct (String.eqb (DatasetConfig.name cfg) "pokedex");
    [|exists []; cbn; rewrite app_nil_r; auto].
  unfold bind, createRangeFilter, createValueFilter, combineFilters, createBoost,
    client_put, send, ret.
  crack s; [settle| | | |]; (crack s; [settle| | | |]);
    try settle; (crack s; [settle| | | |]); try settle; (crack s; settle).
Qed.

(** Both filters answered 200 with the body null: nothing is combined and
    nothing boosted, and the step returns as it does after a failure. *)
Example createFilters_null_bodies :
  createFilters pokedex (start [okNull; okNull; ok])
  = Ok tt
      (mkWorld [ok]
         [Exchange
            (put "api/CreateRangeFilter/pokedex"
               (JsonBody (JObj [("fieldName", JStr "speed");
                                ("lowerLimit", JNum (21 # 2));
                                ("upperLimit", num 50)])))
            okNull;
          Exchange
            (put "api/CreateValueFilter/pokedex"
               (JsonBody (JObj [("fieldName", JStr "speed"); ("value", num 50)])))
            okNull]).
Proof. reflexivity. Qed.

(** C8, on the code. When both filters come back, the body of the combine
    request is the object literal of lines 988-992: its properties are a, b
    and useAndOperation.  It has none of the properties filter1, filter2 and
    useAnd that the interface [CombinedFilterProxy] declares for the body of
    this call. *)
Theorem combine_body_properties (f1 f2 : FilterProxy.t) (rest : list Response) :
  let res := createFilters pokedex (start (okFilter f1 :: okFilter f2 :: rest)) in
  let sent := JObj [("a", FilterProxy.json f1);
                    ("b", FilterProxy.json f2);
                    ("useAndOperation", JBool true)] in
  bodiesTo "api/CombineFilters/" (trace (world_of res)) = [JsonBody sent]
  /\ keys sent = ["a"; "b"; "useAndOperation"]
  /\ keys (CombinedFilterProxy.json (CombinedFilterProxy.mk f1 f2 true))
     = ["filter1"; "filter2"; "useAnd"]
  /\ prop "filter1" sent = None
  /\ prop "filter2" sent = None
  /\ prop "useAnd" sent = None.
Proof.
  cbv zeta; repeat split.
  unfold createFilters, start; unfold_console.
  unfold bind, createRangeFilter, createValueFilter, combineFilters, createBoost,
    client_put, send, ret.
  destruct rest as [|r rest]; [reflexivity|].
  destruct r as [e|status statusText data]; [reflexivity|].
  cbn; destruct (is2xx status); [|reflexivity].
  destruct data as [|views]; [reflexivity|].
  cbn; unfold bind; cbn.
  destruct rest as [|r rest]; [reflexivity|].
  destruct r as [e|status' statusText' data']; [reflexivity|].
  cbn; destruct (is2xx status'); reflexivity.
Qed.

(** ** Trace automata: monitors that move the state *)

Section MonitorRules.
Variable St : Type.
Variable step : St -> Event -> option St.
Variable E : St -> Stop -> Prop.
Hypothesis quiet_step : forall k e, isQuiet e = true -> step k e = Some k.

(** [Inv] holds of the state at every turn, [Final] of the state in which
    the monitor returns. *)
Variable Inv Final : St -> Prop.
Variable proceedOn : SystemState.t -> bool.
Variable n : string.

Hypothesis on_success :
  forall k r, Inv k -> succeeds r = true ->
    exists k1, step k (Exchange (getStatus_request n) r) = Some k1 /\
               Inv k1 /\ (keeps proceedOn r = false -> Final k1).
Hypothesis on_failure :
  forall k r, Inv k -> succeeds r = false ->
    exists k1, step k (Exchange (getStatus_request n) r) = Some k1 /\ E k1 (Exited (-1)).
Hypothesis on_sent :
  forall k, Inv k ->
    exists k0, step k (Sent (getStatus_request n)) = Some k0 /\ E k0 Awaiting.

Lemma monitor_invariant label :
  forall polls dotCount tr k, Inv k ->
    exists evs k',
      trace (world_of (monitor label proceedOn n dotCount polls tr)) = tr ++ evs /\
      run St step k evs = Some k' /\
      match monitor label proceedOn n dotCount polls tr with
      | Ok _ _ => Final k'
      | Halt s _ => E k' s
      end.
Proof.
  induction polls as [|r polls IH]; intros dotCount tr k Hk.
  - destruct (on_sent k Hk) as (k0 & Hk0 & HE).
    eexists _, k0; cbn -[Nat.modulo]; flat; split; [reflexivity|].
    cbn [run]; rewrite quiet_step by reflexivity; rewrite Hk0; auto.
  - cbn [monitor]; unfold getStatus_reply.
    destruct r as [e|status statusText data];
      [|destruct (is2xx status) eqn:E2xx].
    + destruct (on_failure k (Threw e) Hk eq_refl) as (k1 & Hk1 & HE).
      eexists _, k1; cbn -[Nat.modulo]; flat; split; [reflexivity|].
      cbn [run]; rewrite quiet_step by reflexivity; rewrite Hk1.
      cbn [run]; rewrite quiet_step by reflexivity; auto.
    + destruct (on_success k (Http status statusText data) Hk E2xx)
        as (k1 & Hk1 & HI & HF).
      assert (Hkeeps : keeps proceedOn (Http status statusText data) =
                match asSystemStatus data with
                | Some status => proceedOn (systemState status)
                | None => false
                end).
      { unfold keeps, observed; rewrite E2xx; now destruct (asSystemStatus data). }
      cbn -[Nat.modulo asSystemStatus]; rewrite <- Hkeeps.
      destruct (keeps proceedOn (Http status statusText data)) eqn:Hp.
      * match goal with
        | |- context [monitor _ _ _ ?d _ ?t] =>
            destruct (IH d t k1 HI) as (evs & k' & Htr & Hrun & Hres)
        end.
        rewrite Htr.
        eexists _, k'; split; [flat; reflexivity|].
        cbn [run]; rewrite quiet_step by reflexivity; rewrite Hk1.
        cbn [run]; rewrite quiet_step by reflexivity; auto.
      * eexists _, k1; flat; split; [reflexivity|].
        cbn [run]; rewrite quiet_step by reflexivity; rewrite Hk1.
        cbn [run]; rewrite quiet_step by reflexivity; split; [reflexivity|].
        apply HF; reflexivity.
    + destruct (on_failure k (Http status statusText data) Hk E2xx) as (k1 & Hk1 & HE).
      eexists _, k1; cbn -[Nat.modulo]; flat; split; [reflexivity|].
      cbn [run]; rewrite quiet_step by reflexivity; rewrite Hk1.
      cbn [run]; rewrite quiet_step by reflexivity; auto.
Qed.
End MonitorRules.

Lemma tri_monitorLoading_inv St step E
    (quiet_step : forall k e, isQuiet e = true -> step k e = Some k)
    (Inv Final : St -> Prop) n k :
  (forall k r, Inv k -> succeeds r = true ->
     exists k1, step k (Exchange (getStatus_request n) r) = Some k1 /\
                Inv k1 /\ (keeps isLoading r = false -> Final k1)) ->
  (forall k r, Inv k -> succeeds r = false ->
     exists k1, step k (Exchange (getStatus_request n) r) = Some k1 /\ E k1 (Exited (-1))) ->
  (forall k, Inv k ->
     exists k0, step k (Sent (getStatus_request n)) = Some k0 /\ E k0 Awaiting) ->
  Inv k ->
  tri St step E k (monitorLoading n) (fun _ k' => Final k').
Proof.
  intros Hs Hf Hn Hk w; unfold monitorLoading.
  destruct (monitor_invariant St step E quiet_step Inv Final isLoading n Hs Hf Hn
              "Loading data" (script w) 0 (trace w) k Hk) as (evs & k' & Htr & Hrun & Hres).
  exists evs, k'; auto.
Qed.

Lemma tri_monitorIndexing_inv St step E
    (quiet_step : forall k e, isQuiet e = true -> step k e = Some k)
    (Inv Final : St -> Prop) n k :
  (forall k r, Inv k -> succeeds r = true ->
     exists k1, step k (Exchange (getStatus_request n) r) = Some k1 /\
                Inv k1 /\ (keeps notReady r = false -> Final k1)) ->
  (forall k r, Inv k -> succeeds r = false ->
     exists k1, step k (Exchange (getStatus_request n) r) = Some k1 /\ E k1 (Exited (-1))) ->
  (forall k, Inv k ->
     exists k0, step k (Sent (getStatus_request n)) = Some k0 /\ E k0 Awaiting) ->
  Inv k ->
  tri St step E k (monitorIndexing n) (fun _ k' => Final k').
Proof.
  intros Hs Hf Hn Hk w; unfold monitorIndexing.
  destruct (monitor_invariant St step E quiet_step Inv Final notReady n Hs Hf Hn
              "Indexing" (script w) 0 (trace w) k Hk) as (evs & k' & Htr & Hrun & Hres).
  exists evs, k'; auto.
Qed.

(** ** Failures that decide the fate of a run *)

Lemma fateStep_quiet k e : isQuiet e = true -> fateStep k e = Some k.
Proof. now destruct e. Qed.

Abbreviation ftri := (tri Fate fateStep fateHalt).

Ltac fhalts := first [ exact I | reflexivity ].

(** A status poll does not move the fine state unless it fails. *)
Ltac fmonitor rule :=
  apply (tri_quiet_bind _ _ _);
  [ apply (rule Fate fateStep fateHalt fateStep_quiet (fun k => k = Fine)
             (fun k => k = Fine));
    [ intros ? r -> Hr; exists Fine; unfold fateStep; rewrite Hr; auto
    | intros ? r -> Hr; exists MustExit; unfold fateStep; rewrite Hr; split; reflexivity
    | intros ? ->; exists Fine; split; [reflexivity | exact I]
    | reflexivity ]
  | intros _ ].

Ltac fstep :=
  lazymatch goal with
  | |- tri _ _ _ _ (bind (monitorLoading _) _) _ => fmonitor tri_monitorLoading_inv
  | |- tri _ _ _ _ (bind (monitorIndexing _) _) _ => fmonitor tri_monitorIndexing_inv
  | |- _ =>
      tstep fateStep_quiet ltac:(fhalts)
        ltac:(unfold fateStep, fate, isExiting, succeeds; cbn)
  end.

Ltac fwalk := unfold_console; cbn [forEach]; repeat fstep; try reflexivity.

Lemma displayResults_fate rt cfg records :
  forall resultNum,
    ftri Fine (displayResults rt cfg resultNum records) (fun _ k' => k' = Fine).
Proof.
  induction records as [|item rest IH]; intros resultNum; cbn [displayResults].
  - now apply tri_ret.
  - unfold_console; repeat fstep; apply IH.
Qed.

Lemma step2_fate uri cfg : ftri Fine (step2 uri cfg) (fun _ k' => k' = Fine).
Proof.
  unfold step2; unfold_console.
  fstep. apply (tri_tryCatch _ _ _).
  - fwalk.
  - intros message cause [| |] Hk; try discriminate Hk; fwalk.
Qed.

Lemma loadDataset_fate rt uri n config :
  ftri Fine (loadDataset rt uri n config) (fun _ k' => k' = Fine).
Proof.
  destruct config as [cfg|]; cbn [loadDataset]; [|fwalk].
  apply (tri_quiet_bind _ _ _); [unfold step0; fwalk | intros _].
  apply (tri_quiet_bind _ _ _); [apply step2_fate | intros _].
  apply (tri_quiet_bind _ _ _); [|intros _].
  { unfold step3; unfold_console.
    destruct (readFileSync rt (DatasetConfig.filePath cfg)) as [content|message] eqn:Hread.
    - fwalk.
    - unfold analyze; rewrite Hread; fwalk. }
  apply (tri_quiet_bind _ _ _); [unfold step4; fwalk | intros _].
  apply (tri_quiet_bind _ _ _); [|intros _].
  { unfold step5; unfold_console; repeat fstep.
    apply (tri_forEach _ _ _); intros;
      apply (tri_emit _ _ _ fateStep_quiet); reflexivity. }
  apply (tri_quiet_bind _ _ _); [unfold step6; fwalk | intros _].
  apply (tri_quiet_bind _ _ _); [unfold step7; fwalk | intros _].
  apply (tri_quiet_bind _ _ _); [unfold step8; fwalk | intros _].
  apply (tri_quiet_bind _ _ _); [unfold step9; fwalk | intros _].
  apply (tri_quiet_bind _ _ _); [unfold step10; fwalk | intros _].
  apply (tri_quiet_bind _ _ _); [unfold createFilters; fwalk | intros _].
  apply (tri_quiet_bind _ _ _); [|intros numberOfRecords].
  { unfold step11; unfold_console.
    destruct (statSync rt (DatasetConfig.filePath cfg)) as [size|message] eqn:Hstat.
    - fwalk.
    - unfold loadStreamAsync; rewrite Hstat; fwalk. }
  apply (tri_quiet_bind _ _ _); [unfold step12; fwalk | intros _].
  apply (tri_quiet_bind _ _ _); [|intros resultsCount; fwalk].
  unfold step13; unfold_console; repeat fstep.
  apply (tri_quiet_bind _ _ _); [apply displayResults_fate|].
  intros _; fwalk.
Qed.

Lemma fateStep_decided st post :
  st <> Fine ->
  forall k', run Fate fateStep st post = Some k' -> requests post = [] /\ k' = st.
Proof.
  intros Hst; induction post as [|e post IH]; intros k' Hrun; cbn in Hrun.
  - injection Hrun as <-; auto.
  - destruct e; cbn in Hrun; try (destruct st; try contradiction; discriminate); cbn; auto.
Qed.

Lemma fateStep_sound pre :
  forall k rq rs post k',
    run Fate fateStep k (pre ++ Exchange rq rs :: post) = Some k' ->
    succeeds rs = false -> fate rq <> Fine ->
    requests post = [] /\ k' = fate rq.
Proof.
  induction pre as [|e pre IH]; intros k rq rs post k' Hrun Hrs Hrq;
    cbn [run app fateStep] in Hrun.
  - destruct k; try discriminate.
    rewrite Hrs in Hrun.
    now apply fateStep_decided in Hrun.
  - destruct (fateStep k e) as [k1|] eqn:Hstep; [|discriminate].
    eapply IH; eauto.
Qed.

(** X1. In every run of [loadDataset], a failed call is the last request of
    the run when it is one that decides its fate: after a failed call of one
    of the six phases (open, analyze, the five set calls, load, index,
    search) [loadDataset] returns; after a failed status poll, field list,
    re-read or document fetch the process exits with code -1. *)
Theorem failure_is_final (rt : Runtime) (uri n : string) (config : option DatasetConfig.t)
    (responses : list Response) (pre : Trace) (rq : Request) (rs : Response) (post : Trace) :
  trace (world_of (loadDataset rt uri n config (start responses)))
    = pre ++ Exchange rq rs :: post ->
  succeeds rs = false ->
  fate rq <> Fine ->
  requests post = [] /\
  stop_of (loadDataset rt uri n config (start responses))
    = Some (match fate rq with
            | MustExit => Exited (-1)
            | _ => Returned
            end).
Proof.
  intros Hsplit Hrs Hrq.
  destruct (loadDataset_fate rt uri n config (start responses))
    as (evs & k' & Htr & Hrun & Hres).
  cbn in Htr; rewrite Htr in Hsplit; subst evs.
  destruct (fateStep_sound pre Fine rq rs post k' Hrun Hrs Hrq) as [Hpost ->].
  split; [exact Hpost|].
  destruct (loadDataset rt uri n config (start responses)) as [a w|s w]; cbn.
  - rewrite Hres in Hrq; contradiction.
  - destruct (fate rq); cbn in Hres; [contradiction | now subst | now subst].
Qed.

(** Everything succeeds up to the load request, which the service refuses. *)
Lemma failure_is_final_witness :
  requests [Printed error "Failed to load data"] = [] /\
  stop_of (loadDataset sampleRuntime "u" "tmdb" (Some tmdb)
             (start (repeat ok 14 ++ [serverError; ok])))
    = Some Returned.
Proof.
  apply (failure_is_final sampleRuntime "u" "tmdb" (Some tmdb)
           (repeat ok 14 ++ [serverError; ok])
           (firstn 47 (trace (world_of
              (loadDataset sampleRuntime "u" "tmdb" (Some tmdb)
                 (start (repeat ok 14 ++ [serverError; ok]))))))
           (Build_Request PUT "api/LoadStream/tmdb" (FileStream "data/tmdb_top10k.json")
              [("Content-Type", "text/plain"); ("Content-Length", "1")])
           serverError
           [Printed error "Failed to load data"]);
    [reflexivity | reflexivity | discriminate].
Defined.

(** ** The order of the calls *)

Lemma rankStep_quiet k e : isQuiet e = true -> rankStep k e = Some k.
Proof. now destruct e. Qed.

Abbreviation ktri := (tri nat rankStep anyStop).

Ltac kstep :=
  tstep rankStep_quiet ltac:(exact I) ltac:(unfold rankStep, rank, succeeds; cbn).

Ltac kwalk := unfold_console; cbn [forEach]; repeat kstep; try reflexivity.

Lemma displayResults_rank rt cfg k records :
  forall resultNum, ktri k (displayResults rt cfg resultNum records) (fun _ k' => k' = k).
Proof.
  induction records as [|item rest IH]; intros resultNum; cbn [displayResults].
  - now apply tri_ret.
  - unfold_console; repeat kstep; apply IH.
Qed.

Lemma step2_rank uri cfg : ktri 0 (step2 uri cfg) (fun _ k' => k' = 1).
Proof.
  unfold step2; unfold_console.
  kstep. apply (tri_tryCatch _ _ _).
  - kwalk.
  - intros message cause k' _; kwalk.
Qed.

Lemma step3_rank rt cfg : ktri 1 (step3 rt cfg) (fun _ k' => k' = 2).
Proof.
  unfold step3; unfold_console.
  destruct (readFileSync rt (DatasetConfig.filePath cfg)) as [content|message] eqn:Hread.
  - kwalk.
  - unfold analyze; rewrite Hread; kwalk.
Qed.

Lemma step5_rank cfg : ktri 3 (step5 cfg) (fun _ k' => k' = 4).
Proof.
  unfold step5; unfold_console; repeat kstep.
  eapply tri_post.
  - apply (tri_forEach _ _ _); intros; apply (tri_emit _ _ _ rankStep_quiet); reflexivity.
  - auto.
Qed.

Lemma createFilters_rank cfg :
  ktri 13 (createFilters cfg) (fun _ k' => In k' [13; 14; 15; 16; 17]).
Proof.
  unfold createFilters; unfold_console; repeat kstep; cbn; tauto.
Qed.

Lemma step11_rank rt cfg k :
  In k [13; 14; 15; 16; 17] -> ktri k (step11 rt cfg) (fun _ k' => k' = 19).
Proof.
  intros Hk; unfold step11; unfold_console.
  destruct (statSync rt (DatasetConfig.filePath cfg)) as [size|message] eqn:Hstat.
  - cbn in Hk; decompose [or] Hk; subst; try contradiction; kwalk.
  - unfold loadStreamAsync; rewrite Hstat; kwalk.
Qed.

Lemma step13_rank rt cfg : ktri 20 (step13 rt cfg) (fun _ k' => k' = 21).
Proof.
  unfold step13; unfold_console; repeat kstep.
  apply (tri_quiet_bind _ _ _); [apply displayResults_rank|].
  intros _; kwalk.
Qed.

Lemma loadDataset_rank rt uri n config :
  ktri 0 (loadDataset rt uri n config) (fun _ _ => True).
Proof.
  destruct config as [cfg|]; cbn [loadDataset]; [|kwalk].
  apply (tri_quiet_bind _ _ _); [unfold step0; kwalk | intros _].
  eapply tri_bind; [apply step2_rank|]; intros _ ? ->.
  eapply tri_bind; [apply step3_rank|]; intros _ ? ->.
  eapply tri_bind with (Q := fun _ k' => k' = 3); [unfold step4; kwalk|]; intros _ ? ->.
  eapply tri_bind; [apply step5_rank|]; intros _ ? ->.
  eapply tri_bind with (Q := fun _ k' => k' = 5); [unfold step6; kwalk|]; intros _ ? ->.
  eapply tri_bind with (Q := fun _ k' => k' = 6); [unfold step7; kwalk|]; intros _ ? ->.
  eapply tri_bind with (Q := fun _ k' => k' = 7); [unfold step8; kwalk|]; intros _ ? ->.
  eapply tri_bind with (Q := fun _ k' => k' = 8); [unfold step9; kwalk|]; intros _ ? ->.
  eapply tri_bind with (Q := fun _ k' => k' = 13); [unfold step10; kwalk|]; intros _ ? ->.
  eapply tri_bind; [apply createFilters_rank|]; intros ? k Hk; cbv beta in Hk.
  eapply tri_bind; [apply (step11_rank rt cfg k Hk)|]; intros numberOfRecords ? ->.
  eapply tri_bind with (Q := fun _ k' => k' = 20); [unfold step12; kwalk|]; intros _ ? ->.
  eapply tri_bind; [apply step13_rank|]; intros resultsCount ? _.
  kwalk; exact I.
Qed.

Lemma rankStep_grows evs :
  forall k k', run nat rankStep k evs = Some k' -> (k <= k')%nat.
Proof.
  induction evs as [|e evs IH]; intros k k' Hrun; cbn [run] in Hrun.
  - injection Hrun as <-; lia.
  - destruct (rankStep k e) as [k1|] eqn:Hstep; [|discriminate].
    apply IH in Hrun.
    unfold rankStep in Hstep.
    destruct (request_of e) as [rq|]; [|injection Hstep as <-; lia].
    destruct (rank rq) as [r|]; [|injection Hstep as <-; lia].
    destruct (Nat.ltb_spec k r); [|discriminate].
    injection Hstep as <-; lia.
Qed.

Lemma rankStep_ranked k e rq r k1 :
  request_of e = Some rq -> rank rq = Some r ->
  rankStep k e = Some k1 -> (k < r)%nat /\ k1 = r.
Proof.
  intros He Hr; unfold rankStep; rewrite He, Hr.
  destruct (Nat.ltb_spec k r); [|discriminate].
  intros [= <-]; auto.
Qed.

Lemma rankStep_sound pre :
  forall k e1 mid e2 post k' rq1 r1 rq2 r2,
    run nat rankStep k (pre ++ e1 :: mid ++ e2 :: post) = Some k' ->
    request_of e1 = Some rq1 -> rank rq1 = Some r1 ->
    request_of e2 = Some rq2 -> rank rq2 = Some r2 ->
    (r1 < r2)%nat.
Proof.
  induction pre as [|e pre IH]; intros k e1 mid e2 post k' rq1 r1 rq2 r2 Hrun H1 Hr1 H2 Hr2.
  - cbn [app run] in Hrun.
    destruct (rankStep k e1) as [k1|] eqn:Hstep; [|discriminate].
    destruct (rankStep_ranked _ _ _ _ _ H1 Hr1 Hstep) as [_ ->].
    rewrite run_app in Hrun.
    destruct (run nat rankStep r1 mid) as [k2|] eqn:Hmid; [|discriminate].
    apply rankStep_grows in Hmid.
    cbn [run] in Hrun.
    destruct (rankStep k2 e2) as [k3|] eqn:Hstep2; [|discriminate].
    destruct (rankStep_ranked _ _ _ _ _ H2 Hr2 Hstep2) as [Hlt _]; lia.
  - cbn [app run] in Hrun.
    destruct (rankStep k e) as [k1|] eqn:Hstep; [|discriminate].
    eapply IH; eauto.
Qed.

(** X2. [loadDataset] makes each of its calls other than the status poll and
    the document fetch once at most, and in the order of the source: of two
    such calls of a run, the later one stands later in [callOrder].  No call
    is tried again, and none goes out before its turn. *)
Theorem calls_in_order (rt : Runtime) (uri n : string) (config : option DatasetConfig.t)
    (responses : list Response) (pre : Trace) (e1 : Event) (mid : Trace) (e2 : Event)
    (post : Trace) (rq1 rq2 : Request) (r1 r2 : nat) :
  trace (world_of (loadDataset rt uri n config (start responses)))
    = pre ++ e1 :: mid ++ e2 :: post ->
  request_of e1 = Some rq1 -> rank rq1 = Some r1 ->
  request_of e2 = Some rq2 -> rank rq2 = Some r2 ->
  (r1 < r2)%nat.
Proof.
  intros Hsplit H1 Hr1 H2 Hr2.
  destruct (loadDataset_rank rt uri n config (start responses))
    as (evs & k' & Htr & Hrun & _).
  cbn in Htr; rewrite Htr in Hsplit; subst evs.
  exact (rankStep_sound pre 0 e1 mid e2 post k' rq1 r1 rq2 r2 Hrun H1 Hr1 H2 Hr2).
Qed.

(** In the run in which everything succeeds, the call that opens the dataset
    comes before the one that builds the index. *)
Lemma calls_in_order_witness :
  rank (put "api/CreateOrOpen/pokedex" (TextBody "")) = Some 1%nat /\
  rank (get "api/IndexDataSet/pokedex") = Some 20%nat /\
  (1 < 20)%nat.
Proof.
  split; [reflexivity|]; split; [reflexivity|].
  apply (calls_in_order sampleRuntime "u" "pokedex" (Some pokedex) allFine
           (firstn 5 (trace (world_of
              (loadDataset sampleRuntime "u" "pokedex" (Some pokedex) (start allFine)))))
           (Exchange (put "api/CreateOrOpen/pokedex" (TextBody "")) ok)
           (firstn 58 (skipn 6 (trace (world_of
              (loadDataset sampleRuntime "u" "pokedex" (Some pokedex) (start allFine))))))
           (Exchange (get "api/IndexDataSet/pokedex") ok)
           (skipn 65 (trace (world_of
              (loadDataset sampleRuntime "u" "pokedex" (Some pokedex) (start allFine)))))
           (put "api/CreateOrOpen/pokedex" (TextBody ""))
           (get "api/IndexDataSet/pokedex") 1%nat 20%nat);
    reflexivity.
Defined.

(** ** The surface of [loadDataset] and the ways it ends *)

Lemma surfaceStep_quiet n k e : isQuiet e = true -> surfaceStep n k e = Some k.
Proof. destruct k; now destruct e. Qed.

Ltac shalts :=
  first
    [ left; reflexivity
    | right; left; reflexivity
    | right; right; left; reflexivity
    | right; right; right; eexists _, _; split; [reflexivity|]; split; [reflexivity|];
      first
        [ left; eassumption
        | right; refine (ex_intro _ _ (conj _ eq_refl));
          unfold nullReads; cbn; auto 6 ] ].

Ltac ssteps :=
  unfold surfaceStep, onSurface, surface; cbn; rewrite ?String.eqb_refl; cbn.

Ltac smonitor rule :=
  apply (tri_quiet_bind _ _ _);
  [ apply (rule unit (surfaceStep _) (loaderHalt _ _) (surfaceStep_quiet _)
             (fun k => k = tt) (fun k => k = tt));
    [ intros ? r -> Hr; exists tt; ssteps; auto
    | intros ? r -> Hr; exists tt; ssteps; split; [reflexivity | shalts]
    | intros ? ->; exists tt; ssteps; split; [reflexivity | shalts]
    | reflexivity ]
  | intros _ ].

(** The transition on a request of the surface does not compute: it ends
    in the comparison of the dataset name with itself. *)
Ltac ssend :=
  eapply (tri_sends_bind _ _ _ (surfaceStep_quiet _));
  [ sends_lemma
  | exists tt; split; [ssteps; reflexivity | shalts]
  | let r := fresh "r" in
    intros r; split_response r; exists tt;
    (split;
     [ ssteps; reflexivity
     | cbn -[Nat.modulo displayResults];
       repeat match goal with H : is2xx _ = _ |- _ => rewrite H end;
       cbn -[Nat.modulo displayResults]; try shalts ]) ].

Ltac sstep :=
  lazymatch goal with
  | |- tri _ _ _ _ (bind (monitorLoading _) _) _ => smonitor tri_monitorLoading_inv
  | |- tri _ _ _ _ (bind (monitorIndexing _) _) _ => smonitor tri_monitorIndexing_inv
  | |- tri _ (surfaceStep ?n) _ _ _ _ =>
      first [ tstep (surfaceStep_quiet n) ltac:(shalts) ltac:(ssteps) | ssend ]
  end.

Ltac swalk := unfold_console; cbn [forEach]; repeat sstep; try reflexivity.

Section Surface.
Variable rt : Runtime.
Variable cfg : DatasetConfig.t.

Abbreviation stri := (tri unit (surfaceStep (DatasetConfig.name cfg)) (loaderHalt rt (Some cfg))).

Lemma displayResults_surface records :
  forall resultNum, stri tt (displayResults rt cfg resultNum records) (fun _ k' => k' = tt).
Proof.
  induction records as [|item rest IH]; intros resultNum; cbn [displayResults].
  - now apply tri_ret.
  - unfold_console; repeat sstep; apply IH.
Qed.

Lemma step2_surface uri : stri tt (step2 uri cfg) (fun _ k' => k' = tt).
Proof.
  unfold step2; unfold_console.
  sstep. apply (tri_tryCatch _ _ _).
  - swalk.
  - intros message cause [] _; swalk.
Qed.

Lemma loadDataset_surface uri n :
  stri tt (loadDataset rt uri n (Some cfg)) (fun _ k' => k' = tt).
Proof.
  cbn [loadDataset].
  apply (tri_quiet_bind _ _ _); [|intros _].
  { unfold step0; unfold_console.
    destruct (statSync rt (DatasetConfig.filePath cfg)) as [size|message] eqn:Hstat; swalk. }
  apply (tri_quiet_bind _ _ _); [apply step2_surface | intros _].
  apply (tri_quiet_bind _ _ _); [|intros _].
  { unfold step3; unfold_console.
    destruct (readFileSync rt (DatasetConfig.filePath cfg)) as [content|message] eqn:Hread.
    - swalk.
    - unfold analyze; rewrite Hread; swalk. }
  apply (tri_quiet_bind _ _ _); [unfold step4; swalk | intros _].
  apply (tri_quiet_bind _ _ _); [|intros _].
  { unfold step5; unfold_console; repeat sstep.
    apply (tri_forEach _ _ _); intros;
      apply (tri_emit _ _ _ (surfaceStep_quiet _)); reflexivity. }
  apply (tri_quiet_bind _ _ _); [unfold step6; swalk | intros _].
  apply (tri_quiet_bind _ _ _); [unfold step7; swalk | intros _].
  apply (tri_quiet_bind _ _ _); [unfold step8; swalk | intros _].
  apply (tri_quiet_bind _ _ _); [unfold step9; swalk | intros _].
  apply (tri_quiet_bind _ _ _); [unfold step10; swalk | intros _].
  apply (tri_quiet_bind _ _ _); [unfold createFilters; swalk | intros _].
  apply (tri_quiet_bind _ _ _); [|intros numberOfRecords].
  { unfold step11; unfold_console.
    destruct (statSync rt (DatasetConfig.filePath cfg)) as [size|message] eqn:Hstat.
    - swalk.
    - unfold loadStreamAsync; rewrite Hstat; swalk. }
  apply (tri_quiet_bind _ _ _); [unfold step12; swalk | intros _].
  apply (tri_quiet_bind _ _ _); [|intros resultsCount; swalk].
  unfold step13; unfold_console; repeat sstep.
  apply (tri_quiet_bind _ _ _); [apply displayResults_surface|].
  intros _; swalk.
Qed.
End Surface.

Lemma surfaceStep_sound n evs :
  forall k k', run unit (surfaceStep n) k evs = Some k' ->
    forall rq, In rq (requests evs) -> onSurface n rq = true.
Proof.
  induction evs as [|e evs IH]; intros k k' Hrun rq Hin; cbn [run requests] in *.
  - destruct Hin.
  - destruct (surfaceStep n k e) as [k1|] eqn:Hstep; [|discriminate].
    unfold surfaceStep in Hstep.
    destruct (request_of e) as [rq0|]; [|eauto].
    destruct Hin as [<-|Hin]; [|eauto].
    destruct (onSurface n rq0); [reflexivity|discriminate].
Qed.

Lemma Method_eqb_eq a b : Method_eqb a b = true -> a = b.
Proof. destruct a, b; cbn; congruence. Qed.

Lemma onSurface_spec n rq :
  onSurface n rq = true ->
  exists prefix, In (method rq, prefix) surface /\ url rq = (prefix ++ n)%string.
Proof.
  unfold onSurface; intros H.
  apply existsb_exists in H; destruct H as ([m prefix] & Hin & H).
  apply andb_prop in H; destruct H as [Hm Hu]; cbn [fst snd] in *.
  apply Method_eqb_eq in Hm; apply String.eqb_eq in Hu.
  exists prefix; rewrite Hm; auto.
Qed.

(** X3. Every request of a run of [loadDataset] is one of the 23 calls of
    [surface], with the method listed there, and its URL is the listed route
    followed by the name of the descriptor: nothing is deleted or cleared,
    and no other dataset than the configured one is addressed, whatever name
    the caller passes. *)
Theorem requests_on_surface (rt : Runtime) (uri n : string) (cfg : DatasetConfig.t)
    (responses : list Response) (rq : Request) :
  In rq (requests (trace (world_of (loadDataset rt uri n (Some cfg) (start responses))))) ->
  exists prefix,
    In (method rq, prefix) surface /\ url rq = (prefix ++ DatasetConfig.name cfg)%string.
Proof.
  intros Hin.
  destruct (loadDataset_surface rt cfg uri n (start responses))
    as (evs & k' & Htr & Hrun & _).
  change (trace (start responses) ++ evs) with evs in Htr; rewrite Htr in Hin.
  apply onSurface_spec.
  exact (surfaceStep_sound _ evs tt k' Hrun rq Hin).
Qed.

Lemma requests_on_surface_witness :
  exists prefix,
    In (GET, prefix) surface /\ "api/IndexDataSet/pokedex" = (prefix ++ "pokedex")%string.
Proof.
  apply (requests_on_surface sampleRuntime "u" "another" pokedex allFine
           (get "api/IndexDataSet/pokedex")).
  vm_compute; repeat (first [left; reflexivity | right]).
Defined.



(** ** The test search waits for the index *)

Lemma readyStep_quiet k e : isQuiet e = true -> readyStep k e = Some k.
Proof. now destruct e. Qed.

Abbreviation ytri := (tri bool readyStep anyEnd).

Ltac ysteps :=
  unfold readyStep, isSearch, isGetStatus, endsWait, observed, nullBody, succeeds; cbn.

Ltac ystep :=
  tstep readyStep_quiet ltac:(exact I) ltac:(ysteps).

Ltac ywalk := unfold_console; cbn [forEach]; repeat ystep; try reflexivity.

(** Whatever the state before, a monitor leaves the state [Final] asks for
    when each successful poll that ends it does. *)
Ltac ymonitor rule Final :=
  eapply tri_bind;
  [ apply (rule bool readyStep anyEnd readyStep_quiet (fun _ => True) Final);
    [ let r := fresh "r" in
      let Hr := fresh "Hr" in
      intros ? r _ Hr; eexists; split; [reflexivity|]; split; [exact I|];
      try (intros _; exact I)
    | intros ? r _ Hr; eexists; split; [reflexivity | exact I]
    | intros ? _; eexists; split; [reflexivity | exact I]
    | exact I ]
  | ].

Lemma endsWait_spec r :
  endsWait r = true <-> observed r = Some SystemState.Ready \/ nullBody r = true.
Proof.
  pose proof (observed_cases r) as Hc; unfold endsWait.
  destruct (observed r) as [s|].
  - rewrite SystemState_eqb_eq; destruct Hc as [_ Hn]; split.
    + intros ->; now left.
    + intros [H|H]; [now injection H | congruence].
  - split; [now right | now intros [H|H]].
Qed.

Lemma keeps_notReady_ends r :
  succeeds r = true -> keeps notReady r = false -> endsWait r = true.
Proof.
  intros Hs Hk; apply endsWait_spec.
  apply endsIndexing in Hk as [Hk|[Hk|Hk]]; [now left | now right | congruence].
Qed.

Lemma displayResults_ready rt cfg k records :
  forall resultNum, ytri k (displayResults rt cfg resultNum records) (fun _ _ => True).
Proof.
  revert k; induction records as [|item rest IH]; intros k resultNum; cbn [displayResults].
  - now apply tri_ret.
  - unfold_console; repeat ystep; apply IH.
Qed.

Lemma step2_ready uri cfg : ytri false (step2 uri cfg) (fun _ k' => k' = false).
Proof.
  unfold step2; unfold_console.
  ystep. apply (tri_tryCatch _ _ _).
  - ywalk.
  - intros message cause k' _; ywalk.
Qed.

Lemma step11_ready rt cfg : ytri false (step11 rt cfg) (fun _ k' => k' = false).
Proof.
  unfold step11; unfold_console.
  destruct (statSync rt (DatasetConfig.filePath cfg)) as [size|message] eqn:Hstat.
  - repeat ystep.
    ymonitor tri_monitorLoading_inv (fun _ : bool => True).
    intros _ k _; ywalk.
  - unfold loadStreamAsync; rewrite Hstat; ywalk.
Qed.

Lemma step12_ready rt cfg : ytri false (step12 rt cfg) (fun _ k' => k' = true).
Proof.
  unfold step12; unfold_console; repeat ystep.
  ymonitor tri_monitorIndexing_inv (fun k : bool => k = true).
  - intros Hk; ysteps; now apply keeps_notReady_ends.
  - intros _ k ->; ywalk.
Qed.

Lemma step13_ready rt cfg : ytri true (step13 rt cfg) (fun _ _ => True).
Proof.
  unfold step13; unfold_console; repeat ystep.
  eapply tri_bind; [apply displayResults_ready|].
  intros _ k _; ywalk; exact I.
Qed.

Lemma loadDataset_ready rt uri n config :
  ytri false (loadDataset rt uri n config) (fun _ _ => True).
Proof.
  destruct config as [cfg|]; cbn [loadDataset]; [|ywalk].
  apply (tri_quiet_bind _ _ _); [unfold step0; ywalk | intros _].
  apply (tri_quiet_bind _ _ _); [apply step2_ready | intros _].
  eapply tri_bind with (Q := fun _ _ => True); [|intros _ k _].
  { unfold step3; unfold_console.
    destruct (readFileSync rt (DatasetConfig.filePath cfg)) as [content|message] eqn:Hread.
    - ywalk; exact I.
    - unfold analyze; rewrite Hread; ywalk. }
  eapply tri_bind with (Q := fun _ k' => k' = false); [unfold step4; ywalk | intros _ ? ->].
  apply (tri_quiet_bind _ _ _); [|intros _].
  { unfold step5; unfold_console; repeat ystep.
    apply (tri_forEach _ _ _); intros;
      apply (tri_emit _ _ _ readyStep_quiet); reflexivity. }
  apply (tri_quiet_bind _ _ _); [unfold step6; ywalk | intros _].
  apply (tri_quiet_bind _ _ _); [unfold step7; ywalk | intros _].
  apply (tri_quiet_bind _ _ _); [unfold step8; ywalk | intros _].
  apply (tri_quiet_bind _ _ _); [unfold step9; ywalk | intros _].
  apply (tri_quiet_bind _ _ _); [unfold step10; ywalk | intros _].
  apply (tri_quiet_bind _ _ _); [unfold createFilters; ywalk | intros _].
  apply (tri_quiet_bind _ _ _); [apply step11_ready | intros numberOfRecords].
  eapply tri_bind; [apply step12_ready|]; intros _ ? ->.
  eapply tri_bind; [apply step13_ready|]; intros resultsCount k1 _.
  ywalk; exact I.
Qed.

Lemma readyStep_ready pre :
  forall k, run bool readyStep k pre = Some true ->
    (k = true /\ requests pre = []) \/
    exists before rq rs logs,
      pre = before ++ Exchange rq rs :: logs /\
      isGetStatus rq = true /\ endsWait rs = true /\ requests logs = [].
Proof.
  induction pre as [|e pre IH]; intros k Hrun; cbn [run] in Hrun.
  - injection Hrun as ->; left; auto.
  - destruct (readyStep k e) as [k1|] eqn:Hstep; [|discriminate].
    destruct (IH k1 Hrun) as [[-> Hnone]|(before & rq & rs & logs & -> & Hrq & Hrs & Hlogs)].
    + destruct e as [kind msg|rq rs|rq|ms|key value]; cbn [readyStep] in Hstep.
      * injection Hstep as ->; left; auto.
      * right; exists [], rq, rs, pre; split; [reflexivity|].
        destruct (isSearch rq); [destruct k; discriminate|].
        injection Hstep as Hstep; apply andb_prop in Hstep; tauto.
      * destruct (isSearch rq); [destruct k; discriminate | discriminate].
      * injection Hstep as ->; left; auto.
      * injection Hstep as ->; left; auto.
    + right; exists (e :: before), rq, rs, logs; auto.
Qed.

Lemma readyStep_sound pre :
  forall k e post k' rq,
    run bool readyStep k (pre ++ e :: post) = Some k' ->
    request_of e = Some rq -> isSearch rq = true ->
    run bool readyStep k pre = Some true.
Proof.
  intros k e post k' rq Hrun He Hrq.
  rewrite run_app in Hrun.
  destruct (run bool readyStep k pre) as [k1|]; [|discriminate].
  cbn [run] in Hrun.
  destruct e as [kind msg|rq0 rs|rq0|ms|key value]; try discriminate;
    injection He as ->; cbn [readyStep] in Hrun; rewrite Hrq in Hrun;
    destruct k1; [reflexivity | discriminate | reflexivity | discriminate].
Qed.

(** X5. The test search is sent only when the wait for the index is over:
    in every run of [loadDataset], the search request comes right after a
    status poll that was answered with a 2xx status and either showed the
    state Ready or had the body null, with nothing but console output in
    between. *)
Theorem search_after_wait_ends (rt : Runtime) (uri n : string)
    (config : option DatasetConfig.t) (responses : list Response)
    (pre : Trace) (e : Event) (post : Trace) (rq : Request) :
  trace (world_of (loadDataset rt uri n config (start responses))) = pre ++ e :: post ->
  request_of e = Some rq -> isSearch rq = true ->
  exists before poll answer logs,
    pre = before ++ Exchange poll answer :: logs /\
    isGetStatus poll = true /\
    succeeds answer = true /\
    (observed answer = Some SystemState.Ready \/ nullBody answer = true) /\
    requests logs = [].
Proof.
  intros Hsplit He Hrq.
  destruct (loadDataset_ready rt uri n config (start responses))
    as (evs & k' & Htr & Hrun & _).
  change (trace (start responses) ++ evs) with evs in Htr.
  rewrite Htr in Hsplit; subst evs.
  apply (readyStep_sound pre false e post k' rq) in Hrun; [|assumption|assumption].
  destruct (readyStep_ready pre false Hrun)
    as [[Hk _]|(before & poll & answer & logs & Hpre & Hpoll & Hans & Hlogs)];
    [discriminate|].
  exists before, poll, answer, logs; repeat split; try assumption.
  - apply endsWait_spec in Hans; pose proof (observed_cases answer) as Hc.
    destruct Hans as [Hans|Hans]; [rewrite Hans in Hc; tauto|].
    destruct (observed answer); [destruct Hc; congruence | congruence].
  - now apply endsWait_spec.
Qed.

(** The run in which every call succeeds and the one poll of the wait for
    the index is answered 200 with the body null: the 74th event is the
    search, and no poll has shown Ready. *)
Lemma search_after_wait_ends_witness :
  let tr := trace (world_of
              (loadDataset sampleRuntime "u" "pokedex" (Some pokedex) (start nullPoll))) in
  exists before poll answer logs,
    firstn 73 tr = before ++ Exchange poll answer :: logs /\
    isGetStatus poll = true /\
    succeeds answer = true /\
    (observed answer = Some SystemState.Ready \/ nullBody answer = true) /\
    requests logs = [].
Proof.
  cbv zeta.
  eapply (search_after_wait_ends sampleRuntime "u" "pokedex" (Some pokedex) nullPoll
            (firstn 73 (trace (world_of
               (loadDataset sampleRuntime "u" "pokedex" (Some pokedex) (start nullPoll)))))
            (nth 73 (trace (world_of
               (loadDataset sampleRuntime "u" "pokedex" (Some pokedex) (start nullPoll))))
               (Sleep 0))
            (skipn 74 (trace (world_of
               (loadDataset sampleRuntime "u" "pokedex" (Some pokedex) (start nullPoll)))))).
  - reflexivity.
  - vm_compute; reflexivity.
  - reflexivity.
Defined.

(** ** A run that reaches its end *)

Lemma step13_done rt cfg :
  ptri ("api/IndexDataSet/" :: "api/LoadStream/" :: configured) (step13 rt cfg)
    (fun _ k' => k' = "api/Search/" :: "api/IndexDataSet/" :: "api/LoadStream/" :: configured).
Proof.
  unfold step13; unfold_console; repeat pstep.
  apply (tri_quiet_bind _ _ _); [apply displayResults_phase|].
  intros _; repeat pstep; reflexivity.
Qed.

Lemma loadDataset_done rt uri n config :
  ptri [] (loadDataset rt uri n config)
    (fun _ k' => k' = "api/Search/" :: "api/IndexDataSet/" :: "api/LoadStream/" :: configured).
Proof.
  destruct config as [cfg|]; cbn [loadDataset].
  - eapply tri_bind; [apply step0_phase|]; intros _ ? ->.
    eapply tri_bind; [apply step2_phase|]; intros _ ? ->.
    eapply tri_bind; [apply step3_phase|]; intros _ ? ->.
    eapply tri_bind; [apply step4_phase|]; intros _ ? ->.
    eapply tri_bind; [apply step5_phase|]; intros _ ? ->.
    eapply tri_bind; [apply step6_phase|]; intros _ ? ->.
    eapply tri_bind; [apply step7_phase|]; intros _ ? ->.
    eapply tri_bind; [apply step8_phase|]; intros _ ? ->.
    eapply tri_bind; [apply step9_phase|]; intros _ ? ->.
    eapply tri_bind; [apply step10_phase|]; intros _ ? ->.
    eapply tri_bind; [apply createFilters_phase|]; intros _ ? ->.
    eapply tri_bind; [apply step11_phase|]; intros numberOfRecords ? ->.
    eapply tri_bind; [apply step12_phase|]; intros _ ? ->.
    eapply tri_bind; [apply step13_done|]; intros resultsCount ? ->.
    unfold_console; cbn [forEach]; repeat pstep; reflexivity.
  - unfold_console; repeat pstep.
Qed.

(** What the phase automaton knows has been answered. *)
Lemma phaseStep_known evs :
  forall known seen k',
    (forall u, In u known -> answered u seen) ->
    run (list string) phaseStep known evs = Some k' ->
    forall u, In u k' -> answered u (seen ++ evs).
Proof.
  induction evs as [|e evs IH]; intros known seen k' Hknown Hrun u Hu; cbn [run] in Hrun.
  - injection Hrun as <-; rewrite app_nil_r; auto.
  - destruct (phaseStep known e) as [k1|] eqn:Hstep; [|discriminate].
    replace (seen ++ e :: evs) with ((seen ++ [e]) ++ evs) by now rewrite <- app_assoc.
    apply (IH k1 (seen ++ [e]) k'); auto.
    intros v Hv.
    destruct e; cbn in Hstep.
    + injection Hstep as <-; now apply answered_app_l, Hknown.
    + destruct (allowed known rq); [|discriminate]; injection Hstep as <-.
      apply in_app_or in Hv as [Hv|Hv];
        [now apply gain_answered | now apply answered_app_l, Hknown].
    + destruct (allowed known rq); [|discriminate]; injection Hstep as <-.
      now apply answered_app_l, Hknown.
    + injection Hstep as <-; now apply answered_app_l, Hknown.
    + injection Hstep as <-; now apply answered_app_l, Hknown.
Qed.

(** X6. A run of [loadDataset] reaches its end, where it prints the summary,
    only when every phase has returned its success signal: the open, analyze,
    load, index and search calls and each of the five set calls were
    answered with a 2xx status. *)
Theorem end_means_success (rt : Runtime) (uri n : string) (config : option DatasetConfig.t)
    (responses : list Response) :
  stop_of (loadDataset rt uri n config (start responses)) = None ->
  Forall (fun p => completed p (trace (world_of (loadDataset rt uri n config (start responses)))))
    phases.
Proof.
  intros Hend.
  destruct (loadDataset_done rt uri n config (start responses))
    as (evs & k' & Htr & Hrun & Hres).
  change (trace (start responses) ++ evs) with evs in Htr; rewrite Htr.
  destruct (loadDataset rt uri n config (start responses)) as [a w|s w]; [|discriminate].
  subst k'.
  pose proof (phaseStep_known evs [] [] _ (fun u H => match H with end) Hrun) as Hknown.
  cbn [app] in Hknown.
  unfold phases, completed; repeat constructor; apply Hknown; cbn; tauto.
Qed.

Lemma end_means_success_witness :
  Forall (fun p => completed p (trace (world_of
            (loadDataset sampleRuntime "u" "pokedex" (Some pokedex) (start allFine)))))
    phases.
Proof.
  apply (end_means_success sampleRuntime "u" "pokedex" (Some pokedex) allFine).
  reflexivity.
Defined.

(** ** The ways [main] ends *)

Lemma stops_ret {A} (a : A) P : stops (ret a) P.
Proof. intros w s H; discriminate H. Qed.

Lemma stops_emit e P : stops (emit e) P.
Proof. intros w s H; discriminate H. Qed.

Lemma stops_halt {A} s (P : Stop -> Prop) : P s -> stops (@halt A s) P.
Proof. intros H w s' [= <-]; exact H. Qed.

Lemma stops_bind {A B} (m : M A) (g : A -> M B) P :
  stops m P -> (forall a, stops (g a) P) -> stops (bind m g) P.
Proof.
  intros Hm Hg w s; unfold bind.
  destruct (m w) as [a w'|s' w'] eqn:E.
  - apply Hg.
  - intros [= <-]; apply (Hm w); now rewrite E.
Qed.

Lemma stops_weaken {A} (m : M A) (P Q : Stop -> Prop) :
  stops m P -> (forall s, P s -> Q s) -> stops m Q.
Proof. intros H HPQ w s Hs; apply HPQ, (H w s Hs). Qed.

Lemma stops_call m P :
  stops m (fun s => s = Returned \/ P s) -> stops (call m) P.
Proof.
  intros H w s; unfold call.
  destruct (m w) as [a w'|s' w'] eqn:E; [discriminate|].
  assert (Hs' : s' = Returned \/ P s') by (apply (H w); now rewrite E).
  destruct s'; try (intros [= <-]; destruct Hs' as [Hs'|Hs']; [discriminate Hs'|exact Hs']).
  discriminate.
Qed.

Lemma stops_tryCatch {A} (body : M A) handler P :
  stops body (fun s => match s with Thrown _ _ => True | _ => P s end) ->
  (forall message cause, stops (handler message cause) P) ->
  stops (tryCatch body handler) P.
Proof.
  intros Hb Hh w s; unfold tryCatch.
  destruct (body w) as [a w'|s' w'] eqn:E; [discriminate|].
  assert (Hs' : match s' with Thrown _ _ => True | _ => P s' end)
    by (apply (Hb w); now rewrite E).
  destruct s'; try (intros [= <-]; exact Hs').
  apply Hh.
Qed.

Lemma stops_sends {A} (m : M A) rq result P :
  sends m rq result -> P Awaiting -> P (Exited (-1)) -> stops m P.
Proof.
  intros Hm Ha He [s tr] st; specialize (Hm s tr); destruct s as [|r rest].
  - rewrite Hm; intros [= <-]; exact Ha.
  - destruct Hm as (logs & _ & ->).
    destruct (result r); [discriminate|intros [= <-]; exact He].
Qed.

Ltac stops_walk :=
  unfold_console;
  repeat first
    [ apply stops_ret | apply stops_emit | apply stops_halt
    | apply stops_bind; [|intros ?]
    | match goal with
      | |- stops (if ?c then _ else _) _ => destruct c
      | |- stops (match ?c with _ => _ end) _ => destruct c
      end ].

Lemma loadDataset_leaves rt uri n config : stops (loadDataset rt uri n config) leaves.
Proof.
  intros w s Hs.
  destruct config as [cfg|]; [|cbn in Hs; now injection Hs as <-].
  destruct (loadDataset_surface rt cfg uri n w) as (evs & k' & _ & _ & Hres).
  destruct (loadDataset rt uri n (Some cfg) w) as [a w'|s' w']; [discriminate|].
  injection Hs as ->.
  destruct Hres as [->|[->|[->|(c & message & _ & -> & _)]]]; cbn; auto.
Qed.

Lemma login_leaves userEmail userPassword uri : stops (login userEmail userPassword uri) leaves.
Proof.
  unfold login, client_post; stops_walk; try exact I.
  intros [s tr] st; unfold send; cbn.
  destruct s; [intros [= <-]; exact I | discriminate].
Qed.

Lemma main_leaves rt p : stops (main rt p) ends.
Proof.
  unfold main; apply stops_tryCatch.
  - apply stops_call.
    apply stops_bind; [unfold selectDataset, showInteractiveMenu; stops_walk; auto|].
    intros dataset.
    apply stops_bind; [stops_walk; auto|]; intros _.
    apply stops_bind.
    + destruct (negb _); [unfold setBearerToken; stops_walk|].
      destruct (_ && _); [|stops_walk; auto].
      unfold_console; apply stops_bind; [apply stops_emit|]; intros _.
      apply stops_bind; [|intros token; stops_walk; auto].
      eapply stops_weaken; [apply login_leaves|].
      intros [| | |]; cbn; intros; subst; unfold ends; auto 6.
    + intros _; apply stops_call.
      eapply stops_weaken; [apply loadDataset_leaves|].
      intros [| | |]; cbn; intros; subst; unfold ends; auto 6.
  - intros message cause; stops_walk; left; reflexivity.
Qed.

(** [main] does not throw: the handler of the entry point is never run. *)
Lemma entryPoint_handler_idle rt p w : entryPoint rt Parsed p w = main rt p w.
Proof.
  unfold entryPoint, tryCatch, parse, bind, ret.
  pose proof (main_leaves rt p w) as H.
  destruct (main rt p w) as [a w'|s w']; [reflexivity|].
  destruct (H s eq_refl) as [->| ->]; reflexivity.
Qed.

(** X7. How the program ends.  When commander refuses the command line,
    it ends the process before anything else is done: with the exit code 0
    after the help or the version, with the exit code 1 after a usage error.
    When the command line is parsed, the run is that of [main] from its try
    statement on, and it ends in one of two ways: normally, with the exit
    code of a process that has nothing left to do, or by ending the process
    with the exit code -1.  (That it may also be waiting for a response is
    the model's way of saying that the service has not answered yet.)  [main]
    never throws, so the handler that the entry point attaches to it is never
    run. *)
Theorem program_ends (rt : Runtime) (commandLine : CommandLine) (p : Process)
    (responses : list Response) :
  let res := entryPoint rt commandLine p (start responses) in
  match commandLine with
  | Parsed =>
      res = main rt p (start responses) /\
      (stop_of res = None \/ stop_of res = Some (Exited (-1)) \/
       stop_of res = Some Awaiting)
  | Help | Version => res = Halt (Exited 0) (start responses)
  | UsageError => res = Halt (Exited 1) (start responses)
  end.
Proof.
  cbv zeta; destruct commandLine; try reflexivity.
  rewrite entryPoint_handler_idle; split; [reflexivity|].
  destruct (stop_of (main rt p (start responses))) as [s|] eqn:E; [|now left].
  destruct (main_leaves rt p (start responses) s E) as [->| ->]; auto.
Qed.

(** ** Authentication in [main] *)

Lemma orElse_given v s : v = Some s -> s <> "" -> orElse v "" = s.
Proof.
  intros -> Hs; cbn.
  destruct (String.eqb_spec s ""); [contradiction | reflexivity].
Qed.

Lemma eqb_nonempty s : s <> "" -> String.eqb s "" = false.
Proof. intros Hs; destruct (String.eqb_spec s ""); [contradiction | reflexivity]. Qed.

Lemma getConfig_name d cfg :
  getConfig d = Some cfg -> DatasetConfig.name cfg = toLowerCase d.
Proof.
  unfold getConfig.
  destruct (String.eqb_spec (toLowerCase d) "tmdb") as [->|_]; [now intros [= <-]|].
  destruct (String.eqb_spec (toLowerCase d) "pokedex") as [->|_]; [now intros [= <-]|].
  discriminate.
Qed.

Lemma requests_outcome r :
  requests (trace (world_of (outcome r))) = requests (trace (world_of r)).
Proof.
  destruct r as [a w|[| |message [cause|]|] w]; cbn; try reflexivity;
    rewrite requests_app; cbn; now rewrite app_nil_r.
Qed.

Lemma script_outcome r : script (world_of (outcome r)) = script (world_of r).
Proof. now destruct r as [a w|[| | |] w]. Qed.

Ltac by_outcome :=
  match goal with
  | |- context [loadDataset ?rt ?uri ?d ?config ?w0] =>
      destruct (loadDataset rt uri d config w0) as [[] ?w|[| |?message [?cause|]|] ?w];
      cbn; flat; reflexivity
  end.

(** With a bearer token [main] goes straight to [loadDataset]. *)
Lemma main_with_token rt p d cfg token responses :
  selected p = Some d -> getConfig d = Some cfg ->
  BEARER_TOKEN p = Some token -> token <> "" ->
  exists logs,
    forallb isPrinted logs = true /\
    main rt p (start responses) =
      outcome
        (loadDataset rt (orElse (API_URI p) "https://localhost:5001/") d (Some cfg)
           (mkWorld responses
              (logs ++
               [Default "baseURL" (orElse (API_URI p) "https://localhost:5001/");
                Default "Content-Type" "application/json";
                Default "Accept" "application/json";
                Default "Authorization" ("Bearer " ++ token)]))).
Proof.
  intros Hsel Hcfg Htoken Hne.
  destruct (selection_selected p d (start responses) Hsel) as (logs & Hlogs & Hselect).
  exists logs; split; [exact Hlogs|].
  unfold main, tryCatch, call.
  rewrite (bind_ok _ _ _ _ _ Hselect), Hcfg, (orElse_given _ _ Htoken Hne),
    (eqb_nonempty _ Hne).
  cbn [negb]; unfold_console; unfold setBearerToken.
  cbn -[loadDataset]; flat.
  by_outcome.
Qed.

Lemma off_surface m prefix n : In (m, prefix) surface -> (prefix ++ n)%string <> "api/login".
Proof.
  intros Hin Heq; cbn in Hin.
  repeat (destruct Hin as [Hin|Hin]; [injection Hin as <- <-; discriminate Heq|]).
  exact Hin.
Qed.

Lemma loadDataset_requests rt uri n cfg w rq :
  In rq (requests (trace (world_of (loadDataset rt uri n (Some cfg) w)))) ->
  In rq (requests (trace w)) \/
  exists prefix, In (method rq, prefix) surface /\
                 url rq = (prefix ++ DatasetConfig.name cfg)%string.
Proof.
  destruct (loadDataset_surface rt cfg uri n w) as (evs & k' & -> & Hrun & _).
  rewrite requests_app; intros Hin; apply in_app_or in Hin as [Hin|Hin]; [now left|].
  right; apply onSurface_spec.
  exact (surfaceStep_sound _ evs tt k' Hrun rq Hin).
Qed.

(** X8. With a bearer token in the environment [main] does not log in, even
    when an email and a password are there as well: the token is made the
    Authorization default of the client before anything is sent, and every
    request of the run is one of the calls of [loadDataset] for the
    lower-cased dataset name; none goes to api/login. *)
Theorem bearer_token_skips_login (rt : Runtime) (p : Process) (d : string)
    (cfg : DatasetConfig.t) (token : string) (responses : list Response) :
  selected p = Some d -> getConfig d = Some cfg ->
  BEARER_TOKEN p = Some token -> token <> "" ->
  let res := main rt p (start responses) in
  (exists logs rest,
      trace (world_of res) = logs ++ Default "Authorization" ("Bearer " ++ token) :: rest /\
      requests logs = []) /\
  (forall rq, In rq (requests (trace (world_of res))) ->
     exists prefix, In (method rq, prefix) surface /\
                    url rq = (prefix ++ toLowerCase d)%string) /\
  ~ In "api/login" (urls (trace (world_of res))).
Proof.
  intros Hsel Hcfg Htoken Hne; cbv zeta.
  destruct (main_with_token rt p d cfg token responses Hsel Hcfg Htoken Hne)
    as (logs & Hlogs & ->).
  set (uri := orElse (API_URI p) "https://localhost:5001/").
  set (w := mkWorld responses _).
  assert (Hquiet : requests (trace w) = []).
  { unfold w; cbn [trace]; rewrite requests_app, (requests_printed logs Hlogs); reflexivity. }
  assert (Hall : forall rq,
             In rq (requests (trace (world_of (outcome (loadDataset rt uri d (Some cfg) w))))) ->
             exists prefix, In (method rq, prefix) surface /\
                            url rq = (prefix ++ toLowerCase d)%string).
  { intros rq Hin; rewrite requests_outcome in Hin.
    apply loadDataset_requests in Hin as [Hin|Hin]; [now rewrite Hquiet in Hin|].
    now rewrite <- (getConfig_name d cfg Hcfg). }
  split; [|split; [exact Hall|]].
  - destruct (loadDataset_surface rt cfg uri d w) as (evs & k' & Htr & _ & _).
    exists (logs ++ [Default "baseURL" uri; Default "Content-Type" "application/json";
                     Default "Accept" "application/json"]).
    destruct (loadDataset rt uri d (Some cfg) w) as [a w'|[| |message cause|] w'];
      cbn [outcome world_of trace] in *; rewrite Htr; unfold w; cbn [trace];
      eexists; (split; [flat; reflexivity|]);
      rewrite requests_app, (requests_printed logs Hlogs); reflexivity.
  - unfold urls; rewrite in_map_iff; intros (rq & Hurl & Hin).
    destruct (Hall rq Hin) as (prefix & Hp & Heq).
    rewrite Heq in Hurl; exact (off_surface _ _ _ Hp Hurl).
Qed.

Lemma bearer_token_skips_login_witness :
  (exists logs rest,
      trace (world_of (main sampleRuntime (sampleProcess "TMDB") (start [ok; serverError])))
        = logs ++ Default "Authorization" "Bearer t" :: rest /\
      requests logs = []) /\
  (forall rq,
     In rq (requests (trace (world_of
        (main sampleRuntime (sampleProcess "TMDB") (start [ok; serverError]))))) ->
     exists prefix, In (method rq, prefix) surface /\ url rq = (prefix ++ "tmdb")%string) /\
  ~ In "api/login"
      (urls (trace (world_of
         (main sampleRuntime (sampleProcess "TMDB") (start [ok; serverError]))))).
Proof.
  apply (bearer_token_skips_login sampleRuntime (sampleProcess "TMDB") "TMDB" tmdb "t"
           [ok; serverError]);
    [reflexivity | reflexivity | reflexivity | discriminate].
Defined.

(** Without a bearer token, with an email and a password, [main] logs in;
    what follows depends on the token the response grants. *)
Lemma main_with_login rt p d cfg email password r rest :
  selected p = Some d -> getConfig d = Some cfg ->
  orElse (BEARER_TOKEN p) "" = "" ->
  USER_EMAIL p = Some email -> email <> "" ->
  USER_PASSWORD p = Some password -> password <> "" ->
  exists logs,
    forallb isPrinted logs = true /\
    let before :=
      logs ++
      [Printed info "Authenticating with email and password...";
       Default "baseURL" (orElse (API_URI p) "https://localhost:5001/");
       Default "Content-Type" "application/json";
       Default "Accept" "application/json";
       Exchange (credentials email password) r] in
    match granted r with
    | Some t =>
        main rt p (start (r :: rest)) =
          outcome
            (loadDataset rt (orElse (API_URI p) "https://localhost:5001/") d (Some cfg)
               (mkWorld rest
                  (before ++
                   [Default "Authorization" ("Bearer " ++ t);
                    Printed success "Authentication successful"])))
    | None =>
        main rt p (start (r :: rest)) =
          (if succeeds r then Ok tt (mkWorld rest (before ++ loginLines r))
           else Halt (Exited (-1)) (mkWorld rest (before ++ loginLines r)))
    end.
Proof.
  intros Hsel Hcfg Hbearer Hemail He Hpassword Hp.
  destruct (selection_selected p d (start (r :: rest)) Hsel) as (logs & Hlogs & Hselect).
  exists logs; split; [exact Hlogs|]; cbv zeta.
  unfold main, tryCatch, call.
  rewrite (bind_ok _ _ _ _ _ Hselect), Hcfg, Hbearer,
    (orElse_given _ _ Hemail He), (orElse_given _ _ Hpassword Hp),
    (eqb_nonempty _ He), (eqb_nonempty _ Hp).
  cbn [negb andb String.eqb]; unfold_console; unfold login, client_post, credentials, post.
  unfold_console.
  destruct r as [e|status statusText data];
    [destruct (Rejection.isAxiosError e) eqn:Haxios;
     [|destruct (Rejection.cause e) as [cause|] eqn:Hcause]
    |destruct (is2xx status) eqn:E2xx;
      [destruct (asJWT data) as [jwt|] eqn:Hjwt;
       [destruct (String.eqb (token jwt) "") eqn:Htok|]|]];
    unfold granted, loginLines, fatal, succeeds, bind, send, emit, ret, halt, throw;
    cbn -[loadDataset is2xx asJWT stringify];
    repeat (first [rewrite E2xx | rewrite Hjwt | rewrite Htok | rewrite Haxios
                  | rewrite Hcause];
            cbn -[loadDataset is2xx asJWT stringify]);
    flat; try reflexivity.
  by_outcome.
Qed.

Lemma requests_loginLines r : requests (loginLines r) = [].
Proof.
  unfold loginLines, fatal.
  destruct r as [e|status statusText data];
    [destruct (Rejection.isAxiosError e), (Rejection.cause e)
    |destruct (is2xx status)]; reflexivity.
Qed.

(** X9. Without a bearer token, with an email and a password, the first
    request of [main] is the login: a POST to api/login whose body holds the
    email as UserEmail and the password as UserPassWord.  When its response
    grants no token it is the only request of the run, and what follows it
    in the trace is [loginLines]: after a 2xx answer [main] prints Login
    failed and ends normally; after any other answer the process ends with
    the exit code -1, and the line of the handler is Fatal error: Login
    failed: with [JSON.stringify] of the body of a non-2xx response or the
    message of an Axios error, and Fatal error: with the message alone (and
    the cause on the next line, if there is one) for a rejection that is not
    an Axios error. *)
Theorem login_without_token (rt : Runtime) (p : Process) (d : string) (cfg : DatasetConfig.t)
    (email password : string) (r : Response) (rest : list Response) :
  selected p = Some d -> getConfig d = Some cfg ->
  orElse (BEARER_TOKEN p) "" = "" ->
  USER_EMAIL p = Some email -> email <> "" ->
  USER_PASSWORD p = Some password -> password <> "" ->
  granted r = None ->
  let res := main rt p (start (r :: rest)) in
  stop_of res = (if succeeds r then None else Some (Exited (-1))) /\
  requests (trace (world_of res)) = [credentials email password] /\
  script (world_of res) = rest /\
  exists before,
    trace (world_of res) = before ++ Exchange (credentials email password) r :: loginLines r /\
    requests before = [].
Proof.
  intros Hsel Hcfg Hbearer Hemail He Hpassword Hp Hnone; cbv zeta.
  destruct (main_with_login rt p d cfg email password r rest
              Hsel Hcfg Hbearer Hemail He Hpassword Hp) as (logs & Hlogs & H).
  cbv zeta in H; rewrite Hnone in H; rewrite H.
  split; [now destruct (succeeds r)|].
  split; [|split; [now destruct (succeeds r)|]].
  - destruct (succeeds r); cbn [world_of trace];
      rewrite !requests_app, (requests_printed logs Hlogs), requests_loginLines;
      reflexivity.
  - exists (logs ++
            [Printed info "Authenticating with email and password...";
             Default "baseURL" (orElse (API_URI p) "https://localhost:5001/");
             Default "Content-Type" "application/json";
             Default "Accept" "application/json"]).
    split.
    + destruct (succeeds r); cbn [world_of trace]; flat; reflexivity.
    + rewrite requests_app, (requests_printed logs Hlogs); reflexivity.
Qed.

(** The login answered 500 with the body null. *)
Lemma login_without_token_witness :
  let res := main sampleRuntime (loginProcess "tmdb") (start [serverError; ok]) in
  stop_of res = Some (Exited (-1)) /\
  requests (trace (world_of res)) = [credentials "me@example.org" "secret"] /\
  script (world_of res) = [ok] /\
  exists before,
    trace (world_of res) =
      before ++ Exchange (credentials "me@example.org" "secret") serverError
             :: [Printed log "Error: 500";
                 Printed log "Response: null";
                 Printed error "Fatal error: Login failed: null"] /\
    requests before = [].
Proof.
  apply (login_without_token sampleRuntime (loginProcess "tmdb") "tmdb" tmdb
           "me@example.org" "secret" serverError [ok]);
    first [reflexivity | discriminate].
Defined.

(** The login rejected with an Axios error that has no response, and with
    an error that is not an Axios error and has a cause. *)
Example login_rejected :
  printed (trace (world_of (main sampleRuntime (loginProcess "tmdb") (start [refused]))))
    = [Printed info "Authenticating with email and password...";
       Printed log "Error: undefined";
       Printed log "Response: undefined";
       Printed error "Fatal error: Login failed: connect ECONNREFUSED"]
  /\
  printed (trace (world_of (main sampleRuntime (loginProcess "tmdb") (start [brokenPipe]))))
    = [Printed info "Authenticating with email and password...";
       Printed error "Fatal error: write EPIPE";
       Printed error "  Inner exception: Error: socket closed"].
Proof. split; reflexivity. Qed.

(** X10. When the response to the login grants a token, the token is made
    the Authorization default of the client right after the response, and
    every request that follows is one of the calls of [loadDataset] for the
    lower-cased dataset name. *)
Theorem login_with_token (rt : Runtime) (p : Process) (d : string) (cfg : DatasetConfig.t)
    (email password : string) (r : Response) (rest : list Response) (t : string) :
  selected p = Some d -> getConfig d = Some cfg ->
  orElse (BEARER_TOKEN p) "" = "" ->
  USER_EMAIL p = Some email -> email <> "" ->
  USER_PASSWORD p = Some password -> password <> "" ->
  granted r = Some t ->
  exists before after,
    trace (world_of (main rt p (start (r :: rest)))) =
      before ++ Exchange (credentials email password) r
             :: Default "Authorization" ("Bearer " ++ t) :: after /\
    requests before = [] /\
    forall rq, In rq (requests after) ->
      exists prefix, In (method rq, prefix) surface /\
                     url rq = (prefix ++ toLowerCase d)%string.
Proof.
  intros Hsel Hcfg Hbearer Hemail He Hpassword Hp Hsome.
  destruct (main_with_login rt p d cfg email password r rest
              Hsel Hcfg Hbearer Hemail He Hpassword Hp) as (logs & Hlogs & H).
  cbv zeta in H; rewrite Hsome in H; rewrite H.
  set (uri := orElse (API_URI p) "https://localhost:5001/").
  set (w := mkWorld rest _).
  destruct (loadDataset_surface rt cfg uri d w) as (evs & k' & Htr & Hrun & _).
  assert (Hevs : forall rq, In rq (requests evs) ->
            exists prefix, In (method rq, prefix) surface /\
                           url rq = (prefix ++ toLowerCase d)%string).
  { intros rq Hin; rewrite <- (getConfig_name d cfg Hcfg).
    apply onSurface_spec; exact (surfaceStep_sound _ evs tt k' Hrun rq Hin). }
  exists (logs ++
          [Printed info "Authenticating with email and password...";
           Default "baseURL" uri; Default "Content-Type" "application/json";
           Default "Accept" "application/json"]).
  destruct (loadDataset rt uri d (Some cfg) w) as [a w'|[| |message [cause|]|] w'];
    cbn [outcome fatal world_of trace] in *; rewrite Htr; unfold w; cbn [trace];
    eexists; (split; [flat; reflexivity|]);
    (split; [rewrite requests_app, (requests_printed logs Hlogs); reflexivity|]);
    intros rq Hin; cbn [requests request_of] in Hin;
    rewrite ?requests_app in Hin; cbn in Hin; rewrite ?app_nil_r in Hin; auto.
Qed.

Lemma login_with_token_witness :
  exists before after,
    trace (world_of (main sampleRuntime (loginProcess "tmdb") (start [okToken "t"; ok]))) =
      before ++ Exchange (credentials "me@example.org" "secret") (okToken "t")
             :: Default "Authorization" "Bearer t" :: after /\
    requests before = [] /\
    forall rq, In rq (requests after) ->
      exists prefix, In (method rq, prefix) surface /\ url rq = (prefix ++ "tmdb")%string.
Proof.
  apply (login_with_token sampleRuntime (loginProcess "tmdb") "tmdb" tmdb
           "me@example.org" "secret" (okToken "t") [ok] "t");
    first [reflexivity | discriminate].
Defined.

(** X11. [main] sends nothing when there is nothing to authenticate with, or
    no dataset: with the Exit entry of the menu it prints a warning, and
    with a known dataset, no bearer token and no email or no password it
    prints that no credentials were provided; either way it ends normally
    and the service has not been contacted. *)
Theorem nothing_sent_without_credentials (rt : Runtime) (p : Process)
    (responses : list Response) :
  let res := main rt p (start responses) in
  (selected p = None ->
   stop_of res = None /\ requests (trace (world_of res)) = [] /\
   script (world_of res) = responses /\
   In (Printed warning "No dataset selected. Exiting.") (trace (world_of res)))
  /\
  (forall d cfg,
     selected p = Some d -> getConfig d = Some cfg ->
     orElse (BEARER_TOKEN p) "" = "" ->
     orElse (USER_EMAIL p) "" = "" \/ orElse (USER_PASSWORD p) "" = "" ->
     stop_of res = None /\ requests (trace (world_of res)) = [] /\
     script (world_of res) = responses /\
     In (Printed error "No authentication credentials provided") (trace (world_of res))).
Proof.
  cbv zeta; split.
  - unfold selected, main, tryCatch, call, selectDataset, showInteractiveMenu.
    destruct (String.eqb (orElse (optionDataset p) "") ""); [|discriminate].
    intros ->; cbn; repeat split; auto 10.
  - intros d cfg Hsel Hcfg Hbearer Hnone.
    destruct (selection_selected p d (start responses) Hsel) as (logs & Hlogs & Hselect).
    unfold main, tryCatch, call.
    rewrite (bind_ok _ _ _ _ _ Hselect), Hcfg, Hbearer.
    assert (Hboth : negb (String.eqb (orElse (USER_EMAIL p) "") "") &&
                    negb (String.eqb (orElse (USER_PASSWORD p) "") "") = false).
    { destruct Hnone as [-> | ->]; cbn; [reflexivity | apply andb_false_r]. }
    rewrite Hboth; cbn; repeat split.
    + rewrite !requests_app, (requests_printed logs Hlogs); reflexivity.
    + rewrite !in_app_iff; cbn; auto 10.
Qed.

Lemma nothing_sent_without_credentials_witness :
  stop_of (main sampleRuntime (Build_Process None None None None None None) (start [ok]))
    = None /\
  requests (trace (world_of
     (main sampleRuntime (Build_Process None None None None None None) (start [ok])))) = [] /\
  script (world_of
     (main sampleRuntime (Build_Process None None None None None None) (start [ok]))) = [ok] /\
  In (Printed warning "No dataset selected. Exiting.")
     (trace (world_of
        (main sampleRuntime (Build_Process None None None None None None) (start [ok])))).
Proof.
  apply (proj1 (nothing_sent_without_credentials sampleRuntime
                  (Build_Process None None None None None None) [ok])).
  reflexivity.
Defined.

(** ** The contract of the API layer on a failure *)

Lemma clearFields_sends n l :
  sends (clearFields n l) (put ("api/ClearFieldSettings/" ++ n) (strings l))
    (fun r => Some (succeeds r)).
Proof. sends_tac. Qed.

Lemma deleteDataSet_sends route n :
  sends (deleteDataSet route n) (Build_Request DELETE (route ++ "/DeleteDataSet/" ++ n) NoBody [])
    (fun r => Some (succeeds r)).
Proof. sends_tac. Qed.

Lemma deleteDocument_sends n k :
  sends (deleteDocument n k) (Build_Request DELETE ("api/" ++ n ++ "/" ++ showZ k) NoBody [])
    (fun r => Some (succeeds r)).
Proof. sends_tac. Qed.

Lemma loadFromDatabaseAsync_sends n :
  sends (loadFromDatabaseAsync n) (get ("api/LoadFromDatabase/" ++ n))
    (fun r => Some (succeeds r)).
Proof. sends_tac. Qed.

Lemma getUserDataSets_sends :
  sends getUserDataSets (get "api/GetUserDataSets") (orExit asStrings).
Proof. sends_tac. Qed.

Lemma analyzeStreamAsync_sends n f :
  sends (analyzeStreamAsync n f)
    (Build_Request POST ("api/AnalyzeStreamAsync/" ++ n) (FileStream f)
       [("Content-Type", "text/plain")])
    (orNull asSystemStatus).
Proof. sends_tac. Qed.

Lemma loadString_sends rt n f content :
  readFileSync rt f = Value content ->
  sends (loadString rt n f)
    (Build_Request PUT ("api/LoadString/" ++ n) (TextBody content)
       [("Content-Type", "text/plain")])
    (fun r => Some (succeeds r)).
Proof. intros H; unfold loadString; rewrite H; sends_tac. Qed.

Lemma sends_reportsStatus m rq :
  sends m rq (fun r => Some (succeeds r)) -> reportsStatus m.
Proof.
  intros H r rest tr; destruct (H (r :: rest) tr) as (logs & Hlogs & Heq).
  now exists rq, logs.
Qed.

Lemma sends_returnsBody {A} (m : M (option A)) rq view :
  sends m rq (orNull view) -> returnsBody view m.
Proof.
  intros H r rest tr; destruct (H (r :: rest) tr) as (logs & Hlogs & Heq).
  now exists rq, logs.
Qed.

Lemma sends_exitsOnFailure {A} (m : M A) rq (view : Body -> A) :
  sends m rq (orExit view) -> exitsOnFailure view m.
Proof.
  intros H r rest tr; destruct (H (r :: rest) tr) as (logs & Hlogs & Heq).
  exists rq, logs; split; [exact Hlogs|].
  unfold orExit in Heq.
  destruct r as [e|status statusText data]; [exact Heq|].
  destruct (is2xx status); exact Heq.
Qed.

(** X12. The calls of the API layer that return a boolean never throw and
    never end the process: each takes the response to its one request and
    returns true exactly when the status is a success, false for any other
    status and for a request that was rejected.  This covers the calls
    [loadDataset] does not use: clearFields, deleteDataSet, deleteDocument
    and loadFromDatabaseAsync. *)
Theorem boolean_calls_report_status (route dataSetName : string) (fields : list string)
    (searchable : list SearchableField.t) (documentKey : Z) :
  Forall reportsStatus (booleanCalls route dataSetName fields searchable documentKey).
Proof.
  unfold booleanCalls; repeat constructor; eapply sends_reportsStatus;
    first [ apply createOrOpenDataSet_sends | apply clearFields_sends
          | apply deleteDataSet_sends | apply deleteDocument_sends
          | apply indexDataSet_sends | apply loadFromDatabaseAsync_sends
          | apply setSearchableFields_sends | apply setFilterableFields_sends
          | apply setFacetableFields_sends | apply setSortableFields_sends
          | apply setWordIndexingFields_sends ].
Qed.

(** X13. The calls that return an object or null hand on what the service
    sent and swallow a failure: analyze (of a file that can be read),
    analyzeStreamAsync, the four filter and boost calls and search return
    the body of a 2xx response as it is, and null for any other status and
    for a request that was rejected; so the value is null exactly after a
    failure or a 2xx answer whose body is null.  The record count is the
    body of a 2xx response as it is, and 0 after a failure.  None of them
    throws or ends the process. *)
Theorem nullable_calls_return_body (rt : Runtime) (dataSetName fileName : string)
    (body : Json) :
  returnsBody asSystemStatus (analyzeStreamAsync dataSetName fileName) /\
  returnsBody asFilterProxy (combineFilters dataSetName body) /\
  returnsBody asBoostProxy (createBoost dataSetName body) /\
  returnsBody asFilterProxy (createRangeFilter dataSetName body) /\
  returnsBody asFilterProxy (createValueFilter dataSetName body) /\
  returnsBody asResult (search body dataSetName) /\
  (forall content, readFileSync rt fileName = Value content ->
     returnsBody asSystemStatus (analyze rt dataSetName fileName)) /\
  (forall r rest tr,
     getNumberOfJsonRecordsInDb dataSetName (mkWorld (r :: rest) tr) =
       Ok (if succeeds r then answer asNumber r else Some 0%Z)
          (mkWorld rest
             (tr ++ [Exchange (get ("api/GetNumberOfJsonRecordsInDb/" ++ dataSetName)) r])))
  /\
  (forall A (view : Views -> A) r,
     answer (read view) r = None <-> succeeds r = false \/ nullBody r = true).
Proof.
  repeat match goal with |- _ /\ _ => split end;
    try (eapply sends_returnsBody;
         first [ apply analyzeStreamAsync_sends | apply combineFilters_sends
               | apply createBoost_sends | apply createRangeFilter_sends
               | apply createValueFilter_sends | apply search_sends ]).
  - intros content Hread; eapply sends_returnsBody, analyze_sends, Hread.
  - intros r rest tr.
    destruct r as [e|status statusText data]; [reflexivity|].
    unfold getNumberOfJsonRecordsInDb, client_get, send, bind; cbn.
    destruct (is2xx status); reflexivity.
  - intros A view r; unfold answer, succeeds, nullBody.
    destruct r as [e|status statusText data]; [split; auto|].
    destruct (is2xx status), data; cbn; split; auto;
      try discriminate; intros [H|H]; discriminate H.
Qed.

(** X14. The getters hand on what the service sent or end the process:
    getStatus, the six field getters, getJson and getUserDataSets return the
    body of a 2xx response as it is (null when the body is null), and end
    the process with the exit code -1 for any other status and for a request
    that was rejected. *)
Theorem getters_exit_on_failure (dataSetName : string) (keys : list Z) :
  exitsOnFailure asSystemStatus (getStatus dataSetName) /\
  Forall (exitsOnFailure asStrings) (listGetters dataSetName keys).
Proof.
  split; [eapply sends_exitsOnFailure, getStatus_sends|].
  unfold listGetters; repeat constructor; eapply sends_exitsOnFailure;
    first [ apply getAllFields_sends | apply getSearchableFields_sends
          | apply getSortableFields_sends | apply getFacetableFields_sends
          | apply getFilterableFields_sends | apply getWordIndexingFields_sends
          | apply getJson_sends | apply getUserDataSets_sends ].
Qed.

(** ** Files that cannot be read *)

(** X15. A data file that cannot be read never reaches the network: when
    [statSync] fails loadStreamAsync sends nothing and returns false, when
    [readFileSync] fails loadString returns false and analyze returns null,
    without a request; the response script is left as it was.  When the file
    is there, the load request streams it with its size as Content-Length. *)
Theorem unreadable_file_sends_nothing (rt : Runtime) (dataSetName fileName : string)
    (w : World) :
  (forall message,
     statSync rt fileName = Raises message ->
     loadStreamAsync rt dataSetName fileName w =
       Ok false (mkWorld (script w)
                   (trace w ++ [Printed errlog ("LoadStreamAsync error: " ++ message)])))
  /\
  (forall message,
     readFileSync rt fileName = Raises message ->
     loadString rt dataSetName fileName w = Ok false w /\
     analyze rt dataSetName fileName w =
       Ok None (mkWorld (script w)
                  (trace w ++ [Printed errlog ("Analyze error: " ++ message)])))
  /\
  (forall size,
     statSync rt fileName = Value size ->
     requests (trace (world_of (loadStreamAsync rt dataSetName fileName w))) =
       requests (trace w) ++
       [Build_Request PUT ("api/LoadStream/" ++ dataSetName) (FileStream fileName)
          [("Content-Type", "text/plain"); ("Content-Length", showZ size)]]).
Proof.
  repeat split.
  - intros message H; unfold loadStreamAsync; rewrite H; reflexivity.
  - unfold loadString; rewrite H; reflexivity.
  - unfold analyze; rewrite H; reflexivity.
  - intros size H; apply (sends_requests _ _ _ w (loadStreamAsync_sends rt _ _ size H)).
Qed.

Lemma unreadable_file_sends_nothing_witness :
  loadStreamAsync emptyRuntime "tmdb" "data/tmdb_top10k.json" (start [ok]) =
    Ok false (mkWorld [ok] [Printed errlog "LoadStreamAsync error: ENOENT"]).
Proof.
  apply (proj1 (unreadable_file_sends_nothing emptyRuntime "tmdb" "data/tmdb_top10k.json"
                  (start [ok]))).
  reflexivity.
Defined.

(** ** What the calls carry *)

Lemma properStep_quiet rt cfg k e : isQuiet e = true -> properStep rt cfg k e = Some k.
Proof. now destruct e. Qed.

(** A request with a concrete route is proper by computation, given what
    the walk has learnt of the files and of the name. *)
Ltac proper_tac :=
  unfold proper; split;
  [ let b := fresh "b" in
    intros b; cbn;
    repeat match goal with
           | H : readFileSync _ _ = _ |- _ => rewrite H
           | H : statSync _ _ = _ |- _ => rewrite H
           end;
    first [ discriminate | intros [= <-]; reflexivity ]
  | cbn; first [ discriminate | intros _; apply String.eqb_eq; assumption ] ].

Ltac bhalts :=
  unfold holds; cbv beta in *;
  repeat match goal with |- _ /\ _ => split end;
  first [ assumption | exact I | proper_tac ].

Ltac bsteps := unfold properStep; cbn [request_of].

Ltac bsend :=
  eapply (tri_sends_bind _ _ _ (properStep_quiet _ _));
  [ sends_lemma
  | eexists; split; [bsteps; reflexivity | bhalts]
  | let r := fresh "r" in
    intros r; split_response r; eexists;
    (split;
     [ bsteps; reflexivity
     | cbn -[Nat.modulo displayResults proper];
       repeat match goal with H : is2xx _ = _ |- _ => rewrite H end;
       cbn -[Nat.modulo displayResults proper]; try bhalts ]) ].

Ltac bmonitor rule :=
  eapply tri_bind;
  [ apply (rule Prop (properStep _ _) holds (properStep_quiet _ _)
             (fun k : Prop => k) (fun k : Prop => k));
    [ intros ? ? ? ?; eexists; split; [bsteps; reflexivity|];
      split; [bhalts | intros _; bhalts]
    | intros ? ? ? ?; eexists; split; [bsteps; reflexivity | bhalts]
    | intros ? ?; eexists; split; [bsteps; reflexivity | bhalts]
    | bhalts ]
  | intros ? ? ? ].

Ltac bstep :=
  lazymatch goal with
  | |- tri _ _ _ _ (bind (monitorLoading _) _) _ => bmonitor tri_monitorLoading_inv
  | |- tri _ _ _ _ (bind (monitorIndexing _) _) _ => bmonitor tri_monitorIndexing_inv
  | |- tri _ (properStep ?rt ?cfg) _ _ _ _ =>
      first [ tstep (properStep_quiet rt cfg) ltac:(bhalts) ltac:(bsteps) | bsend ]
  end.

Ltac bwalk := unfold_console; cbn [forEach]; repeat bstep; try bhalts.

Section Proper.
Variable rt : Runtime.
Variable cfg : DatasetConfig.t.

Abbreviation btri := (tri Prop (properStep rt cfg) holds).

Lemma displayResults_proper records :
  forall (k : Prop) resultNum,
    k -> btri k (displayResults rt cfg resultNum records) (fun _ k' => k').
Proof.
  induction records as [|item rest IH]; intros k resultNum Hk; cbn [displayResults].
  - now apply tri_ret.
  - unfold_console; repeat bstep; apply IH; bhalts.
Qed.

Lemma step2_proper uri (k : Prop) : k -> btri k (step2 uri cfg) (fun _ k' => k').
Proof.
  intros Hk; unfold step2; unfold_console.
  bstep. apply (tri_tryCatch _ _ _).
  - bwalk.
  - intros message cause k' Hk'; bwalk.
Qed.

Lemma step3_proper (k : Prop) : k -> btri k (step3 rt cfg) (fun _ k' => k').
Proof.
  intros Hk; unfold step3; unfold_console.
  destruct (readFileSync rt (DatasetConfig.filePath cfg)) as [content|message] eqn:Hread.
  - bwalk.
  - unfold analyze; rewrite Hread; bwalk.
Qed.

Lemma step5_proper (k : Prop) : k -> btri k (step5 cfg) (fun _ k' => k').
Proof.
  intros Hk; unfold step5; unfold_console; repeat bstep.
  eapply tri_post.
  - apply (tri_forEach _ _ _); intros; apply (tri_emit _ _ _ (properStep_quiet _ _)); reflexivity.
  - intros _ k' ->; bhalts.
Qed.

Lemma step11_proper (k : Prop) : k -> btri k (step11 rt cfg) (fun _ k' => k').
Proof.
  intros Hk; unfold step11; unfold_console.
  destruct (statSync rt (DatasetConfig.filePath cfg)) as [size|message] eqn:Hstat.
  - bwalk.
  - unfold loadStreamAsync; rewrite Hstat; bwalk.
Qed.

Lemma step13_proper (k : Prop) : k -> btri k (step13 rt cfg) (fun _ k' => k').
Proof.
  intros Hk; unfold step13; unfold_console; repeat bstep.
  eapply tri_bind; [apply displayResults_proper; bhalts|].
  intros ? k' Hk'; bwalk.
Qed.

Lemma loadDataset_proper uri n :
  btri True (loadDataset rt uri n (Some cfg)) (fun _ k' => k').
Proof.
  cbn [loadDataset].
  eapply tri_bind with (Q := fun _ (k' : Prop) => k');
    [unfold step0; bwalk | intros ? ? ?].
  eapply tri_bind; [now apply step2_proper | intros ? ? ?].
  eapply tri_bind; [now apply step3_proper | intros ? ? ?].
  eapply tri_bind with (Q := fun _ (k' : Prop) => k'); [unfold step4; bwalk | intros ? ? ?].
  eapply tri_bind; [now apply step5_proper | intros ? ? ?].
  eapply tri_bind with (Q := fun _ (k' : Prop) => k'); [unfold step6; bwalk | intros ? ? ?].
  eapply tri_bind with (Q := fun _ (k' : Prop) => k'); [unfold step7; bwalk | intros ? ? ?].
  eapply tri_bind with (Q := fun _ (k' : Prop) => k'); [unfold step8; bwalk | intros ? ? ?].
  eapply tri_bind with (Q := fun _ (k' : Prop) => k'); [unfold step9; bwalk | intros ? ? ?].
  eapply tri_bind with (Q := fun _ (k' : Prop) => k'); [unfold step10; bwalk | intros ? ? ?].
  eapply tri_bind with (Q := fun _ (k' : Prop) => k');
    [unfold createFilters; bwalk | intros ? ? ?].
  eapply tri_bind; [now apply step11_proper | intros numberOfRecords ? ?].
  eapply tri_bind with (Q := fun _ (k' : Prop) => k'); [unfold step12; bwalk | intros ? ? ?].
  eapply tri_bind; [now apply step13_proper | intros resultsCount ? ?].
  bwalk.
Qed.
End Proper.

Lemma properStep_sound rt cfg evs :
  forall (k k' : Prop),
    run Prop (properStep rt cfg) k evs = Some k' -> k' ->
    k /\ forall rq, In rq (requests evs) -> proper rt cfg rq.
Proof.
  induction evs as [|e evs IH]; intros k k' Hrun Hk'; cbn [run requests] in *.
  - injection Hrun as <-; split; [exact Hk' | intros rq []].
  - unfold properStep in Hrun at 1.
    destruct (request_of e) as [rq0|].
    + destruct (IH _ _ Hrun Hk') as [[Hk H0] Hall].
      split; [exact Hk|]; intros rq [<-|Hin]; auto.
    + exact (IH _ _ Hrun Hk').
Qed.

Lemma loadDataset_all_proper rt uri n cfg responses rq :
  In rq (requests (trace (world_of (loadDataset rt uri n (Some cfg) (start responses))))) ->
  proper rt cfg rq.
Proof.
  intros Hin.
  destruct (loadDataset_proper rt cfg uri n (start responses))
    as (evs & k' & Htr & Hrun & Hres).
  change (trace (start responses) ++ evs) with evs in Htr; rewrite Htr in Hin.
  assert (Hk' : k')
    by (destruct (loadDataset rt uri n (Some cfg) (start responses)); exact Hres).
  exact (proj2 (properStep_sound rt cfg evs True k' Hrun Hk') rq Hin).
Qed.

(** X16. What [loadDataset] sends is what the descriptor says: in every
    run, the analysis carries the text of the descriptor's data file, each
    of the five set calls carries the field list of its own kind, the load
    streams the data file with its size as Content-Length, and the search
    carries the test query with at most 5 records, sorted by the first
    sortable field, facets and boost off. *)
Theorem calls_carry_configuration (rt : Runtime) (uri n : string) (cfg : DatasetConfig.t)
    (responses : list Response) (rq : Request) (b : Payload * list (string * string)) :
  In rq (requests (trace (world_of (loadDataset rt uri n (Some cfg) (start responses))))) ->
  configuredBody rt cfg (url rq) = Some b ->
  (payload rq, headers rq) = b.
Proof.
  intros Hin; exact (proj1 (loadDataset_all_proper rt uri n cfg responses rq Hin) b).
Qed.

Lemma calls_carry_configuration_witness :
  (payload (put "api/SetSortableFields/pokedex" (strings ["name"; "speed"])),
   headers (put "api/SetSortableFields/pokedex" (strings ["name"; "speed"])))
  = (strings ["name"; "speed"], []).
Proof.
  apply (calls_carry_configuration sampleRuntime "u" "pokedex" pokedex allFine
           (put "api/SetSortableFields/pokedex" (strings ["name"; "speed"]))).
  - vm_compute; repeat (first [left; reflexivity | right]).
  - reflexivity.
Defined.

(** X17. The filter and boost calls are made for the descriptor named
    pokedex only: a run for any other descriptor holds no request to
    CreateRangeFilter, CreateValueFilter, CombineFilters or CreateBoost. *)
Theorem filters_only_for_pokedex (rt : Runtime) (uri n : string) (cfg : DatasetConfig.t)
    (responses : list Response) (rq : Request) :
  In rq (requests (trace (world_of (loadDataset rt uri n (Some cfg) (start responses))))) ->
  isFilterCall rq = true ->
  DatasetConfig.name cfg = "pokedex".
Proof.
  intros Hin; exact (proj2 (loadDataset_all_proper rt uri n cfg responses rq Hin)).
Qed.

Lemma filters_only_for_pokedex_witness : DatasetConfig.name pokedex = "pokedex".
Proof.
  apply (filters_only_for_pokedex sampleRuntime "u" "pokedex" pokedex allFine
           (put "api/CreateValueFilter/pokedex"
              (JsonBody (JObj [("fieldName", JStr "speed"); ("value", num 50)])))).
  - vm_compute; repeat (first [left; reflexivity | right]).
  - reflexivity.
Defined.

(** ** The registry, again *)

Lemma lowerChar_idempotent c : lowerChar (lowerChar c) = lowerChar c.
Proof. destruct c as [[] [] [] [] [] [] [] []]; reflexivity. Qed.

Lemma toLowerCase_idempotent s : toLowerCase (toLowerCase s) = toLowerCase s.
Proof.
  induction s as [|c s IH]; cbn; [reflexivity|].
  now rewrite lowerChar_idempotent, IH.
Qed.

(** X18. Looking a name up is the same as looking its lower-cased form up,
    for every string; and a descriptor that is found under some name is
    found again under its own name, which is one of the available datasets.
    So the name [loadDataset] uses in its URLs is always one the registry
    knows. *)
Theorem getConfig_round_trip (datasetName : string) :
  getConfig (toLowerCase datasetName) = getConfig datasetName /\
  forall cfg,
    getConfig datasetName = Some cfg ->
    getConfig (DatasetConfig.name cfg) = Some cfg /\
    In (DatasetConfig.name cfg) getAvailableDatasets.
Proof.
  split.
  - unfold getConfig; now rewrite toLowerCase_idempotent.
  - unfold getConfig; intros cfg.
    destruct (String.eqb (toLowerCase datasetName) "tmdb");
      [intros [= <-]; cbn; auto|].
    destruct (String.eqb (toLowerCase datasetName) "pokedex");
      [intros [= <-]; cbn; auto|].
    discriminate.
Qed.

Lemma getConfig_round_trip_witness :
  getConfig (DatasetConfig.name tmdb) = Some tmdb /\
  In (DatasetConfig.name tmdb) getAvailableDatasets.
Proof.
  apply (proj2 (getConfig_round_trip "TmDb") tmdb).
  reflexivity.
Defined.
(** ** The documents of the test search *)

Lemma displayResults_step rt cfg resultNum item rest r responses tr :
  returned asStrings r = true ->
  exists logs,
    forallb isPrinted logs = true /\
    displayResults rt cfg resultNum (item :: rest) (mkWorld (r :: responses) tr) =
      displayResults rt cfg (S resultNum) rest
        (mkWorld responses
           (tr ++ Exchange (post ("api/GetJson/" ++ DatasetConfig.name cfg)
                              (JsonBody (JArr [num (documentKey item)]))) r :: logs)).
Proof.
  intros Hr; cbn [displayResults].
  destruct (getJson_sends (DatasetConfig.name cfg) [documentKey item] (r :: responses) tr)
    as (logs & Hlogs & Heq).
  unfold returned, answer in Hr; unfold orExit in Heq.
  destruct r as [|status statusText data]; [discriminate|].
  destruct (is2xx status); [|discriminate].
  destruct (asStrings data) as [rec|] eqn:Hrec; [|discriminate].
  eexists; split; [|rewrite (bind_ok _ _ _ _ _ Heq); unfold_console;
                    unfold bind, emit; cbn; flat; reflexivity].
  rewrite forallb_app, Hlogs; reflexivity.
Qed.

Lemma displayResults_null rt cfg resultNum item rest r responses tr :
  nullBody r = true ->
  stop_of (displayResults rt cfg resultNum (item :: rest) (mkWorld (r :: responses) tr))
    = Some (Thrown (nullRead rt "0") None) /\
  script (world_of
    (displayResults rt cfg resultNum (item :: rest) (mkWorld (r :: responses) tr)))
    = responses.
Proof.
  intros Hr; cbn [displayResults].
  destruct (getJson_sends (DatasetConfig.name cfg) [documentKey item] (r :: responses) tr)
    as (logs & Hlogs & Heq).
  unfold nullBody in Hr; unfold orExit in Heq.
  destruct r as [|status statusText [|views]]; try discriminate.
  rewrite Hr in Heq.
  rewrite (bind_ok _ _ _ _ _ Heq); split; reflexivity.
Qed.

(** X19. The results of the test search are fetched one by one: for each
    record the search returned, in the order returned and however many
    there are, one GetJson request with the key of that record alone; when
    each is answered with a 2xx status and a list of documents the loop ends
    having taken exactly one response per record.  A 2xx answer whose body
    is null ends the loop at its record: reading the first document of null
    is a TypeError, thrown after the answer has been taken. *)
Theorem displayResults_fetches_each (rt : Runtime) (cfg : DatasetConfig.t)
    (records : list SearchRecord) :
  (forall (resultNum : nat) (answers rest : list Response) (tr : Trace),
     length answers = length records ->
     forallb (returned asStrings) answers = true ->
     stop_of (displayResults rt cfg resultNum records (mkWorld (answers ++ rest) tr)) = None /\
     script (world_of (displayResults rt cfg resultNum records (mkWorld (answers ++ rest) tr)))
       = rest /\
     requests (trace (world_of
       (displayResults rt cfg resultNum records (mkWorld (answers ++ rest) tr))))
       = requests tr ++
         map (fun item => post ("api/GetJson/" ++ DatasetConfig.name cfg)
                            (JsonBody (JArr [num (documentKey item)]))) records)
  /\
  (forall (resultNum : nat) (item : SearchRecord) (r : Response) (rest : list Response)
          (tr : Trace),
     nullBody r = true ->
     stop_of (displayResults rt cfg resultNum (item :: records) (mkWorld (r :: rest) tr))
       = Some (Thrown (nullRead rt "0") None) /\
     script (world_of
       (displayResults rt cfg resultNum (item :: records) (mkWorld (r :: rest) tr))) = rest).
Proof.
  split; [|intros; now apply displayResults_null].
  induction records as [|item records' IH]; intros resultNum answers rest tr Hlen Hall.
  - destruct answers; [|discriminate]; cbn; now rewrite app_nil_r.
  - destruct answers as [|r answers]; [discriminate|].
    cbn in Hlen, Hall; injection Hlen as Hlen; apply andb_prop in Hall as [Hr Hall].
    cbn [app].
    destruct (displayResults_step rt cfg resultNum item records' r (answers ++ rest) tr Hr)
      as (logs & Hlogs & ->).
    match goal with
    | |- context [displayResults _ _ _ _ (mkWorld _ ?t)] =>
        destruct (IH (S resultNum) answers rest t Hlen Hall) as (Hstop & Hscript & Hreqs)
    end.
    repeat split; [exact Hstop | exact Hscript |].
    rewrite Hreqs, requests_app; cbn.
    now rewrite (requests_printed logs Hlogs), <- app_assoc.
Qed.

Lemma displayResults_fetches_each_witness :
  (stop_of (displayResults sampleRuntime pokedex 1
              [Build_SearchRecord 7 (Qmake 1 2); Build_SearchRecord 3 (Qmake 1 4)]
              (mkWorld ([ok; ok] ++ [serverError]) [])) = None /\
   script (world_of (displayResults sampleRuntime pokedex 1
              [Build_SearchRecord 7 (Qmake 1 2); Build_SearchRecord 3 (Qmake 1 4)]
              (mkWorld ([ok; ok] ++ [serverError]) []))) = [serverError] /\
   requests (trace (world_of (displayResults sampleRuntime pokedex 1
              [Build_SearchRecord 7 (Qmake 1 2); Build_SearchRecord 3 (Qmake 1 4)]
              (mkWorld ([ok; ok] ++ [serverError]) []))))
     = requests [] ++
       map (fun item => post ("api/GetJson/" ++ DatasetConfig.name pokedex)
                          (JsonBody (JArr [num (documentKey item)])))
         [Build_SearchRecord 7 (Qmake 1 2); Build_SearchRecord 3 (Qmake 1 4)])
  /\
  (stop_of (displayResults sampleRuntime pokedex 1
              [Build_SearchRecord 7 (Qmake 1 2); Build_SearchRecord 3 (Qmake 1 4)]
              (mkWorld [okNull; ok] []))
     = Some (Thrown "Cannot read properties of null (reading '0')" None) /\
   script (world_of (displayResults sampleRuntime pokedex 1
              [Build_SearchRecord 7 (Qmake 1 2); Build_SearchRecord 3 (Qmake 1 4)]
              (mkWorld [okNull; ok] []))) = [ok]).
Proof.
  split.
  - apply (proj1 (displayResults_fetches_each sampleRuntime pokedex
                    [Build_SearchRecord 7 (Qmake 1 2); Build_SearchRecord 3 (Qmake 1 4)])
             1%nat [ok; ok] [serverError] []); reflexivity.
  - apply (proj2 (displayResults_fetches_each sampleRuntime pokedex
                    [Build_SearchRecord 3 (Qmake 1 4)])
             1%nat (Build_SearchRecord 7 (Qmake 1 2)) okNull [ok] []); reflexivity.
Defined.

(** ** The cadence of the monitors *)

Lemma silent_app a b : silent (a ++ b) = silent a ++ silent b.
Proof. apply filter_app. Qed.

Ltac hush :=
  cbn -[Nat.modulo silent]; rewrite ?silent_app; cbn -[Nat.modulo];
  rewrite ?app_nil_r, <- ?app_assoc; cbn [app].

Lemma monitor_cadence label p n polls :
  forall d tr,
    exists taken,
      polls = taken ++ script (world_of (monitor label p n d polls tr)) /\
      match stop_of (monitor label p n d polls tr) with
      | None =>
          silent (trace (world_of (monitor label p n d polls tr))) =
            silent tr ++ turns n taken
      | Some Awaiting =>
          silent (trace (world_of (monitor label p n d polls tr))) =
            silent tr ++ turns n taken ++ [Sent (getStatus_request n)]
      | Some _ =>
          exists before r,
            taken = before ++ [r] /\ succeeds r = false /\
            silent (trace (world_of (monitor label p n d polls tr))) =
              silent tr ++ turns n before ++ [Exchange (getStatus_request n) r]
      end.
Proof.
  induction polls as [|r polls IH]; intros d tr.
  - exists []; split; [reflexivity|]; hush; reflexivity.
  - cbn [monitor]; unfold getStatus_reply.
    destruct r as [e|status statusText data];
      [|destruct (is2xx status) eqn:E2xx].
    + exists [Threw e]; split; [reflexivity|].
      exists [], (Threw e); repeat split; hush; reflexivity.
    + cbn -[Nat.modulo asSystemStatus].
      destruct (match asSystemStatus data with
                | Some status => p (systemState status)
                | None => false
                end).
      * match goal with
        | |- context [monitor _ _ _ ?d' _ ?t] =>
            destruct (IH d' t) as (taken & Hpolls & Hsilent);
            set (res := monitor label p n d' polls t) in *
        end.
        exists (Http status statusText data :: taken); split; [cbn; now f_equal|].
        destruct (stop_of res) as [[| | |]|].
        -- destruct Hsilent as (before & r & -> & Hr & ->).
           exists (Http status statusText data :: before), r; repeat split; auto.
           hush; reflexivity.
        -- destruct Hsilent as (before & r & -> & Hr & ->).
           exists (Http status statusText data :: before), r; repeat split; auto.
           hush; reflexivity.
        -- destruct Hsilent as (before & r & -> & Hr & ->).
           exists (Http status statusText data :: before), r; repeat split; auto.
           hush; reflexivity.
        -- rewrite Hsilent; hush; reflexivity.
        -- rewrite Hsilent; hush; reflexivity.
      * exists [Http status statusText data]; split; [reflexivity|]; hush; reflexivity.
    + exists [Http status statusText data]; split; [reflexivity|].
      exists [], (Http status statusText data); repeat split; [exact E2xx|].
      hush; reflexivity.
Qed.

(** X20. The two monitors poll at a fixed cadence: apart from console
    output, what a monitor does is, for each response it takes, one status
    request for the dataset, and after each answer that is a success a
    sleep of 100 ms.  It takes the responses in order and leaves the rest;
    when it ends the process, the last response taken is the failure, and
    no sleep follows it. *)
Theorem monitors_poll_and_sleep (dataSetName : string) (polls : list Response) (tr : Trace)
    (m : M unit) :
  m = monitorLoading dataSetName \/ m = monitorIndexing dataSetName ->
  exists taken,
    polls = taken ++ script (world_of (m (mkWorld polls tr))) /\
    match stop_of (m (mkWorld polls tr)) with
    | None =>
        silent (trace (world_of (m (mkWorld polls tr)))) =
          silent tr ++ turns dataSetName taken
    | Some Awaiting =>
        silent (trace (world_of (m (mkWorld polls tr)))) =
          silent tr ++ turns dataSetName taken ++ [Sent (getStatus_request dataSetName)]
    | Some _ =>
        exists before r,
          taken = before ++ [r] /\ succeeds r = false /\
          silent (trace (world_of (m (mkWorld polls tr)))) =
            silent tr ++ turns dataSetName before ++
            [Exchange (getStatus_request dataSetName) r]
    end.
Proof.
  intros [-> | ->]; unfold monitorLoading, monitorIndexing; cbn [script trace];
    apply monitor_cadence.
Qed.

Lemma monitors_poll_and_sleep_witness :
  exists taken,
    [okStatus SystemState.Indexing; okStatus SystemState.Ready; ok] =
      taken ++ script (world_of (monitorIndexing "tmdb"
        (mkWorld [okStatus SystemState.Indexing; okStatus SystemState.Ready; ok] []))) /\
    match stop_of (monitorIndexing "tmdb"
            (mkWorld [okStatus SystemState.Indexing; okStatus SystemState.Ready; ok] [])) with
    | None =>
        silent (trace (world_of (monitorIndexing "tmdb"
          (mkWorld [okStatus SystemState.Indexing; okStatus SystemState.Ready; ok] [])))) =
          silent [] ++ turns "tmdb" taken
    | Some Awaiting =>
        silent (trace (world_of (monitorIndexing "tmdb"
          (mkWorld [okStatus SystemState.Indexing; okStatus SystemState.Ready; ok] [])))) =
          silent [] ++ turns "tmdb" taken ++ [Sent (getStatus_request "tmdb")]
    | Some _ =>
        exists before r,
          taken = before ++ [r] /\ succeeds r = false /\
          silent (trace (world_of (monitorIndexing "tmdb"
            (mkWorld [okStatus SystemState.Indexing; okStatus SystemState.Ready; ok] [])))) =
            silent [] ++ turns "tmdb" before ++ [Exchange (getStatus_request "tmdb") r]
    end.
Proof.
  apply (monitors_poll_and_sleep "tmdb"
           [okStatus SystemState.Indexing; okStatus SystemState.Ready; ok] []
           (monitorIndexing "tmdb")).
  right; reflexivity.
Defined.
